(** * Hospital Management System: scheduling and availability core

    A shallow embedding of [database.py] (the relational model) and of the
    state-changing views of [app.py] (booking, rescheduling, cancellation,
    clinical updates, availability, directory toggles), followed by the
    properties of the scheduling core proved about that embedding.

    Conventions of the embedding.
    - A table is the list of its rows in rowid order; a primary key is an
      integer ([Z]); [db.session.add] appends a row whose id is one more
      than the largest id in the table (SQLite's rowid rule).
    - A [date] is its proleptic Gregorian ordinal ([date.toordinal()]), so
      that [today + timedelta(days=7)] is [today + 7]; a time of day is the
      (hour, minute) pair that ["%H:%M"] parses to.
    - The [TimestampMixin] columns (wall-clock values) and the password
      hash (an opaque capability) are not part of the model.  The
      departments table is written by [init_db] only.
    - A [str] is a string of code points below 256, on which [strip] and
      [lower] are Python's.
    - An integer of a request is unbounded, as [int(...)] and the URL
      converter return it; SQLite holds signed 64-bit integers, and the
      driver raises [OverflowError] on any other.
    - A view runs against a session: reads and writes go to the pending
      state, [db.session.commit()] publishes it, and a view that aborts or
      returns without committing leaves the database as it was. *)

From Stdlib Require Import ZArith List String Bool Lia.
Import ListNotations.

Local Open Scope string_scope.
Local Open Scope list_scope.
Local Open Scope Z_scope.

(* ================================================================= *)
(** ** database.py *)

(** [class AppointmentStatus(enum.StrEnum)] *)
Inductive AppointmentStatus : Type :=
| BOOKED
| COMPLETED
| CANCELLED.

(** The [.value] of a member: what is stored in the status column. *)
Definition AppointmentStatus_value (m : AppointmentStatus) : string :=
  match m with
  | BOOKED => "Booked"
  | COMPLETED => "Completed"
  | CANCELLED => "Cancelled"
  end.

(** [AppointmentStatus.__members__]: the mapping from member NAMES to
    members, in definition order. *)
Definition AppointmentStatus__members__ : list (string * AppointmentStatus) :=
  [ ("BOOKED", BOOKED); ("COMPLETED", COMPLETED); ("CANCELLED", CANCELLED) ].

(** [name in AppointmentStatus.__members__] *)
Definition in__members__ (name : string) : bool :=
  existsb (fun kv => String.eqb (fst kv) name) AppointmentStatus__members__.

(** [AppointmentStatus[name]]; [None] stands for the [KeyError]. *)
Definition AppointmentStatus_getitem (name : string) : option AppointmentStatus :=
  option_map snd
    (find (fun kv => String.eqb (fst kv) name) AppointmentStatus__members__).

(** [class UserRole(enum.StrEnum)] *)
Inductive UserRole : Type :=
| ADMIN
| DOCTOR
| PATIENT.

Definition UserRole_value (r : UserRole) : string :=
  match r with
  | ADMIN => "admin"
  | DOCTOR => "doctor"
  | PATIENT => "patient"
  end.

Definition date : Type := Z.

Module Time.
Record t : Type := mk { hour : Z; minute : Z }.

Definition eqb (a b : t) : bool :=
  (hour a =? hour b) && (minute a =? minute b).
End Time.

Module User.
Record t : Type := mk {
  id : Z;
  full_name : string;
  email : string;
  phone : string;
  role : string;
  is_active : bool
}.

Definition set_is_active (b : bool) (u : t) : t :=
  mk (id u) (full_name u) (email u) (phone u) (role u) b.

Definition set_full_name (v : string) (u : t) : t :=
  mk (id u) v (email u) (phone u) (role u) (is_active u).

Definition set_phone (v : string) (u : t) : t :=
  mk (id u) (full_name u) (email u) v (role u) (is_active u).
End User.

Module Doctor.
Record t : Type := mk {
  id : Z;
  user_id : Z;
  department_id : Z;
  specialization : string;
  room : string;
  availability_summary : string;
  is_active : bool
}.

Definition set_is_active (b : bool) (d : t) : t :=
  mk (id d) (user_id d) (department_id d) (specialization d) (room d)
     (availability_summary d) b.

Definition set_specialization (v : string) (d : t) : t :=
  mk (id d) (user_id d) (department_id d) v (room d)
     (availability_summary d) (is_active d).

Definition set_department_id (v : Z) (d : t) : t :=
  mk (id d) (user_id d) v (specialization d) (room d)
     (availability_summary d) (is_active d).

Definition set_room (v : string) (d : t) : t :=
  mk (id d) (user_id d) (department_id d) (specialization d) v
     (availability_summary d) (is_active d).

Definition set_availability_summary (v : string) (d : t) : t :=
  mk (id d) (user_id d) (department_id d) (specialization d) (room d)
     v (is_active d).
End Doctor.

Module Patient.
Record t : Type := mk {
  id : Z;
  user_id : Z;
  address : option string;            (* nullable, never set at creation *)
  blood_group : option string;
  emergency_contact : option string
}.

Definition set_address (v : option string) (p : t) : t :=
  mk (id p) (user_id p) v (blood_group p) (emergency_contact p).

Definition set_blood_group (v : option string) (p : t) : t :=
  mk (id p) (user_id p) (address p) v (emergency_contact p).

Definition set_emergency_contact (v : option string) (p : t) : t :=
  mk (id p) (user_id p) (address p) (blood_group p) v.
End Patient.

Module DoctorAvailability.
Record t : Type := mk {
  id : Z;
  doctor_id : Z;
  available_date : date;
  start_time : Time.t;
  end_time : Time.t
}.

Definition set_start_time (v : Time.t) (a : t) : t :=
  mk (id a) (doctor_id a) (available_date a) v (end_time a).

Definition set_end_time (v : Time.t) (a : t) : t :=
  mk (id a) (doctor_id a) (available_date a) (start_time a) v.
End DoctorAvailability.

Module Appointment.
Record t : Type := mk {
  id : Z;
  patient_id : Z;
  doctor_id : Z;
  department_id : Z;
  appointment_date : date;
  appointment_time : Time.t;
  status : AppointmentStatus;
  reason : string
}.

(** [default=AppointmentStatus.BOOKED] of the status column. *)
Definition default_status : AppointmentStatus := BOOKED.

Definition set_status (v : AppointmentStatus) (a : t) : t :=
  mk (id a) (patient_id a) (doctor_id a) (department_id a)
     (appointment_date a) (appointment_time a) v (reason a).

Definition set_appointment_date (v : date) (a : t) : t :=
  mk (id a) (patient_id a) (doctor_id a) (department_id a)
     v (appointment_time a) (status a) (reason a).

Definition set_appointment_time (v : Time.t) (a : t) : t :=
  mk (id a) (patient_id a) (doctor_id a) (department_id a)
     (appointment_date a) v (status a) (reason a).
End Appointment.

Module TreatmentNote.
Record t : Type := mk {
  id : Z;
  appointment_id : Z;
  diagnosis : string;
  prescription : string;
  notes : string
}.

Definition set_diagnosis (v : string) (n : t) : t :=
  mk (id n) (appointment_id n) v (prescription n) (notes n).

Definition set_prescription (v : string) (n : t) : t :=
  mk (id n) (appointment_id n) (diagnosis n) v (notes n).

Definition set_notes (v : string) (n : t) : t :=
  mk (id n) (appointment_id n) (diagnosis n) (prescription n) v.
End TreatmentNote.

Module Department.
Record t : Type := mk {
  id : Z;
  name : string;
  description : string
}.
End Department.

(** The persistent store: one list of rows per table. *)
Record Store : Type := mkStore {
  users : list User.t;
  doctors : list Doctor.t;
  patients : list Patient.t;
  doctor_availability : list DoctorAvailability.t;
  appointments : list Appointment.t;
  treatment_notes : list TreatmentNote.t;
  departments : list Department.t
}.

Definition set_users (v : list User.t) (s : Store) : Store :=
  mkStore v (doctors s) (patients s) (doctor_availability s)
          (appointments s) (treatment_notes s) (departments s).

Definition set_doctors (v : list Doctor.t) (s : Store) : Store :=
  mkStore (users s) v (patients s) (doctor_availability s)
          (appointments s) (treatment_notes s) (departments s).

Definition set_patients (v : list Patient.t) (s : Store) : Store :=
  mkStore (users s) (doctors s) v (doctor_availability s)
          (appointments s) (treatment_notes s) (departments s).

Definition set_doctor_availability (v : list DoctorAvailability.t) (s : Store)
  : Store :=
  mkStore (users s) (doctors s) (patients s) v
          (appointments s) (treatment_notes s) (departments s).

Definition set_appointments (v : list Appointment.t) (s : Store) : Store :=
  mkStore (users s) (doctors s) (patients s) (doctor_availability s)
          v (treatment_notes s) (departments s).

Definition set_treatment_notes (v : list TreatmentNote.t) (s : Store) : Store :=
  mkStore (users s) (doctors s) (patients s) (doctor_availability s)
          (appointments s) v (departments s).

Definition set_departments (v : list Department.t) (s : Store) : Store :=
  mkStore (users s) (doctors s) (patients s) (doctor_availability s)
          (appointments s) (treatment_notes s) v.

Definition empty_store : Store := mkStore [] [] [] [] [] [] [].

(** *** Generic table operations *)

Section Table.
Context {Row : Type} (key : Row -> Z).

(** The id given to a row added to the table. *)
Definition next_id (rows : list Row) : Z :=
  1 + fold_right (fun r acc => Z.max (key r) acc) 0 rows.

(** [Model.query.get(pk)] *)
Definition get (pk : Z) (rows : list Row) : option Row :=
  find (fun r => key r =? pk) rows.

(** Attribute assignment on the loaded row with primary key [pk]. *)
Definition update (pk : Z) (f : Row -> Row) (rows : list Row) : list Row :=
  map (fun r => if key r =? pk then f r else r) rows.
End Table.

(** [Model.query.filter_by(...).first()] *)
Definition first {Row : Type} (p : Row -> bool) (rows : list Row) : option Row :=
  find p rows.

(** The names and descriptions [create_default_departments] returns. *)
Definition create_default_departments : list (string * string) :=
  [ ("Cardiology", "Heart and vascular care including diagnostics.");
    ("Orthopedics", "Bone, joint and muscle treatments.");
    ("Pediatrics", "Child and adolescent wellness.");
    ("Dermatology", "Skin conditions and cosmetic care.");
    ("General Medicine", "Primary and preventive care.") ].

(** [db.session.add_all] of departments: each row takes the next id. *)
Fixpoint add_all_departments (rows : list (string * string))
    (table : list Department.t) : list Department.t :=
  match rows with
  | [] => table
  | (name, description) :: rest =>
      add_all_departments rest
        (table ++ [Department.mk (next_id Department.id table) name description])
  end.

(** [init_db]: the database it leaves.  The default departments are
    committed when the table is empty.  The administrator account is then
    added unless a user with the admin role exists; when its email is
    already taken by another user the insert violates the unique
    constraint on [users.email], the exception leaves the users table as
    it was and start-up fails. *)
Definition init_db (s : Store) : Store :=
  let seeded :=
    match departments s with
    | [] => set_departments (add_all_departments create_default_departments []) s
    | _ :: _ => s
    end in
  match first (fun u => String.eqb (User.role u) (UserRole_value ADMIN))
              (users seeded) with
  | Some _ => seeded
  | None =>
      match first (fun u => String.eqb (User.email u) "admin@hms.local")
                  (users seeded) with
      | Some _ => seeded
      | None =>
          set_users
            (users seeded ++
               [ User.mk (next_id User.id (users seeded)) "Hospital Admin"
                   "admin@hms.local" "0000000000" (UserRole_value ADMIN) true ])
            seeded
      end
  end.

(** Whether the administrator insert of [init_db] raises: no user has
    the admin role, and the email of the account is taken. *)
Definition init_db_raises (s : Store) : bool :=
  match first (fun u => String.eqb (User.role u) (UserRole_value ADMIN))
              (users s) with
  | Some _ => false
  | None =>
      match first (fun u => String.eqb (User.email u) "admin@hms.local")
                  (users s) with
      | Some _ => true
      | None => false
      end
  end.

(* ================================================================= *)
(** ** app.py: requests, sessions and responses *)

(** What a view hands back to the dispatcher. *)
Inductive Response : Type :=
| Redirect (endpoint : string)      (* [redirect(url_for(endpoint))] *)
| HTTPError (code : Z).             (* [abort(code)], or 500 for an
                                       exception that escapes the view *)

(** A flashed message: [flash(message, category)]. *)
Definition Flash : Type := (string * string)%type.

(** The state a view runs in: the committed database, the session's
    pending view of it, and the messages flashed so far. *)
Record Ctx : Type := mkCtx {
  db : Store;
  session : Store;
  flashes : list Flash
}.

Inductive Step (A : Type) : Type :=
| Continue (a : A) (c : Ctx)
| Halt (code : Z) (c : Ctx).

Arguments Continue {A} a c.
Arguments Halt {A} code c.

Definition M (A : Type) : Type := Ctx -> Step A.

Definition ret {A : Type} (a : A) : M A := fun c => Continue a c.

Definition bind {A B : Type} (m : M A) (k : A -> M B) : M B :=
  fun c =>
    match m c with
    | Continue a c' => k a c'
    | Halt code c' => Halt code c'
    end.

Notation "x <- m ;; k" := (bind m (fun x => k))
  (at level 61, m at next level, right associativity).
Notation "m ;; k" := (bind m (fun _ => k))
  (at level 61, right associativity).

(** [abort(code)] *)
Definition abort {A : Type} (code : Z) : M A := fun c => Halt code c.

(** An exception that no handler catches: the request ends with a 500. *)
Definition raise {A : Type} (exn : string) : M A := fun c => Halt 500 c.

(** A query, answered from the session's pending state. *)
Definition query {A : Type} (q : Store -> A) : M A :=
  fun c => Continue (q (session c)) c.

(** A pending write ([db.session.add], or assignment to a loaded row). *)
Definition pending (f : Store -> Store) : M unit :=
  fun c => Continue tt (mkCtx (db c) (f (session c)) (flashes c)).

(** [db.session.commit()] *)
Definition commit : M unit :=
  fun c => Continue tt (mkCtx (session c) (session c) (flashes c)).

(** [flash(message, category)] *)
Definition flash (message category : string) : M unit :=
  fun c => Continue tt (mkCtx (db c) (session c) (flashes c ++ [(message, category)])).

(** [redirect(url_for(endpoint))] *)
Definition redirect (endpoint : string) : M Response := ret (Redirect endpoint).

(** The integers SQLite stores and its driver binds: signed 64-bit. *)
Definition sqlite_int (z : Z) : bool :=
  (-9223372036854775808 <=? z) && (z <? 9223372036854775808).

(** An integer taken from the request reaches the database, as the
    parameter of a query or as a column of a row being flushed: outside
    the range the driver raises [OverflowError], nothing is committed and
    the request ends with a 500.  No stored row holds such an integer, so
    a lookup with one finds nothing; the test is made where the lookup has
    come back empty. *)
Definition bind_int (z : Z) : M unit :=
  if sqlite_int z then ret tt else raise "OverflowError".

(** [Model.query.get_or_404(pk)] *)
Definition get_or_404 {Row : Type} (table : Store -> list Row) (key : Row -> Z)
    (pk : Z) : M Row :=
  r <- query (fun s => get key pk (table s)) ;;
  match r with
  | Some row => ret row
  | None => bind_int pk ;; abort 404
  end.

(** The status code for a key that no row has. *)
Definition not_found_code (pk : Z) : Z :=
  if sqlite_int pk then 404 else 500.

(** What one request leaves behind: the response, the flashed messages
    and the committed database (the session's uncommitted state is
    discarded). *)
Record Outcome : Type := mkOutcome {
  response : Response;
  flashed : list Flash;
  store : Store
}.

Definition handle (view : M Response) (s : Store) : Outcome :=
  match view (mkCtx s s []) with
  | Continue r c => mkOutcome r (flashes c) (db c)
  | Halt code c => mkOutcome (HTTPError code) (flashes c) (db c)
  end.

(** The spec's error kinds, as the responses that signal them. *)
Definition ForbiddenError (o : Outcome) : Prop := response o = HTTPError 403.
Definition NotFoundError (o : Outcome) : Prop := response o = HTTPError 404.

(** [ConflictError] of [book_appointment]. *)
Definition ConflictError_book (o : Outcome) : Prop :=
  response o = Redirect "book_appointment" /\
  flashed o = [("Slot already booked. Pick another time.", "danger")].

(** [ConflictError] of [reschedule_appointment]. *)
Definition ConflictError_reschedule (o : Outcome) : Prop :=
  response o = Redirect "patient_dashboard" /\
  flashed o = [("Selected slot is unavailable.", "danger")].

(** [OutOfWindowError] of [update_availability]. *)
Definition OutOfWindowError (o : Outcome) : Prop :=
  response o = Redirect "doctor_dashboard" /\
  flashed o = [("Select a date within the next 7 days.", "warning")].

(** A request that went through: a redirect with one success (or info)
    message. *)
Definition succeeded (endpoint message category : string) (o : Outcome) : Prop :=
  response o = Redirect endpoint /\ flashed o = [(message, category)].

(** *** Pending writes on each table *)

(** [request.form.get(key, default)] *)
Definition form_get {A : Type} (field : option A) (default : A) : A :=
  match field with
  | Some v => v
  | None => default
  end.

Definition assign_user (pk : Z) (f : User.t -> User.t) : M unit :=
  pending (fun s => set_users (update User.id pk f (users s)) s).

Definition assign_doctor (pk : Z) (f : Doctor.t -> Doctor.t) : M unit :=
  pending (fun s => set_doctors (update Doctor.id pk f (doctors s)) s).

Definition assign_patient (pk : Z) (f : Patient.t -> Patient.t) : M unit :=
  pending (fun s => set_patients (update Patient.id pk f (patients s)) s).

Definition assign_availability (pk : Z)
    (f : DoctorAvailability.t -> DoctorAvailability.t) : M unit :=
  pending (fun s =>
    set_doctor_availability
      (update DoctorAvailability.id pk f (doctor_availability s)) s).

Definition assign_appointment (pk : Z) (f : Appointment.t -> Appointment.t)
  : M unit :=
  pending (fun s =>
    set_appointments (update Appointment.id pk f (appointments s)) s).

Definition assign_note (pk : Z) (f : TreatmentNote.t -> TreatmentNote.t)
  : M unit :=
  pending (fun s =>
    set_treatment_notes (update TreatmentNote.id pk f (treatment_notes s)) s).

(** [db.session.add(row)]: the row is built from the id the table gives it. *)
Definition add_user (row : Z -> User.t) : M Z :=
  pk <- query (fun s => next_id User.id (users s)) ;;
  pending (fun s => set_users (users s ++ [row pk]) s) ;;
  ret pk.

Definition add_doctor (row : Z -> Doctor.t) : M unit :=
  pending (fun s =>
    set_doctors (doctors s ++ [row (next_id Doctor.id (doctors s))]) s).

Definition add_patient (row : Z -> Patient.t) : M unit :=
  pending (fun s =>
    set_patients (patients s ++ [row (next_id Patient.id (patients s))]) s).

Definition add_availability (row : Z -> DoctorAvailability.t) : M unit :=
  pending (fun s =>
    set_doctor_availability
      (doctor_availability s ++
         [row (next_id DoctorAvailability.id (doctor_availability s))]) s).

Definition add_appointment (row : Z -> Appointment.t) : M unit :=
  pending (fun s =>
    set_appointments
      (appointments s ++ [row (next_id Appointment.id (appointments s))]) s).

Definition add_note (row : Z -> TreatmentNote.t) : M unit :=
  pending (fun s =>
    set_treatment_notes
      (treatment_notes s ++ [row (next_id TreatmentNote.id (treatment_notes s))]) s).

(** *** Query predicates *)

(** [filter_by(doctor_id=.., appointment_date=.., appointment_time=..)] *)
Definition at_slot (doctor_id : Z) (d : date) (t : Time.t) (a : Appointment.t)
  : bool :=
  (Appointment.doctor_id a =? doctor_id)
  && (Appointment.appointment_date a =? d)
  && Time.eqb (Appointment.appointment_time a) t.

(** [filter_by(doctor_id=.., available_date=..)] *)
Definition on_day (doctor_id : Z) (d : date) (a : DoctorAvailability.t) : bool :=
  (DoctorAvailability.doctor_id a =? doctor_id)
  && (DoctorAvailability.available_date a =? d).

(** [filter_by(email=..)] *)
Definition has_email (email : string) (u : User.t) : bool :=
  String.eqb (User.email u) email.

(** [appointment.treatment_note]: the note attached to the appointment. *)
Definition treatment_note (appointment_id : Z) (s : Store)
  : option TreatmentNote.t :=
  first (fun n => TreatmentNote.appointment_id n =? appointment_id)
        (treatment_notes s).

(** [if status in AppointmentStatus.__members__:
        appointment.status = AppointmentStatus[status]]
    where [status = request.form.get("status")] may be [None]. *)
Definition apply_status (appointment_id : Z) (status : option string) : M unit :=
  match status with
  | Some name =>
      if in__members__ name then
        match AppointmentStatus_getitem name with
        | Some m => assign_appointment appointment_id (Appointment.set_status m)
        | None => raise "KeyError"
        end
      else ret tt
  | None => ret tt
  end.

(* ================================================================= *)
(** ** Python's [str.strip] and [str.lower]

    A string is a sequence of code points below 256. *)

Definition code_point (c : Ascii.ascii) : Z := Z.of_N (Ascii.N_of_ascii c).

(** [str.isspace] of one character: tab to carriage return, the four
    separators, the space, next-line and the no-break space. *)
Definition is_space (c : Ascii.ascii) : bool :=
  let n := code_point c in
  ((9 <=? n) && (n <=? 13)) || ((28 <=? n) && (n <=? 32))
  || (n =? 133) || (n =? 160).

Fixpoint lstrip (s : string) : string :=
  match s with
  | EmptyString => EmptyString
  | String c rest => if is_space c then lstrip rest else s
  end.

Fixpoint rstrip (s : string) : string :=
  match s with
  | EmptyString => EmptyString
  | String c rest =>
      match rstrip rest with
      | EmptyString => if is_space c then EmptyString else String c EmptyString
      | String c' rest' => String c (String c' rest')
      end
  end.

(** [s.strip()] *)
Definition strip (s : string) : string := rstrip (lstrip s).

(** The lower-case form of one character: the letters A to Z and the
    accented capitals (all of 192 to 222 but the multiplication sign) move
    up by 32. *)
Definition lower_char (c : Ascii.ascii) : Ascii.ascii :=
  let n := code_point c in
  if ((65 <=? n) && (n <=? 90))
     || ((192 <=? n) && (n <=? 222) && negb (n =? 215))
  then Ascii.ascii_of_N (Ascii.N_of_ascii c + 32)
  else c.

(** [s.lower()] *)
Fixpoint lower (s : string) : string :=
  match s with
  | EmptyString => EmptyString
  | String c rest => String (lower_char c) (lower rest)
  end.

(* ================================================================= *)
(** ** app.py: the views *)

(** [register] (POST) *)
Definition register (full_name email phone : string) : M Response :=
  let full_name := strip full_name in
  let email := lower (strip email) in
  taken <- query (fun s => first (has_email email) (users s)) ;;
  match taken with
  | Some _ =>
      flash "Email already registered." "warning" ;;
      redirect "register"
  | None =>
      uid <- add_user (fun pk =>
               User.mk pk full_name email phone (UserRole_value PATIENT) true) ;;
      add_patient (fun pk => Patient.mk pk uid None None None) ;;
      commit ;;
      flash "Registration successful. Please login." "success" ;;
      redirect "login"
  end.

(** [create_doctor] *)
Definition create_doctor (full_name email phone specialization : string)
    (department_id : Z) (room availability_summary : string) : M Response :=
  let full_name := strip full_name in
  let email := lower (strip email) in
  let specialization := strip specialization in
  taken <- query (fun s => first (has_email email) (users s)) ;;
  match taken with
  | Some _ =>
      flash "Doctor email already exists." "warning" ;;
      redirect "admin_dashboard"
  | None =>
      uid <- add_user (fun pk =>
               User.mk pk full_name email phone (UserRole_value DOCTOR) true) ;;
      add_doctor (fun pk =>
        Doctor.mk pk uid department_id specialization room
                  availability_summary true) ;;
      bind_int department_id ;;
      commit ;;
      flash "Doctor profile created." "success" ;;
      redirect "admin_dashboard"
  end.

(** [toggle_doctor] *)
Definition toggle_doctor (doctor_id : Z) : M Response :=
  doctor <- get_or_404 doctors Doctor.id doctor_id ;;
  let is_active := negb (Doctor.is_active doctor) in
  assign_doctor doctor_id (Doctor.set_is_active is_active) ;;
  user <- query (fun s => get User.id (Doctor.user_id doctor) (users s)) ;;
  match user with
  | None => raise "AttributeError"
  | Some u => assign_user (User.id u) (User.set_is_active is_active)
  end ;;
  commit ;;
  flash "Doctor status updated." "info" ;;
  redirect "admin_dashboard".

(** [profile.user]: the related user row; touching an attribute of a
    missing one raises [AttributeError]. *)
Definition related_user (user_id : Z) : M User.t :=
  user <- query (fun s => get User.id user_id (users s)) ;;
  match user with
  | Some u => ret u
  | None => raise "AttributeError"
  end.

(** A numeric form field: missing or empty, not a number, or a number. *)
Inductive IntField : Type :=
| Absent
| Unparsable
| Parsed (z : Z).

(** The field can be converted and, if a number, stored. *)
Definition storable (field : IntField) : bool :=
  match field with
  | Absent => true
  | Unparsable => false
  | Parsed z => sqlite_int z
  end.

(** [update_doctor] *)
Definition update_doctor (doctor_id : Z)
    (full_name phone specialization : option string) (department_value : IntField)
    (room availability_summary : option string) : M Response :=
  doctor <- get_or_404 doctors Doctor.id doctor_id ;;
  user <- related_user (Doctor.user_id doctor) ;;
  assign_user (User.id user)
    (User.set_full_name (form_get full_name (User.full_name user))) ;;
  assign_user (User.id user)
    (User.set_phone (form_get phone (User.phone user))) ;;
  assign_doctor doctor_id
    (Doctor.set_specialization
       (form_get specialization (Doctor.specialization doctor))) ;;
  match department_value with
  | Absent => ret tt
  | Unparsable => raise "ValueError"
  | Parsed z => assign_doctor doctor_id (Doctor.set_department_id z)
  end ;;
  assign_doctor doctor_id
    (Doctor.set_room (form_get room (Doctor.room doctor))) ;;
  assign_doctor doctor_id
    (Doctor.set_availability_summary
       (form_get availability_summary (Doctor.availability_summary doctor))) ;;
  match department_value with
  | Parsed z => bind_int z
  | _ => ret tt
  end ;;
  commit ;;
  flash "Doctor profile updated." "success" ;;
  redirect "admin_dashboard".

(** [form.get(key, row.column)] for a nullable text column. *)
Definition form_get_nullable (field : option string) (current : option string)
  : option string :=
  match field with
  | Some v => Some v
  | None => current
  end.

(** [admin_update_patient] *)
Definition admin_update_patient (patient_id : Z)
    (full_name phone address blood_group : option string) : M Response :=
  patient <- get_or_404 patients Patient.id patient_id ;;
  user <- related_user (Patient.user_id patient) ;;
  assign_user (User.id user)
    (User.set_full_name (form_get full_name (User.full_name user))) ;;
  assign_user (User.id user)
    (User.set_phone (form_get phone (User.phone user))) ;;
  assign_patient patient_id
    (Patient.set_address (form_get_nullable address (Patient.address patient))) ;;
  assign_patient patient_id
    (Patient.set_blood_group
       (form_get_nullable blood_group (Patient.blood_group patient))) ;;
  commit ;;
  flash "Patient information updated." "success" ;;
  redirect "admin_dashboard".

(** [toggle_patient] *)
Definition toggle_patient (patient_id : Z) : M Response :=
  patient <- get_or_404 patients Patient.id patient_id ;;
  user <- related_user (Patient.user_id patient) ;;
  assign_user (User.id user) (User.set_is_active (negb (User.is_active user))) ;;
  commit ;;
  flash "Patient status updated." "info" ;;
  redirect "admin_dashboard".

(** [admin_update_appointment] *)
Definition admin_update_appointment (appointment_id : Z) (status : option string)
  : M Response :=
  appointment <- get_or_404 appointments Appointment.id appointment_id ;;
  apply_status (Appointment.id appointment) status ;;
  commit ;;
  flash "Appointment status updated." "success" ;;
  redirect "admin_dashboard".

(** [update_appointment_status]; [current_doctor] is
    [current_user.doctor_profile.id]. *)
Definition update_appointment_status (current_doctor : Z) (appointment_id : Z)
    (status diagnosis prescription notes : option string) : M Response :=
  appointment <- get_or_404 appointments Appointment.id appointment_id ;;
  if negb (Appointment.doctor_id appointment =? current_doctor) then abort 403
  else
    let diagnosis := form_get diagnosis "" in
    let prescription := form_get prescription "" in
    let notes := form_get notes "" in
    apply_status (Appointment.id appointment) status ;;
    note <- query (treatment_note (Appointment.id appointment)) ;;
    match note with
    | Some n =>
        assign_note (TreatmentNote.id n) (TreatmentNote.set_diagnosis diagnosis) ;;
        assign_note (TreatmentNote.id n) (TreatmentNote.set_prescription prescription) ;;
        assign_note (TreatmentNote.id n) (TreatmentNote.set_notes notes)
    | None =>
        add_note (fun pk =>
          TreatmentNote.mk pk (Appointment.id appointment)
                           diagnosis prescription notes)
    end ;;
    commit ;;
    flash "Appointment updated." "success" ;;
    redirect "doctor_dashboard".

(** [update_availability]; [current_doctor] is
    [current_user.doctor_profile.id] and [today] is [date.today()]. *)
Definition update_availability (current_doctor : Z) (today : date)
    (available_date : date) (start_time end_time : Time.t) : M Response :=
  if negb ((today <=? available_date) && (available_date <=? today + 7)) then
    flash "Select a date within the next 7 days." "warning" ;;
    redirect "doctor_dashboard"
  else
    availability <-
      query (fun s => first (on_day current_doctor available_date)
                            (doctor_availability s)) ;;
    match availability with
    | Some a =>
        assign_availability (DoctorAvailability.id a)
          (DoctorAvailability.set_start_time start_time) ;;
        assign_availability (DoctorAvailability.id a)
          (DoctorAvailability.set_end_time end_time)
    | None =>
        add_availability (fun pk =>
          DoctorAvailability.mk pk current_doctor available_date
                                start_time end_time)
    end ;;
    commit ;;
    flash "Availability saved." "success" ;;
    redirect "doctor_dashboard".

(** [current_user.patient_profile], found by its id; without such a row
    the first attribute access raises [AttributeError]. *)
Definition patient_profile_of (current_patient : Z) : M Patient.t :=
  patient <- query (fun s => get Patient.id current_patient (patients s)) ;;
  match patient with
  | Some p => ret p
  | None => raise "AttributeError"
  end.

(** [patient_profile] (POST); [current_patient] is
    [current_user.patient_profile.id]. *)
Definition patient_profile (current_patient : Z)
    (full_name phone address blood_group emergency_contact : option string)
  : M Response :=
  patient <- patient_profile_of current_patient ;;
  user <- related_user (Patient.user_id patient) ;;
  assign_user (User.id user)
    (User.set_full_name (form_get full_name (User.full_name user))) ;;
  assign_user (User.id user)
    (User.set_phone (form_get phone (User.phone user))) ;;
  assign_patient current_patient
    (Patient.set_address (form_get_nullable address (Patient.address patient))) ;;
  assign_patient current_patient
    (Patient.set_blood_group
       (form_get_nullable blood_group (Patient.blood_group patient))) ;;
  assign_patient current_patient
    (Patient.set_emergency_contact
       (form_get_nullable emergency_contact (Patient.emergency_contact patient))) ;;
  commit ;;
  flash "Profile updated." "success" ;;
  redirect "patient_profile".

(** [book_appointment] (POST); [current_patient] is
    [current_user.patient_profile.id]. *)
Definition book_appointment (current_patient : Z) (doctor_id department_id : Z)
    (appointment_date : date) (appointment_time : Time.t) (reason : option string)
  : M Response :=
  let reason := form_get reason "" in
  existing <-
    query (fun s => first (at_slot doctor_id appointment_date appointment_time)
                          (appointments s)) ;;
  match existing with
  | Some _ =>
      flash "Slot already booked. Pick another time." "danger" ;;
      redirect "book_appointment"
  | None =>
      bind_int doctor_id ;;
      add_appointment (fun pk =>
        Appointment.mk pk current_patient doctor_id department_id
                       appointment_date appointment_time
                       Appointment.default_status reason) ;;
      bind_int department_id ;;
      commit ;;
      flash "Appointment booked successfully." "success" ;;
      redirect "patient_dashboard"
  end.

(** [cancel_appointment] *)
Definition cancel_appointment (current_patient : Z) (appointment_id : Z)
  : M Response :=
  appointment <- get_or_404 appointments Appointment.id appointment_id ;;
  if negb (Appointment.patient_id appointment =? current_patient) then abort 403
  else
    assign_appointment (Appointment.id appointment)
      (Appointment.set_status CANCELLED) ;;
    commit ;;
    flash "Appointment cancelled." "info" ;;
    redirect "patient_dashboard".

(** [reschedule_appointment] *)
Definition reschedule_appointment (current_patient : Z) (appointment_id : Z)
    (new_date : date) (new_time : Time.t) : M Response :=
  appointment <- get_or_404 appointments Appointment.id appointment_id ;;
  if negb (Appointment.patient_id appointment =? current_patient) then abort 403
  else
    conflict <-
      query (fun s =>
        first (at_slot (Appointment.doctor_id appointment) new_date new_time)
              (appointments s)) ;;
    let blocked :=
      match conflict with
      | Some c => negb (Appointment.id c =? Appointment.id appointment)
      | None => false
      end in
    if blocked then
      flash "Selected slot is unavailable." "danger" ;;
      redirect "patient_dashboard"
    else
      assign_appointment (Appointment.id appointment)
        (Appointment.set_appointment_date new_date) ;;
      assign_appointment (Appointment.id appointment)
        (Appointment.set_appointment_time new_time) ;;
      assign_appointment (Appointment.id appointment)
        (Appointment.set_status BOOKED) ;;
      commit ;;
      flash "Appointment rescheduled." "success" ;;
      redirect "patient_dashboard".

(* ================================================================= *)
(** ** The application as a transition system *)

(** The state-changing requests, with their parsed form fields and the
    identity (and, for availability, the date) the dispatcher supplies. *)
Inductive Request : Type :=
| Register (full_name email phone : string)
| CreateDoctor (full_name email phone specialization : string)
    (department_id : Z) (room availability_summary : string)
| ToggleDoctor (doctor_id : Z)
| UpdateDoctor (doctor_id : Z) (full_name phone specialization : option string)
    (department_value : IntField) (room availability_summary : option string)
| AdminUpdatePatient (patient_id : Z)
    (full_name phone address blood_group : option string)
| TogglePatient (patient_id : Z)
| AdminUpdateAppointment (appointment_id : Z) (status : option string)
| UpdateAppointmentStatus (current_doctor appointment_id : Z)
    (status diagnosis prescription notes : option string)
| UpdateAvailability (current_doctor : Z) (today available_date : date)
    (start_time end_time : Time.t)
| PatientProfile (current_patient : Z)
    (full_name phone address blood_group emergency_contact : option string)
| BookAppointment (current_patient doctor_id department_id : Z)
    (appointment_date : date) (appointment_time : Time.t) (reason : option string)
| CancelAppointment (current_patient appointment_id : Z)
| RescheduleAppointment (current_patient appointment_id : Z)
    (new_date : date) (new_time : Time.t).

Definition view_of (r : Request) : M Response :=
  match r with
  | Register n e p => register n e p
  | CreateDoctor n e p sp dep room av => create_doctor n e p sp dep room av
  | ToggleDoctor d => toggle_doctor d
  | UpdateDoctor d n p sp dep room av => update_doctor d n p sp dep room av
  | AdminUpdatePatient p n ph ad bg => admin_update_patient p n ph ad bg
  | TogglePatient p => toggle_patient p
  | AdminUpdateAppointment a st => admin_update_appointment a st
  | UpdateAppointmentStatus d a st dg pr nt =>
      update_appointment_status d a st dg pr nt
  | UpdateAvailability d today day st en => update_availability d today day st en
  | PatientProfile p n ph ad bg ec => patient_profile p n ph ad bg ec
  | BookAppointment p d dep day tm rs => book_appointment p d dep day tm rs
  | CancelAppointment p a => cancel_appointment p a
  | RescheduleAppointment p a day tm => reschedule_appointment p a day tm
  end.

(** The database after a request has been served. *)
Definition serve (s : Store) (r : Request) : Store :=
  store (handle (view_of r) s).

(** The databases the application can produce: it starts on empty tables,
    runs [init_db] at every start, and serves requests. *)
Inductive reachable : Store -> Prop :=
| reachable_empty : reachable empty_store
| reachable_init_db (s : Store) : reachable s -> reachable (init_db s)
| reachable_serve (s : Store) (r : Request) :
    reachable s -> reachable (serve s r).

(* ================================================================= *)
(** ** Vocabulary of the properties *)

(** An appointment occupies the slot (doctor, date, time). *)
Definition occupies (doctor_id : Z) (d : date) (t : Time.t) (a : Appointment.t)
  : Prop :=
  Appointment.doctor_id a = doctor_id /\
  Appointment.appointment_date a = d /\
  Appointment.appointment_time a = t.

(** The slot holds some appointment of the store, whatever its status. *)
Definition slot_taken (doctor_id : Z) (d : date) (t : Time.t) (s : Store) : Prop :=
  exists a, In a (appointments s) /\ occupies doctor_id d t a.

Definition slot_of (a : Appointment.t) : Z * date * Time.t :=
  (Appointment.doctor_id a, Appointment.appointment_date a,
   Appointment.appointment_time a).

(** [UniqueConstraint("doctor_id", "appointment_date", "appointment_time",
    name="uniq_doctor_slot")] *)
Definition uniq_doctor_slot (s : Store) : Prop :=
  NoDup (map slot_of (appointments s)).

Definition day_of (a : DoctorAvailability.t) : Z * date :=
  (DoctorAvailability.doctor_id a, DoctorAvailability.available_date a).

(** [UniqueConstraint("doctor_id", "available_date",
    name="uniq_doctor_date_availability")] *)
Definition uniq_doctor_date_availability (s : Store) : Prop :=
  NoDup (map day_of (doctor_availability s)).

(** The primary key of the availability table. *)
Definition availability_pk (s : Store) : Prop :=
  NoDup (map DoctorAvailability.id (doctor_availability s)).

(** The availability records of a doctor for a date. *)
Definition availability_on (doctor_id : Z) (d : date) (s : Store)
  : list DoctorAvailability.t :=
  filter (on_day doctor_id d) (doctor_availability s).

(** The window test of [update_availability]. *)
Definition in_window (today d : date) : Prop := today <= d <= today + 7.

(** One call of setAvailability: who calls, on which day, with what. *)
Record AvailabilityCall : Type := mkCall {
  call_doctor : Z;
  call_today : date;
  call_date : date;
  call_start : Time.t;
  call_end : Time.t
}.

Definition set_availability (s : Store) (c : AvailabilityCall) : Store :=
  serve s (UpdateAvailability (call_doctor c) (call_today c) (call_date c)
                              (call_start c) (call_end c)).

Definition set_availability_all (calls : list AvailabilityCall) (s : Store)
  : Store :=
  fold_left set_availability calls s.

(** The call is for the (doctor, date) pair and passes the window test. *)
Definition sets (doctor_id : Z) (d : date) (c : AvailabilityCall) : Prop :=
  call_doctor c = doctor_id /\ call_date c = d /\
  in_window (call_today c) (call_date c).

(** [status] names a member of the enumeration. *)
Definition recognized (status : option string) : bool :=
  match status with
  | Some name => in__members__ name
  | None => false
  end.

(** The status an appointment has after [apply_status]. *)
Definition status_after (status : option string) (old : AppointmentStatus)
  : AppointmentStatus :=
  match status with
  | Some name =>
      match AppointmentStatus_getitem name with
      | Some m => m
      | None => old
      end
  | None => old
  end.

(** The active flag of the doctor with a given id, and of the user linked
    to that doctor. *)
Definition doctor_active (doctor_id : Z) (s : Store) : option bool :=
  option_map Doctor.is_active (get Doctor.id doctor_id (doctors s)).

Definition linked_user_active (doctor_id : Z) (s : Store) : option bool :=
  match get Doctor.id doctor_id (doctors s) with
  | Some d => option_map User.is_active (get User.id (Doctor.user_id d) (users s))
  | None => None
  end.

(** The directory invariant of reachable databases: keys are unique, every
    doctor is linked to an existing user with the same active flag, no two
    doctors share a user, and no user is both a doctor and a patient. *)
Record directory_ok (s : Store) : Prop := mk_directory_ok {
  users_pk : NoDup (map User.id (users s));
  doctors_pk : NoDup (map Doctor.id (doctors s));
  doctors_user_unique : NoDup (map Doctor.user_id (doctors s));
  doctors_in_sync :
    forall d, In d (doctors s) ->
      exists u, In u (users s) /\ User.id u = Doctor.user_id d /\
                User.is_active u = Doctor.is_active d;
  patients_linked :
    forall p, In p (patients s) -> In (Patient.user_id p) (map User.id (users s));
  patients_not_doctors :
    forall p d, In p (patients s) -> In d (doctors s) ->
      Patient.user_id p <> Doctor.user_id d
}.

(** *** Tables after a write, and the schema's constraints *)

(** The row [reschedule_appointment] leaves for the appointment. *)
Definition rescheduled (new_date : date) (new_time : Time.t) (a : Appointment.t)
  : Appointment.t :=
  Appointment.mk (Appointment.id a) (Appointment.patient_id a)
    (Appointment.doctor_id a) (Appointment.department_id a)
    new_date new_time BOOKED (Appointment.reason a).

(** The availability table after an accepted call. *)
Definition upsert_availability (doc : Z) (d : date) (st en : Time.t)
    (rows : list DoctorAvailability.t) : list DoctorAvailability.t :=
  match first (on_day doc d) rows with
  | Some a =>
      update DoctorAvailability.id (DoctorAvailability.id a)
        (fun r => DoctorAvailability.mk (DoctorAvailability.id r)
                    (DoctorAvailability.doctor_id r)
                    (DoctorAvailability.available_date r) st en)
        rows
  | None =>
      rows ++ [DoctorAvailability.mk (next_id DoctorAvailability.id rows)
                                     doc d st en]
  end.

(** The two constraints of the availability table. *)
Definition availability_ok (s : Store) : Prop :=
  availability_pk s /\ uniq_doctor_date_availability s.

(** The appointments table after [apply_status]. *)
Definition status_rows (pk : Z) (status : option string)
    (rows : list Appointment.t) : list Appointment.t :=
  match status with
  | Some name =>
      match AppointmentStatus_getitem name with
      | Some m => update Appointment.id pk (Appointment.set_status m) rows
      | None => rows
      end
  | None => rows
  end.

(** The notes table after the note of appointment [pk] has been upserted. *)
Definition upsert_note (pk : Z) (diagnosis prescription notes : string)
    (rows : list TreatmentNote.t) : list TreatmentNote.t :=
  match first (fun n => TreatmentNote.appointment_id n =? pk) rows with
  | Some n =>
      update TreatmentNote.id (TreatmentNote.id n)
        (fun r => TreatmentNote.mk (TreatmentNote.id r)
                    (TreatmentNote.appointment_id r)
                    diagnosis prescription notes)
        rows
  | None =>
      rows ++ [TreatmentNote.mk (next_id TreatmentNote.id rows) pk
                                diagnosis prescription notes]
  end.

(** The primary keys and unique constraints of the two scheduling
    tables.  The views check before they write, so a commit never meets a
    violated constraint. *)
Record schema_ok (s : Store) : Prop := mk_schema_ok {
  appointments_pk : NoDup (map Appointment.id (appointments s));
  slots_unique : uniq_doctor_slot s;
  availability_key : availability_pk s;
  availability_unique : uniq_doctor_date_availability s
}.

(** *** A small database on which the properties are exercised *)

Definition t0900 : Time.t := Time.mk 9 0.
Definition t1000 : Time.t := Time.mk 10 0.
Definition t1100 : Time.t := Time.mk 11 0.
Definition t1200 : Time.t := Time.mk 12 0.
Definition t1300 : Time.t := Time.mk 13 0.
Definition t1700 : Time.t := Time.mk 17 0.

(** The day the sample requests are made. *)
Definition sample_today : date := 738000.

(** Two doctors are created and two patients register; the first patient
    books doctor 1 and the second books and then cancels; doctor 1
    declares availability and completes the first appointment with a
    note; the admin deactivates doctor 2. *)
Definition sample_requests : list Request :=
  [ CreateDoctor "Asha Rao" "asha@hms.local" "100" "Cardiology" 1 "R1" "Mon-Fri";
    CreateDoctor "Ben Ode" "ben@hms.local" "101" "Orthopedics" 2 "R2" "Tue-Thu";
    Register "Pat One" "one@mail.test" "200";
    Register "Pat Two" "two@mail.test" "201";
    BookAppointment 1 1 1 738003 t1000 (Some "checkup");
    BookAppointment 2 1 1 738004 t1100 None;
    CancelAppointment 2 2;
    UpdateAvailability 1 sample_today 738003 t0900 t1200;
    UpdateAppointmentStatus 1 1 (Some "COMPLETED") (Some "Flu") (Some "Rest") None;
    ToggleDoctor 2 ].

Definition sample_store : Store :=
  fold_left serve sample_requests (init_db empty_store).

(** The two appointments of the sample database. *)
Definition sample_completed : Appointment.t :=
  Appointment.mk 1 1 1 1 738003 t1000 COMPLETED "checkup".

Definition sample_cancelled : Appointment.t :=
  Appointment.mk 2 2 1 1 738004 t1100 CANCELLED "".

(** The scenario of the availability manager: two calls for tomorrow. *)
Definition sample_calls : list AvailabilityCall :=
  [ mkCall 1 sample_today 738001 t0900 t1200;
    mkCall 1 sample_today 738001 t1300 t1700 ].

(** A database no request sequence produces: the doctor is active while
    the linked user is not. *)
Definition out_of_sync_store : Store :=
  mkStore [User.mk 1 "Asha Rao" "asha@hms.local" "100" "doctor" false]
          [Doctor.mk 1 1 1 "Cardiology" "R1" "Mon-Fri" true]
          [] [] [] [] [].

(* ================================================================= *)
(** ** Vocabulary of the properties that span all requests *)

(** The databases of a running application: [init_db] runs on the empty
    tables before the first request is served, and again at every
    restart. *)
Inductive started : Store -> Prop :=
| started_first : started (init_db empty_store)
| started_restart (s : Store) : started s -> started (init_db s)
| started_serve (s : Store) (r : Request) : started s -> started (serve s r).

(** [unique=True] on [users.email]. *)
Definition uniq_email (s : Store) : Prop :=
  NoDup (map User.email (users s)).

(** Some user carries the administrator role. *)
Definition has_admin (s : Store) : Prop :=
  exists u, In u (users s) /\ User.role u = UserRole_value ADMIN.

(** The primary key of the notes table, and [unique=True] on
    [treatment_notes.appointment_id]. *)
Definition notes_pk (s : Store) : Prop :=
  NoDup (map TreatmentNote.id (treatment_notes s)).

Definition uniq_note_appointment (s : Store) : Prop :=
  NoDup (map TreatmentNote.appointment_id (treatment_notes s)).

(** [rows'] holds the rows of [rows], in the same order and each edited at
    most within [same], followed by rows that are new. *)
Definition evolves {Row : Type} (same : Row -> Row -> Prop)
    (rows rows' : list Row) : Prop :=
  exists (g : Row -> Row) (extra : list Row),
    rows' = map g rows ++ extra /\ forall r, same r (g r).

(** The columns of each table that no view assigns after the row is
    created. *)
Definition same_user (u u' : User.t) : Prop :=
  User.id u' = User.id u /\ User.email u' = User.email u /\
  User.role u' = User.role u.

Definition same_doctor (d d' : Doctor.t) : Prop :=
  Doctor.id d' = Doctor.id d /\ Doctor.user_id d' = Doctor.user_id d.

Definition same_patient (p p' : Patient.t) : Prop :=
  Patient.id p' = Patient.id p /\ Patient.user_id p' = Patient.user_id p.

Definition same_availability (a a' : DoctorAvailability.t) : Prop :=
  DoctorAvailability.id a' = DoctorAvailability.id a /\
  DoctorAvailability.doctor_id a' = DoctorAvailability.doctor_id a /\
  DoctorAvailability.available_date a' = DoctorAvailability.available_date a.

Definition same_appointment (a a' : Appointment.t) : Prop :=
  Appointment.id a' = Appointment.id a /\
  Appointment.patient_id a' = Appointment.patient_id a /\
  Appointment.doctor_id a' = Appointment.doctor_id a /\
  Appointment.department_id a' = Appointment.department_id a /\
  Appointment.reason a' = Appointment.reason a.

Definition same_note (n n' : TreatmentNote.t) : Prop :=
  TreatmentNote.id n' = TreatmentNote.id n /\
  TreatmentNote.appointment_id n' = TreatmentNote.appointment_id n.

(** The tables of the store. *)
Inductive Table : Type :=
| Users
| Doctors
| Patients
| Availability
| Appointments
| Notes.

(** The tables a request's view assigns to or adds to. *)
Definition footprint (r : Request) : list Table :=
  match r with
  | Register _ _ _ => [Users; Patients]
  | CreateDoctor _ _ _ _ _ _ _ => [Users; Doctors]
  | ToggleDoctor _ => [Users; Doctors]
  | UpdateDoctor _ _ _ _ _ _ _ => [Users; Doctors]
  | AdminUpdatePatient _ _ _ _ _ => [Users; Patients]
  | TogglePatient _ => [Users]
  | AdminUpdateAppointment _ _ => [Appointments]
  | UpdateAppointmentStatus _ _ _ _ _ _ => [Appointments; Notes]
  | UpdateAvailability _ _ _ _ _ => [Availability]
  | PatientProfile _ _ _ _ _ _ => [Users; Patients]
  | BookAppointment _ _ _ _ _ _ => [Appointments]
  | CancelAppointment _ _ => [Appointments]
  | RescheduleAppointment _ _ _ _ => [Appointments]
  end.

(* ================================================================= *)
(** ** app.py: the read-only views *)

From Stdlib Require Import Permutation Sorted.

(** [ORDER BY]: the rows sorted on a comparison.  Rows that compare equal
    keep the order the query produced them in; SQL leaves that order open
    and nothing below depends on it. *)
Fixpoint insert_by {Row : Type} (leb : Row -> Row -> bool) (x : Row)
    (rows : list Row) : list Row :=
  match rows with
  | [] => [x]
  | y :: rest => if leb x y then x :: y :: rest else y :: insert_by leb x rest
  end.

Fixpoint order_by {Row : Type} (leb : Row -> Row -> bool) (rows : list Row)
  : list Row :=
  match rows with
  | [] => []
  | x :: rest => insert_by leb x (order_by leb rest)
  end.

(** [column.asc()] and [column.desc()] *)
Definition asc {Row : Type} (column : Row -> Z) (a b : Row) : bool :=
  column a <=? column b.

Definition desc {Row : Type} (column : Row -> Z) (a b : Row) : bool :=
  column b <=? column a.

(** What a read-only view hands to its template, or the status code it
    aborts with. *)
Definition render {A : Type} (view : M A) (s : Store) : A + Z :=
  match view (mkCtx s s []) with
  | Continue a _ => inl a
  | Halt code _ => inr code
  end.

(** [filter_by(patient_id=.., doctor_id=..)] *)
Definition between_them (patient_id doctor_id : Z) (a : Appointment.t) : bool :=
  (Appointment.patient_id a =? patient_id)
  && (Appointment.doctor_id a =? doctor_id).

(** [doctor_patient_history]: the [patient] and [history] given to the
    template; [current_doctor] is [current_user.doctor_profile.id]. *)
Definition doctor_patient_history (current_doctor patient_id : Z)
  : M (Patient.t * list Appointment.t) :=
  patient <- get_or_404 patients Patient.id patient_id ;;
  count <- query (fun s =>
             List.length
               (filter (between_them (Patient.id patient) current_doctor)
                       (appointments s))) ;;
  let has_relationship := Nat.ltb 0 count in
  if negb has_relationship then abort 403
  else
    history <- query (fun s =>
                 order_by (desc Appointment.appointment_date)
                   (filter (between_them (Patient.id patient) current_doctor)
                           (appointments s))) ;;
    ret (patient, history).

(** [doctor_dashboard]: the [upcoming_appointments] and [patients] given
    to the template.  The roster query joins patients to appointments and
    keeps each patient once; its rows are listed here in table order. *)
Definition doctor_dashboard (current_doctor : Z) (today : date)
  : M (list Appointment.t * list Patient.t) :=
  let end_date := today + 7 in
  upcoming <- query (fun s =>
                order_by (asc Appointment.appointment_date)
                  (filter (fun a =>
                             (Appointment.doctor_id a =? current_doctor)
                             && (today <=? Appointment.appointment_date a)
                             && (Appointment.appointment_date a <=? end_date))
                          (appointments s))) ;;
  roster <- query (fun s =>
              filter (fun p =>
                        existsb (fun a =>
                                   (Appointment.patient_id a =? Patient.id p)
                                   && (Appointment.doctor_id a =? current_doctor))
                                (appointments s))
                     (patients s)) ;;
  ret (upcoming, roster).

(** The availability rows [patient_dashboard] lists: joined to a doctor
    and to the doctor's user, the doctor active, the date between today
    and today + 7. *)
Definition listed_availability (today : date) (s : Store)
    (v : DoctorAvailability.t) : bool :=
  match get Doctor.id (DoctorAvailability.doctor_id v) (doctors s) with
  | Some d =>
      match get User.id (Doctor.user_id d) (users s) with
      | Some _ =>
          Doctor.is_active d
          && (today <=? DoctorAvailability.available_date v)
          && (DoctorAvailability.available_date v <=? today + 7)
      | None => false
      end
  | None => false
  end.

(** [patient_dashboard]: the [upcoming_appointments], [past_appointments]
    and [doctor_availability] given to the template (the departments list
    is not returned); [current_patient] is
    [current_user.patient_profile.id] and [today] is [date.today()]. *)
Definition patient_dashboard (current_patient : Z) (today : date)
  : M (list Appointment.t * list Appointment.t * list DoctorAvailability.t) :=
  upcoming <- query (fun s =>
                order_by (asc Appointment.appointment_date)
                  (filter (fun a =>
                             (Appointment.patient_id a =? current_patient)
                             && (today <=? Appointment.appointment_date a))
                          (appointments s))) ;;
  history <- query (fun s =>
               order_by (desc Appointment.appointment_date)
                 (filter (fun a =>
                            (Appointment.patient_id a =? current_patient)
                            && (Appointment.appointment_date a <? today))
                         (appointments s))) ;;
  doctor_availability <-
    query (fun s =>
      order_by (asc DoctorAvailability.available_date)
        (filter (listed_availability today s) (doctor_availability s))) ;;
  ret (upcoming, history, doctor_availability).

(** [Doctor.query.join(User)]: the doctor rows that have a user row, each
    with that user. *)
Definition doctors_with_user (s : Store) : list (Doctor.t * User.t) :=
  flat_map (fun d =>
              match get User.id (Doctor.user_id d) (users s) with
              | Some u => [(d, u)]
              | None => []
              end)
           (doctors s).

(** [search_doctors]: the [doctors] given to the template.  [ilike] is the
    SQL operator, taken as given: [ilike value pattern]. *)
Definition search_doctors (ilike : string -> string -> bool)
    (specialization name : string) : M (list Doctor.t) :=
  query (fun s =>
    map fst
      (filter (fun du =>
                 Doctor.is_active (fst du)
                 && (if String.eqb specialization "" then true
                     else ilike (Doctor.specialization (fst du))
                                ("%" ++ specialization ++ "%")%string)
                 && (if String.eqb name "" then true
                     else ilike (User.full_name (snd du))
                                ("%" ++ name ++ "%")%string))
              (doctors_with_user s))).

(** The doctors offered on the booking form:
    [Doctor.query.filter_by(is_active=True).all()] of [book_appointment]. *)
Definition bookable_doctors (s : Store) : list Doctor.t :=
  filter Doctor.is_active (doctors s).

(** [login] (POST, by a visitor who is not logged in): the user that is
    logged in and sent to the dashboard, or [None] when the login page is
    shown again.  [check_password_hash uid password] stands for
    [check_password_hash(user.password_hash, password)] on the user with
    id [uid]: the hash is written when the user is created and by no view
    afterwards. *)
Definition login (check_password_hash : Z -> string -> bool)
    (email password : string) : M (option User.t) :=
  let email := lower (strip email) in
  user <- query (fun s => first (has_email email) (users s)) ;;
  match user with
  | Some u =>
      if User.is_active u && check_password_hash (User.id u) password then
        flash "Welcome back!" "success" ;;
        ret (Some u)
      else
        flash "Invalid credentials or inactive account." "danger" ;;
        ret None
  | None =>
      flash "Invalid credentials or inactive account." "danger" ;;
      ret None
  end.

(** The [role_required] decorator applied to a view; [current_user] is
    [None] for a visitor who is not logged in, and [unauthorized] is
    [login_manager.unauthorized()].  [current_user.is_authenticated] is
    the property of [UserMixin], which returns [self.is_active]: for a
    [User] that is the [is_active] column. *)
Definition role_required {A : Type} (unauthorized : M A)
    (roles : list UserRole) (current_user : option User.t) (view : M A) : M A :=
  match current_user with
  | None => unauthorized
  | Some u =>
      if negb (User.is_active u) then unauthorized
      else
        let allowed_roles := map UserRole_value roles in
        if negb (existsb (String.eqb (User.role u)) allowed_roles) then abort 403
        else view
  end.

(** The [@role_required(...)] decorator each view carries; [register] has
    none. *)
Definition required_roles (r : Request) : option (list UserRole) :=
  match r with
  | Register _ _ _ => None
  | CreateDoctor _ _ _ _ _ _ _ => Some [ADMIN]
  | ToggleDoctor _ => Some [ADMIN]
  | UpdateDoctor _ _ _ _ _ _ _ => Some [ADMIN]
  | AdminUpdatePatient _ _ _ _ _ => Some [ADMIN]
  | TogglePatient _ => Some [ADMIN]
  | AdminUpdateAppointment _ _ => Some [ADMIN]
  | UpdateAppointmentStatus _ _ _ _ _ _ => Some [DOCTOR]
  | UpdateAvailability _ _ _ _ _ => Some [DOCTOR]
  | PatientProfile _ _ _ _ _ _ => Some [PATIENT]
  | BookAppointment _ _ _ _ _ _ => Some [PATIENT]
  | CancelAppointment _ _ => Some [PATIENT]
  | RescheduleAppointment _ _ _ _ => Some [PATIENT]
  end.

(** A request as the decorated view receives it. *)
Definition guarded (unauthorized : M Response) (current_user : option User.t)
    (r : Request) : M Response :=
  match required_roles r with
  | Some roles => role_required unauthorized roles current_user (view_of r)
  | None => view_of r
  end.

(** An email as [register], [create_doctor] and [login] use it: trimmed
    and in lower case. *)
Definition normalised (e : string) : Prop := lower (strip e) = e.

(** The columns of a user that only the admin's views assign. *)
Definition same_account (u u' : User.t) : Prop :=
  same_user u u' /\ User.is_active u' = User.is_active u.

(* ================================================================= *)
(** ** Basic facts about tables and queries *)

Lemma Time_eqb_eq (a b : Time.t) : Time.eqb a b = true <-> a = b.
Proof.
  destruct a as [h m], b as [h' m']; unfold Time.eqb; simpl.
  rewrite andb_true_iff, !Z.eqb_eq.
  split; [intros [-> ->]; reflexivity | intros H; inversion H; auto].
Qed.

Lemma at_slot_occupies (doctor_id : Z) (d : date) (t : Time.t) (a : Appointment.t) :
  at_slot doctor_id d t a = true <-> occupies doctor_id d t a.
Proof.
  unfold at_slot, occupies.
  rewrite !andb_true_iff, !Z.eqb_eq, Time_eqb_eq. tauto.
Qed.

Lemma on_day_spec (doctor_id : Z) (d : date) (a : DoctorAvailability.t) :
  on_day doctor_id d a = true <-> day_of a = (doctor_id, d).
Proof.
  unfold on_day, day_of. rewrite andb_true_iff, !Z.eqb_eq.
  split; [intros [-> ->]; reflexivity | intros H; inversion H; auto].
Qed.

Section TableFacts.
Context {Row : Type} (key : Row -> Z).

Lemma get_Some (pk : Z) (rows : list Row) (r : Row) :
  get key pk rows = Some r -> In r rows /\ key r = pk.
Proof.
  unfold get. intros H. apply find_some in H.
  rewrite Z.eqb_eq in H. exact H.
Qed.

Lemma get_None (pk : Z) (rows : list Row) :
  get key pk rows = None -> ~ In pk (map key rows).
Proof.
  unfold get. intros H Hin. apply in_map_iff in Hin as (r & Hk & Hr).
  pose proof (find_none _ _ H r Hr) as Hf. simpl in Hf.
  apply Z.eqb_neq in Hf. contradiction.
Qed.

Lemma get_In (rows : list Row) (r : Row) :
  NoDup (map key rows) -> In r rows -> get key (key r) rows = Some r.
Proof.
  unfold get. induction rows as [|x rows IH]; simpl; intros Hnd Hin; [contradiction|].
  inversion Hnd as [|? ? Hx Hnd']; subst.
  destruct Hin as [-> | Hin].
  - rewrite Z.eqb_refl. reflexivity.
  - destruct (Z.eqb_spec (key x) (key r)) as [E | _].
    + exfalso. apply Hx. rewrite E. apply in_map. exact Hin.
    + apply IH; assumption.
Qed.

Lemma update_keys (pk : Z) (f : Row -> Row) (rows : list Row) :
  (forall r, key (f r) = key r) ->
  map key (update key pk f rows) = map key rows.
Proof.
  intros Hf. unfold update. rewrite map_map. apply map_ext.
  intros r. destruct (key r =? pk); auto.
Qed.

Lemma update_length (pk : Z) (f : Row -> Row) (rows : list Row) :
  List.length (update key pk f rows) = List.length rows.
Proof. unfold update. apply length_map. Qed.

Lemma get_update_same (pk : Z) (f : Row -> Row) (rows : list Row) (r : Row) :
  (forall x, key (f x) = key x) ->
  get key pk rows = Some r ->
  get key pk (update key pk f rows) = Some (f r).
Proof.
  intros Hf. unfold get, update.
  induction rows as [|x rows IH]; simpl; [discriminate|].
  destruct (Z.eqb_spec (key x) pk) as [E | N]; simpl.
  - intros [= ->]. rewrite Hf, E, Z.eqb_refl. reflexivity.
  - intros H. apply Z.eqb_neq in N. rewrite N. auto.
Qed.

Lemma get_update_other (pk pk' : Z) (f : Row -> Row) (rows : list Row) :
  (forall x, key (f x) = key x) ->
  pk' <> pk ->
  get key pk' (update key pk f rows) = get key pk' rows.
Proof.
  intros Hf Hne. unfold get, update.
  induction rows as [|x rows IH]; simpl; [reflexivity|].
  destruct (Z.eqb_spec (key x) pk) as [E | N].
  - rewrite Hf, E.
    destruct (Z.eqb_spec pk pk') as [E' | _]; [congruence | exact IH].
  - destruct (key x =? pk'); [reflexivity | exact IH].
Qed.

Lemma update_miss (pk : Z) (f : Row -> Row) (rows : list Row) :
  ~ In pk (map key rows) -> update key pk f rows = rows.
Proof.
  unfold update. induction rows as [|x rows IH]; simpl; intros H; [reflexivity|].
  destruct (Z.eqb_spec (key x) pk) as [E | _]; [tauto|].
  f_equal. apply IH. tauto.
Qed.

Lemma update_update (pk : Z) (f g : Row -> Row) (rows : list Row) :
  (forall x, key (f x) = key x) ->
  update key pk g (update key pk f rows)
  = update key pk (fun r => g (f r)) rows.
Proof.
  intros Hf. unfold update. rewrite map_map. apply map_ext.
  intros r. destruct (Z.eqb_spec (key r) pk) as [E | N].
  - rewrite Hf, E, Z.eqb_refl. reflexivity.
  - apply Z.eqb_neq in N. rewrite N. reflexivity.
Qed.

Lemma In_update (pk : Z) (f : Row -> Row) (rows : list Row) (x : Row) :
  In x (update key pk f rows) <->
  exists r, In r rows /\ x = (if key r =? pk then f r else r).
Proof.
  unfold update. rewrite in_map_iff.
  split; intros (r & H1 & H2); exists r; auto.
Qed.

Lemma next_id_above (rows : list Row) (r : Row) :
  In r rows -> key r < next_id key rows.
Proof.
  unfold next_id. induction rows as [|x rows IH]; [contradiction|].
  cbn [fold_right In].
  intros [-> | Hin]; [lia | specialize (IH Hin); lia].
Qed.

Lemma next_id_fresh (rows : list Row) :
  ~ In (next_id key rows) (map key rows).
Proof.
  intros Hin. apply in_map_iff in Hin as (r & Hk & Hr).
  apply next_id_above in Hr. lia.
Qed.
End TableFacts.

Lemma first_Some {Row : Type} (p : Row -> bool) (rows : list Row) (r : Row) :
  first p rows = Some r -> In r rows /\ p r = true.
Proof. apply find_some. Qed.

Lemma first_None {Row : Type} (p : Row -> bool) (rows : list Row) :
  first p rows = None -> forall r, In r rows -> p r = false.
Proof. apply find_none. Qed.

(* ================================================================= *)
(** ** Booking *)

(** Unfolds the session monad so that a view applied to a store computes. *)
Ltac run_view :=
  cbv [handle bind ret query pending commit flash redirect abort raise
       get_or_404 bind_int related_user patient_profile_of
       assign_user assign_doctor assign_patient assign_availability
       assign_appointment assign_note
       add_user add_doctor add_patient add_availability add_appointment add_note
       db session flashes response flashed store].

Lemma book_appointment_conflict (s : Store) (p doc dep : Z) (d : date) (t : Time.t)
    (reason : option string) (a : Appointment.t) :
  first (at_slot doc d t) (appointments s) = Some a ->
  handle (book_appointment p doc dep d t reason) s
  = mkOutcome (Redirect "book_appointment")
              [("Slot already booked. Pick another time.", "danger")] s.
Proof.
  intros H. unfold book_appointment. run_view. rewrite H. reflexivity.
Qed.

Lemma book_appointment_overflow (s : Store) (p doc dep : Z) (d : date)
    (t : Time.t) (reason : option string) :
  first (at_slot doc d t) (appointments s) = None ->
  sqlite_int doc && sqlite_int dep = false ->
  handle (book_appointment p doc dep d t reason) s
  = mkOutcome (HTTPError 500) [] s.
Proof.
  intros H Hrange. unfold book_appointment. run_view. rewrite H.
  destruct (sqlite_int doc); simpl in *; [|reflexivity].
  rewrite Hrange. reflexivity.
Qed.

Lemma book_appointment_free (s : Store) (p doc dep : Z) (d : date) (t : Time.t)
    (reason : option string) :
  first (at_slot doc d t) (appointments s) = None ->
  sqlite_int doc = true ->
  sqlite_int dep = true ->
  handle (book_appointment p doc dep d t reason) s
  = mkOutcome (Redirect "patient_dashboard")
      [("Appointment booked successfully.", "success")]
      (set_appointments
         (appointments s ++
            [Appointment.mk (next_id Appointment.id (appointments s)) p doc dep
                            d t BOOKED (form_get reason "")]) s).
Proof.
  intros H Hdoc Hdep. unfold book_appointment. run_view. rewrite H, Hdoc.
  simpl. rewrite Hdep. reflexivity.
Qed.

Lemma slot_taken_first (s : Store) (doc : Z) (d : date) (t : Time.t) :
  slot_taken doc d t s <->
  exists a, first (at_slot doc d t) (appointments s) = Some a.
Proof.
  unfold slot_taken. split.
  - intros (a & Hin & Hocc). apply at_slot_occupies in Hocc.
    destruct (first (at_slot doc d t) (appointments s)) as [b|] eqn:E.
    + exists b. reflexivity.
    + rewrite (first_None _ _ E a Hin) in Hocc. discriminate.
  - intros (a & E). apply first_Some in E as [Hin Hocc].
    exists a. split; [assumption | apply at_slot_occupies; assumption].
Qed.

Lemma slot_free_first (s : Store) (doc : Z) (d : date) (t : Time.t) :
  ~ slot_taken doc d t s ->
  first (at_slot doc d t) (appointments s) = None.
Proof.
  intros H. destruct (first (at_slot doc d t) (appointments s)) as [a|] eqn:E;
    [|reflexivity].
  exfalso. apply H. apply slot_taken_first. exists a. exact E.
Qed.

(** C1, as amended.  A booking request for a slot (doctor, date, time)
    that some appointment of the store already occupies -- whatever that
    appointment's status, Cancelled included -- is answered with the
    conflict response and leaves the whole store as it was; a request for
    a free slot whose doctor id and department id are integers SQLite can
    hold commits exactly one new appointment, for the requesting patient
    and the requested slot, with status Booked; a request for a free slot
    with a doctor id or a department id outside that range ends with a
    500 and stores nothing. *)
Theorem C1_book_conflict_or_created
    (s : Store) (p doc dep : Z) (d : date) (t : Time.t) (reason : option string) :
  (slot_taken doc d t s ->
     ConflictError_book (handle (book_appointment p doc dep d t reason) s) /\
     store (handle (book_appointment p doc dep d t reason) s) = s)
  /\
  (~ slot_taken doc d t s ->
   sqlite_int doc = true ->
   sqlite_int dep = true ->
     succeeded "patient_dashboard" "Appointment booked successfully." "success"
               (handle (book_appointment p doc dep d t reason) s) /\
     exists new,
       store (handle (book_appointment p doc dep d t reason) s)
       = set_appointments (appointments s ++ [new]) s /\
       Appointment.status new = BOOKED /\
       Appointment.patient_id new = p /\
       occupies doc d t new /\
       Appointment.department_id new = dep /\
       Appointment.reason new = form_get reason "" /\
       ~ In (Appointment.id new) (map Appointment.id (appointments s)))
  /\
  (~ slot_taken doc d t s ->
   sqlite_int doc && sqlite_int dep = false ->
     handle (book_appointment p doc dep d t reason) s
     = mkOutcome (HTTPError 500) [] s).
Proof.
  split; [|split].
  - intros Htaken. apply slot_taken_first in Htaken as (a & E).
    rewrite (book_appointment_conflict _ _ _ _ _ _ _ _ E).
    unfold ConflictError_book; simpl. auto.
  - intros Hfree Hdoc Hdep. apply slot_free_first in Hfree.
    rewrite (book_appointment_free _ _ _ _ _ _ _ Hfree Hdoc Hdep).
    unfold succeeded; simpl. split; [auto|].
    eexists. split; [reflexivity|]. simpl.
    repeat split. apply next_id_fresh.
  - intros Hfree Hrange. apply slot_free_first in Hfree.
    apply book_appointment_overflow; assumption.
Qed.

(** C10, as amended.  Booking looks at the appointments table only.
    Whatever the doctors and availability tables hold -- no doctor row for
    the id, a deactivated doctor, no availability row covering the day --
    a request for a slot that no appointment occupies, with a doctor id
    and a department id that are integers SQLite can hold, succeeds and
    commits the new Booked appointment, and leaves those two tables as
    they were. *)
Theorem C10_book_ignores_availability_and_active_flag
    (s : Store) (p doc dep : Z) (d : date) (t : Time.t) (reason : option string)
    (any_doctors : list Doctor.t) (any_availability : list DoctorAvailability.t) :
  ~ slot_taken doc d t s ->
  sqlite_int doc = true ->
  sqlite_int dep = true ->
  let s' := set_doctors any_doctors (set_doctor_availability any_availability s) in
  let o := handle (book_appointment p doc dep d t reason) s' in
  succeeded "patient_dashboard" "Appointment booked successfully." "success" o /\
  appointments (store o)
  = appointments s ++
      [Appointment.mk (next_id Appointment.id (appointments s)) p doc dep d t
                      BOOKED (form_get reason "")] /\
  doctors (store o) = any_doctors /\
  doctor_availability (store o) = any_availability.
Proof.
  intros Hfree Hdoc Hdep s' o.
  assert (Hfree' : first (at_slot doc d t) (appointments s') = None)
    by (apply slot_free_first in Hfree; exact Hfree).
  subst o. rewrite (book_appointment_free _ _ _ _ _ _ _ Hfree' Hdoc Hdep).
  unfold succeeded; simpl. auto.
Qed.

(* ================================================================= *)
(** ** Cancellation *)

Lemma get_key {Row : Type} (key : Row -> Z) (pk : Z) (rows : list Row) (r : Row) :
  get key pk rows = Some r -> key r = pk.
Proof. intros H. apply (get_Some key) in H. tauto. Qed.

Lemma cancel_appointment_forbidden (s : Store) (p pk : Z) (a : Appointment.t) :
  get Appointment.id pk (appointments s) = Some a ->
  Appointment.patient_id a <> p ->
  handle (cancel_appointment p pk) s = mkOutcome (HTTPError 403) [] s.
Proof.
  intros Hget Hne. unfold cancel_appointment. run_view. rewrite Hget.
  apply Z.eqb_neq in Hne. rewrite Hne. reflexivity.
Qed.

Lemma cancel_appointment_owner (s : Store) (p pk : Z) (a : Appointment.t) :
  get Appointment.id pk (appointments s) = Some a ->
  Appointment.patient_id a = p ->
  handle (cancel_appointment p pk) s
  = mkOutcome (Redirect "patient_dashboard") [("Appointment cancelled.", "info")]
      (set_appointments
         (update Appointment.id pk (Appointment.set_status CANCELLED)
                 (appointments s)) s).
Proof.
  intros Hget Hown. unfold cancel_appointment. run_view. rewrite Hget.
  apply Z.eqb_eq in Hown. rewrite Hown. simpl.
  rewrite (get_key _ _ _ _ Hget). reflexivity.
Qed.

(** C6. For an appointment A and a requesting patient P, cancel answers
    403 exactly when A's patient is not P (and then changes nothing).
    When P owns A the request succeeds and A's status becomes Cancelled
    whatever it was, no other column or table changing; cancelling again
    gives the same response and the same store. *)
Theorem C6_cancel_owner_only_idempotent
    (s : Store) (p pk : Z) (a : Appointment.t) :
  get Appointment.id pk (appointments s) = Some a ->
  let o := handle (cancel_appointment p pk) s in
  (ForbiddenError o <-> Appointment.patient_id a <> p) /\
  (Appointment.patient_id a <> p -> store o = s) /\
  (Appointment.patient_id a = p ->
     succeeded "patient_dashboard" "Appointment cancelled." "info" o /\
     get Appointment.id pk (appointments (store o))
     = Some (Appointment.set_status CANCELLED a) /\
     store o
     = set_appointments
         (update Appointment.id pk (Appointment.set_status CANCELLED)
                 (appointments s)) s /\
     handle (cancel_appointment p pk) (store o) = o).
Proof.
  intros Hget o. subst o.
  destruct (Z.eq_dec (Appointment.patient_id a) p) as [Hown | Hne].
  - rewrite (cancel_appointment_owner _ _ _ _ Hget Hown).
    assert (Hget' :
      get Appointment.id pk
        (update Appointment.id pk (Appointment.set_status CANCELLED)
                (appointments s))
      = Some (Appointment.set_status CANCELLED a))
      by (apply get_update_same; [reflexivity | exact Hget]).
    split; [|split]; [ | tauto | ].
    + unfold ForbiddenError; simpl. split; [discriminate | tauto].
    + intros _. unfold succeeded; simpl.
      repeat split; [exact Hget'|].
      rewrite (cancel_appointment_owner _ _ _ (Appointment.set_status CANCELLED a));
        [| exact Hget' | exact Hown].
      simpl. rewrite update_update by reflexivity. reflexivity.
  - rewrite (cancel_appointment_forbidden _ _ _ _ Hget Hne).
    unfold ForbiddenError; simpl. tauto.
Qed.

(* ================================================================= *)
(** ** Rescheduling *)

Lemma NoDup_map_eq {A B : Type} (f : A -> B) (l : list A) (x y : A) :
  NoDup (map f l) -> In x l -> In y l -> f x = f y -> x = y.
Proof.
  induction l as [|z l IH]; simpl; intros Hnd Hx Hy E; [contradiction|].
  inversion Hnd as [|? ? Hz Hnd']; subst.
  destruct Hx as [-> | Hx], Hy as [-> | Hy]; auto.
  - exfalso. apply Hz. rewrite E. apply in_map. exact Hy.
  - exfalso. apply Hz. rewrite <- E. apply in_map. exact Hx.
Qed.

Lemma occupies_slot_of (doc : Z) (d : date) (t : Time.t) (a : Appointment.t) :
  occupies doc d t a <-> slot_of a = (doc, d, t).
Proof.
  unfold occupies, slot_of.
  split; [intros (-> & -> & ->); reflexivity | intros H; inversion H; auto].
Qed.

Lemma reschedule_appointment_forbidden (s : Store) (p pk : Z) (nd : date)
    (nt : Time.t) (a : Appointment.t) :
  get Appointment.id pk (appointments s) = Some a ->
  Appointment.patient_id a <> p ->
  handle (reschedule_appointment p pk nd nt) s = mkOutcome (HTTPError 403) [] s.
Proof.
  intros Hget Hne. unfold reschedule_appointment. run_view. rewrite Hget.
  apply Z.eqb_neq in Hne. rewrite Hne. reflexivity.
Qed.

Lemma reschedule_appointment_blocked (s : Store) (p pk : Z) (nd : date)
    (nt : Time.t) (a c : Appointment.t) :
  get Appointment.id pk (appointments s) = Some a ->
  Appointment.patient_id a = p ->
  first (at_slot (Appointment.doctor_id a) nd nt) (appointments s) = Some c ->
  Appointment.id c <> Appointment.id a ->
  handle (reschedule_appointment p pk nd nt) s
  = mkOutcome (Redirect "patient_dashboard")
              [("Selected slot is unavailable.", "danger")] s.
Proof.
  intros Hget Hown Hfirst Hne. unfold reschedule_appointment. run_view.
  rewrite Hget. apply Z.eqb_eq in Hown. rewrite Hown. simpl.
  rewrite Hfirst. apply Z.eqb_neq in Hne. rewrite Hne. reflexivity.
Qed.

Lemma reschedule_appointment_moved (s : Store) (p pk : Z) (nd : date)
    (nt : Time.t) (a : Appointment.t) :
  get Appointment.id pk (appointments s) = Some a ->
  Appointment.patient_id a = p ->
  (forall c, first (at_slot (Appointment.doctor_id a) nd nt) (appointments s)
             = Some c -> Appointment.id c = Appointment.id a) ->
  handle (reschedule_appointment p pk nd nt) s
  = mkOutcome (Redirect "patient_dashboard")
      [("Appointment rescheduled.", "success")]
      (set_appointments
         (update Appointment.id pk (rescheduled nd nt) (appointments s)) s).
Proof.
  intros Hget Hown Hfirst. unfold reschedule_appointment. run_view.
  rewrite Hget. apply Z.eqb_eq in Hown. rewrite Hown. simpl.
  rewrite (get_key _ _ _ _ Hget).
  assert (Hfree :
    match first (at_slot (Appointment.doctor_id a) nd nt) (appointments s) with
    | Some c => negb (Appointment.id c =? pk)
    | None => false
    end = false).
  { destruct (first _ (appointments s)) as [c|]; [|reflexivity].
    rewrite (Hfirst c eq_refl), (get_key _ _ _ _ Hget), Z.eqb_refl. reflexivity. }
  rewrite Hfree. simpl.
  rewrite !update_update by reflexivity. reflexivity.
Qed.

(** C5. When the requesting patient owns the appointment and no other
    appointment occupies the doctor's slot at the new date and time, the
    reschedule succeeds: the appointment keeps its id, patient, doctor,
    department and reason, takes the new date and time, and its status
    becomes Booked whatever it was (a Cancelled appointment is
    reactivated); every other appointment and every other table is
    untouched. *)
Theorem C5_reschedule_moves_and_rebooks
    (s : Store) (p pk : Z) (nd : date) (nt : Time.t) (a : Appointment.t) :
  get Appointment.id pk (appointments s) = Some a ->
  Appointment.patient_id a = p ->
  (forall b, In b (appointments s) ->
             occupies (Appointment.doctor_id a) nd nt b ->
             Appointment.id b = Appointment.id a) ->
  let o := handle (reschedule_appointment p pk nd nt) s in
  succeeded "patient_dashboard" "Appointment rescheduled." "success" o /\
  get Appointment.id pk (appointments (store o)) = Some (rescheduled nd nt a) /\
  Appointment.appointment_date (rescheduled nd nt a) = nd /\
  Appointment.appointment_time (rescheduled nd nt a) = nt /\
  Appointment.status (rescheduled nd nt a) = BOOKED /\
  (forall pk', pk' <> pk ->
     get Appointment.id pk' (appointments (store o))
     = get Appointment.id pk' (appointments s)) /\
  store o = set_appointments (appointments (store o)) s.
Proof.
  intros Hget Hown Hfree o. subst o.
  rewrite (reschedule_appointment_moved _ _ _ _ _ _ Hget Hown).
  - unfold succeeded; simpl. repeat split.
    + apply get_update_same; [reflexivity | exact Hget].
    + intros pk' Hne. apply get_update_other; [reflexivity | exact Hne].
  - intros c Hc. apply first_Some in Hc as [Hin Hocc].
    apply Hfree; [exact Hin | apply at_slot_occupies; exact Hocc].
Qed.

(** C4. On a store that satisfies the slot uniqueness constraint, a
    reschedule requested by the owner of the appointment is answered with
    the conflict response exactly when an appointment with a different id
    occupies the same doctor's slot at the new date and time, and a
    conflict changes nothing; in particular, rescheduling an appointment
    to the date and time it already has succeeds. *)
Theorem C4_reschedule_conflict_iff_other_appointment
    (s : Store) (p pk : Z) (nd : date) (nt : Time.t) (a : Appointment.t) :
  uniq_doctor_slot s ->
  get Appointment.id pk (appointments s) = Some a ->
  Appointment.patient_id a = p ->
  let o := handle (reschedule_appointment p pk nd nt) s in
  (ConflictError_reschedule o <->
     exists b, In b (appointments s) /\
               Appointment.id b <> Appointment.id a /\
               occupies (Appointment.doctor_id a) nd nt b) /\
  (ConflictError_reschedule o -> store o = s) /\
  (nd = Appointment.appointment_date a ->
   nt = Appointment.appointment_time a ->
   succeeded "patient_dashboard" "Appointment rescheduled." "success" o).
Proof.
  intros Huniq Hget Hown o. subst o.
  assert (Hsame :
    forall b c, In b (appointments s) ->
                occupies (Appointment.doctor_id a) nd nt b ->
                first (at_slot (Appointment.doctor_id a) nd nt) (appointments s)
                = Some c ->
                c = b).
  { intros b c Hin Hocc E.
    pose proof (first_Some _ _ _ E) as [Hc Hcocc].
    apply at_slot_occupies, occupies_slot_of in Hcocc.
    apply occupies_slot_of in Hocc.
    apply (NoDup_map_eq slot_of (appointments s)); [exact Huniq | | | ]; congruence. }
  destruct (first (at_slot (Appointment.doctor_id a) nd nt) (appointments s))
    as [c|] eqn:E.
  - pose proof (first_Some _ _ _ E) as [Hc Hcocc].
    apply at_slot_occupies in Hcocc.
    destruct (Z.eq_dec (Appointment.id c) (Appointment.id a)) as [Hself | Hother].
    + rewrite (reschedule_appointment_moved _ _ _ _ _ _ Hget Hown)
        by (intros c' Hc'; congruence).
      unfold ConflictError_reschedule, succeeded; simpl.
      split; [split|split].
      * intros [_ Hflash]. discriminate Hflash.
      * intros (b & Hin & Hne & Hocc).
        rewrite (Hsame b c Hin Hocc eq_refl) in Hself. contradiction.
      * intros [_ Hflash]. discriminate Hflash.
      * auto.
    + rewrite (reschedule_appointment_blocked _ _ _ _ _ _ c Hget Hown E Hother).
      unfold ConflictError_reschedule, succeeded; simpl.
      split; [split|split].
      * intros _. exists c. auto.
      * auto.
      * reflexivity.
      * intros -> ->. exfalso. apply Hother.
        apply (get_Some Appointment.id) in Hget as [Ha _].
        assert (Hocc_a : occupies (Appointment.doctor_id a)
                           (Appointment.appointment_date a)
                           (Appointment.appointment_time a) a)
          by (unfold occupies; auto).
        rewrite (Hsame a c Ha Hocc_a eq_refl). reflexivity.
  - rewrite (reschedule_appointment_moved _ _ _ _ _ _ Hget Hown)
      by (intros c' Hc'; congruence).
    unfold ConflictError_reschedule, succeeded; simpl.
    split; [split|split].
    + intros [_ Hflash]. discriminate Hflash.
    + intros (b & Hin & Hne & Hocc). apply at_slot_occupies in Hocc.
      rewrite (first_None _ _ E b Hin) in Hocc. discriminate.
    + intros [_ Hflash]. discriminate Hflash.
    + auto.
Qed.

(* ================================================================= *)
(** ** Availability *)

Lemma in_window_test (today d : date) :
  (today <=? d) && (d <=? today + 7) = true <-> in_window today d.
Proof. unfold in_window. rewrite andb_true_iff, !Z.leb_le. tauto. Qed.

Lemma update_availability_out_of_window (s : Store) (doc : Z) (today d : date)
    (st en : Time.t) :
  ~ in_window today d ->
  handle (update_availability doc today d st en) s
  = mkOutcome (Redirect "doctor_dashboard")
              [("Select a date within the next 7 days.", "warning")] s.
Proof.
  intros Hout. unfold update_availability.
  destruct ((today <=? d) && (d <=? today + 7)) eqn:E.
  - apply in_window_test in E. contradiction.
  - reflexivity.
Qed.

Lemma update_availability_in_window (s : Store) (doc : Z) (today d : date)
    (st en : Time.t) :
  in_window today d ->
  handle (update_availability doc today d st en) s
  = mkOutcome (Redirect "doctor_dashboard") [("Availability saved.", "success")]
      (set_doctor_availability
         (upsert_availability doc d st en (doctor_availability s)) s).
Proof.
  intros Hin. unfold update_availability, upsert_availability.
  apply in_window_test in Hin. rewrite Hin. run_view. simpl.
  destruct (first (on_day doc d) (doctor_availability s)) as [a|]; simpl.
  - rewrite update_update by reflexivity. reflexivity.
  - reflexivity.
Qed.

(** C2. For every doctor and requested date, [update_availability]
    answers with the out-of-window response exactly when the date is
    outside [today, today + 7] (both ends included), and in that case the
    store is left exactly as it was. *)
Theorem C2_availability_window
    (s : Store) (doc : Z) (today d : date) (st en : Time.t) :
  (OutOfWindowError (handle (update_availability doc today d st en) s)
   <-> ~ (today <= d <= today + 7)) /\
  (OutOfWindowError (handle (update_availability doc today d st en) s) ->
   store (handle (update_availability doc today d st en) s) = s).
Proof.
  destruct (Z_le_dec today d) as [H1 | H1];
    [destruct (Z_le_dec d (today + 7)) as [H2 | H2] |].
  - rewrite (update_availability_in_window s doc today d st en)
      by (unfold in_window; lia).
    unfold OutOfWindowError; simpl.
    split; [split|].
    + intros [_ Hflash]. discriminate Hflash.
    + lia.
    + intros [_ Hflash]. discriminate Hflash.
  - rewrite (update_availability_out_of_window s doc today d st en)
      by (unfold in_window; lia).
    unfold OutOfWindowError; simpl. split; [split|]; auto. intros _. lia.
  - rewrite (update_availability_out_of_window s doc today d st en)
      by (unfold in_window; lia).
    unfold OutOfWindowError; simpl. split; [split|]; auto. intros _. lia.
Qed.

Lemma NoDup_snoc {A : Type} (l : list A) (x : A) :
  NoDup l -> ~ In x l -> NoDup (l ++ [x]).
Proof.
  intros Hl Hx. apply NoDup_app; [exact Hl | repeat constructor; auto |].
  intros y Hy [<- | []]. contradiction.
Qed.

Lemma filter_update {Row : Type} (key : Row -> Z) (p : Row -> bool) (pk : Z)
    (f : Row -> Row) (rows : list Row) :
  (forall r, p (f r) = p r) ->
  (forall r, key (f r) = key r) ->
  filter p (update key pk f rows) = update key pk f (filter p rows).
Proof.
  intros Hp Hk. unfold update.
  induction rows as [|x rows IH]; simpl; [reflexivity|].
  destruct (key x =? pk) eqn:E.
  - rewrite Hp. destruct (p x); simpl; rewrite ?E, IH; reflexivity.
  - destruct (p x); simpl; rewrite ?E, IH; reflexivity.
Qed.

Lemma filter_nil_of_first_None {Row : Type} (p : Row -> bool) (rows : list Row) :
  first p rows = None -> filter p rows = [].
Proof.
  unfold first. induction rows as [|x rows IH]; simpl; [reflexivity|].
  destruct (p x); [discriminate | exact IH].
Qed.

Lemma filter_on_day_unique (doc : Z) (d : date) (rows : list DoctorAvailability.t)
    (a : DoctorAvailability.t) :
  NoDup (map day_of rows) ->
  first (on_day doc d) rows = Some a ->
  filter (on_day doc d) rows = [a].
Proof.
  unfold first. induction rows as [|x rows IH]; simpl; [discriminate|].
  intros Hnd. inversion Hnd as [|? ? Hx Hnd']; subst.
  destruct (on_day doc d x) eqn:E.
  - intros [= ->]. f_equal.
    destruct (filter (on_day doc d) rows) as [|y l] eqn:F; [reflexivity|].
    exfalso. apply Hx.
    assert (Hy : In y (filter (on_day doc d) rows)) by (rewrite F; left; auto).
    apply filter_In in Hy as [Hy Hday].
    apply on_day_spec in E, Hday. rewrite E, <- Hday. apply in_map. exact Hy.
  - intros H. apply IH; assumption.
Qed.

Lemma availability_count (doc : Z) (d : date) (s : Store) :
  uniq_doctor_date_availability s ->
  (List.length (availability_on doc d s) <= 1)%nat.
Proof.
  unfold uniq_doctor_date_availability, availability_on. intros Hnd.
  destruct (first (on_day doc d) (doctor_availability s)) as [a|] eqn:E.
  - rewrite (filter_on_day_unique _ _ _ _ Hnd E). simpl. lia.
  - rewrite (filter_nil_of_first_None _ _ E). simpl. lia.
Qed.

Lemma upsert_availability_ok (doc : Z) (d : date) (st en : Time.t) (s : Store) :
  availability_ok s ->
  availability_ok
    (set_doctor_availability
       (upsert_availability doc d st en (doctor_availability s)) s).
Proof.
  unfold availability_ok, availability_pk, uniq_doctor_date_availability,
    upsert_availability.
  intros [Hpk Hday]. simpl.
  destruct (first (on_day doc d) (doctor_availability s)) as [a|] eqn:E.
  - split.
    + rewrite update_keys by reflexivity. exact Hpk.
    + unfold update. rewrite map_map.
      erewrite map_ext; [exact Hday|].
      intros r. simpl. destruct (_ =? _); reflexivity.
  - rewrite !map_app. simpl. split.
    + apply NoDup_snoc; [exact Hpk | apply next_id_fresh].
    + apply NoDup_snoc; [exact Hday|].
      intros Hin. apply in_map_iff in Hin as (r & Hr & Hin).
      apply (proj2 (on_day_spec doc d r)) in Hr.
      rewrite (first_None _ _ E r Hin) in Hr. discriminate.
Qed.

Lemma set_availability_ok (s : Store) (c : AvailabilityCall) :
  availability_ok s -> availability_ok (set_availability s c).
Proof.
  intros Hok. unfold set_availability, serve, view_of.
  destruct (Z_le_dec (call_today c) (call_date c)) as [H1 | H1];
    [destruct (Z_le_dec (call_date c) (call_today c + 7)) as [H2 | H2] |].
  - rewrite update_availability_in_window by (unfold in_window; lia).
    simpl. apply upsert_availability_ok. exact Hok.
  - rewrite update_availability_out_of_window by (unfold in_window; lia).
    exact Hok.
  - rewrite update_availability_out_of_window by (unfold in_window; lia).
    exact Hok.
Qed.

Lemma set_availability_all_ok (calls : list AvailabilityCall) (s : Store) :
  availability_ok s -> availability_ok (set_availability_all calls s).
Proof.
  unfold set_availability_all. revert s.
  induction calls as [|c calls IH]; simpl; intros s Hok; [exact Hok|].
  apply IH. apply set_availability_ok. exact Hok.
Qed.

Lemma upsert_availability_same_day (doc : Z) (d : date) (st en : Time.t)
    (s : Store) :
  availability_ok s ->
  exists r,
    filter (on_day doc d) (upsert_availability doc d st en (doctor_availability s))
    = [r] /\
    DoctorAvailability.start_time r = st /\ DoctorAvailability.end_time r = en.
Proof.
  unfold availability_ok, uniq_doctor_date_availability, upsert_availability.
  intros [_ Hday].
  destruct (first (on_day doc d) (doctor_availability s)) as [a|] eqn:E.
  - rewrite filter_update by reflexivity.
    rewrite (filter_on_day_unique _ _ _ _ Hday E).
    unfold update; simpl. rewrite Z.eqb_refl.
    eexists. split; [reflexivity | simpl; auto].
  - rewrite filter_app, (filter_nil_of_first_None _ _ E). simpl.
    assert (Hnew : forall pk, on_day doc d (DoctorAvailability.mk pk doc d st en)
                              = true)
      by (intros pk; apply on_day_spec; reflexivity).
    rewrite Hnew. eexists. split; [reflexivity | simpl; auto].
Qed.

Lemma upsert_availability_other_day (doc doc' : Z) (d d' : date) (st en : Time.t)
    (s : Store) :
  availability_ok s ->
  (doc', d') <> (doc, d) ->
  filter (on_day doc' d') (upsert_availability doc d st en (doctor_availability s))
  = filter (on_day doc' d') (doctor_availability s).
Proof.
  unfold availability_ok, availability_pk, upsert_availability.
  intros [Hpk _] Hne.
  destruct (first (on_day doc d) (doctor_availability s)) as [a|] eqn:E.
  - rewrite filter_update by reflexivity.
    apply update_miss. intros Hin.
    apply in_map_iff in Hin as (r & Hid & Hr).
    apply filter_In in Hr as [Hr Hday].
    apply first_Some in E as [Ha Haday].
    assert (r = a)
      by (apply (NoDup_map_eq DoctorAvailability.id (doctor_availability s));
          assumption).
    subst r. apply on_day_spec in Hday, Haday. congruence.
  - rewrite filter_app. simpl.
    assert (Hnew : forall pk, on_day doc' d' (DoctorAvailability.mk pk doc d st en)
                              = false).
    { intros pk. destruct (on_day doc' d' _) eqn:F; [|reflexivity].
      apply on_day_spec in F. unfold day_of in F. simpl in F. congruence. }
    rewrite Hnew. apply app_nil_r.
Qed.

Lemma set_availability_sets (doc : Z) (d : date) (s : Store) (c : AvailabilityCall) :
  availability_ok s ->
  sets doc d c ->
  exists r,
    availability_on doc d (set_availability s c) = [r] /\
    DoctorAvailability.start_time r = call_start c /\
    DoctorAvailability.end_time r = call_end c.
Proof.
  intros Hok (<- & <- & Hwin).
  unfold availability_on, set_availability, serve, view_of.
  rewrite update_availability_in_window by exact Hwin. simpl.
  apply upsert_availability_same_day. exact Hok.
Qed.

Lemma set_availability_not_sets (doc : Z) (d : date) (s : Store)
    (c : AvailabilityCall) :
  availability_ok s ->
  ~ sets doc d c ->
  availability_on doc d (set_availability s c) = availability_on doc d s.
Proof.
  intros Hok Hnot.
  unfold availability_on, set_availability, serve, view_of.
  destruct (Z_le_dec (call_today c) (call_date c)) as [H1 | H1];
    [destruct (Z_le_dec (call_date c) (call_today c + 7)) as [H2 | H2] |].
  - rewrite update_availability_in_window by (unfold in_window; lia).
    simpl. apply upsert_availability_other_day; [exact Hok|].
    intros [= -> ->]. apply Hnot. unfold sets, in_window. auto.
  - rewrite update_availability_out_of_window by (unfold in_window; lia).
    reflexivity.
  - rewrite update_availability_out_of_window by (unfold in_window; lia).
    reflexivity.
Qed.

Lemma set_availability_all_not_sets (doc : Z) (d : date)
    (calls : list AvailabilityCall) (s : Store) :
  availability_ok s ->
  (forall c, In c calls -> ~ sets doc d c) ->
  availability_on doc d (set_availability_all calls s) = availability_on doc d s.
Proof.
  unfold set_availability_all. revert s.
  induction calls as [|c calls IH]; simpl; intros s Hok Hnone; [reflexivity|].
  rewrite IH; [| apply set_availability_ok; exact Hok | auto].
  apply set_availability_not_sets; auto.
Qed.

(** C3. On a store that satisfies the availability table's key and
    (doctor, date) constraints:
    - an accepted call for a (doctor, date) that already has a record
      rewrites that record's start and end times in place, with the same
      ids in the table afterwards, no record being added;
    - after any sequence of calls there is at most one record per
      (doctor, date);
    - and if some call of the sequence was accepted for (doctor, date),
      the one record for that pair carries the times of the last such
      call. *)
Theorem C3_availability_upsert
    (s : Store) (calls : list AvailabilityCall) :
  availability_pk s ->
  uniq_doctor_date_availability s ->
  (forall c a,
     in_window (call_today c) (call_date c) ->
     first (on_day (call_doctor c) (call_date c)) (doctor_availability s) = Some a ->
     map DoctorAvailability.id (doctor_availability (set_availability s c))
     = map DoctorAvailability.id (doctor_availability s) /\
     availability_on (call_doctor c) (call_date c) (set_availability s c)
     = [DoctorAvailability.mk (DoctorAvailability.id a) (call_doctor c)
          (call_date c) (call_start c) (call_end c)])
  /\
  (forall doc d,
     (List.length (availability_on doc d (set_availability_all calls s)) <= 1)%nat)
  /\
  (forall doc d before c after,
     calls = before ++ c :: after ->
     sets doc d c ->
     (forall c', In c' after -> ~ sets doc d c') ->
     exists r,
       availability_on doc d (set_availability_all calls s) = [r] /\
       DoctorAvailability.start_time r = call_start c /\
       DoctorAvailability.end_time r = call_end c).
Proof.
  intros Hpk Hday.
  assert (Hok : availability_ok s) by (split; assumption).
  split; [|split].
  - intros c a Hwin E.
    unfold availability_on, set_availability, serve, view_of.
    rewrite update_availability_in_window by exact Hwin. simpl.
    unfold upsert_availability. rewrite E. split.
    + apply update_keys. reflexivity.
    + rewrite filter_update by reflexivity.
      rewrite (filter_on_day_unique _ _ _ _ Hday E).
      unfold update; simpl. rewrite Z.eqb_refl.
      apply first_Some in E as [_ E]. apply on_day_spec in E.
      unfold day_of in E. inversion E. reflexivity.
  - intros doc d. apply availability_count.
    apply (set_availability_all_ok calls s Hok).
  - intros doc d before c after -> Hsets Hlast.
    unfold set_availability_all. rewrite fold_left_app. simpl.
    fold (set_availability_all before s).
    fold (set_availability_all after
            (set_availability (set_availability_all before s) c)).
    pose proof (set_availability_all_ok before s Hok) as Hok1.
    rewrite set_availability_all_not_sets;
      [| apply set_availability_ok; exact Hok1 | exact Hlast].
    apply set_availability_sets; assumption.
Qed.

(* ================================================================= *)
(** ** Status updates and treatment notes *)

Lemma in__members__getitem (name : string) :
  in__members__ name = true <-> exists m, AppointmentStatus_getitem name = Some m.
Proof.
  cbv [in__members__ AppointmentStatus_getitem AppointmentStatus__members__
       existsb find option_map fst snd].
  destruct (String.eqb "BOOKED" name); cbv [orb]; [split; eauto|].
  destruct (String.eqb "COMPLETED" name); [split; eauto|].
  destruct (String.eqb "CANCELLED" name); [split; eauto|].
  split; [discriminate | intros [m H]; discriminate].
Qed.

Lemma not_in__members__getitem (name : string) :
  in__members__ name = false -> AppointmentStatus_getitem name = None.
Proof.
  intros H. destruct (AppointmentStatus_getitem name) as [m|] eqn:E; [|reflexivity].
  assert (in__members__ name = true) by (apply in__members__getitem; eauto).
  congruence.
Qed.

(** Membership is by member name: the stored values are not names. *)
Lemma members_are_names :
  in__members__ "BOOKED" = true /\ in__members__ "COMPLETED" = true /\
  in__members__ "CANCELLED" = true /\
  in__members__ "Booked" = false /\ in__members__ "Completed" = false /\
  in__members__ "Cancelled" = false.
Proof. repeat split. Qed.

Lemma set_appointments_same (s : Store) : set_appointments (appointments s) s = s.
Proof. destruct s; reflexivity. Qed.

Lemma apply_status_run (pk : Z) (status : option string) (c : Ctx) :
  apply_status pk status c
  = Continue tt
      (mkCtx (db c)
             (set_appointments (status_rows pk status (appointments (session c)))
                               (session c))
             (flashes c)).
Proof.
  unfold apply_status, status_rows.
  destruct status as [name|].
  - destruct (in__members__ name) eqn:E.
    + apply in__members__getitem in E as [m E]. rewrite E. reflexivity.
    + rewrite (not_in__members__getitem _ E).
      rewrite set_appointments_same. destruct c; reflexivity.
  - rewrite set_appointments_same. destruct c; reflexivity.
Qed.

Lemma status_rows_unrecognized (pk : Z) (status : option string)
    (rows : list Appointment.t) :
  recognized status = false -> status_rows pk status rows = rows.
Proof.
  unfold recognized, status_rows. destruct status as [name|]; [|reflexivity].
  intros H. rewrite (not_in__members__getitem _ H). reflexivity.
Qed.

Lemma get_status_rows (pk : Z) (status : option string) (rows : list Appointment.t)
    (a : Appointment.t) :
  get Appointment.id pk rows = Some a ->
  get Appointment.id pk (status_rows pk status rows)
  = Some (Appointment.set_status (status_after status (Appointment.status a)) a).
Proof.
  intros Hget. unfold status_rows, status_after.
  assert (Hsame : Appointment.set_status (Appointment.status a) a = a)
    by (destruct a; reflexivity).
  destruct status as [name|]; [|rewrite Hsame; exact Hget].
  destruct (AppointmentStatus_getitem name) as [m|]; [|rewrite Hsame; exact Hget].
  apply get_update_same; [reflexivity | exact Hget].
Qed.

Lemma status_after_changed (status : option string) (old : AppointmentStatus) :
  status_after status old <> old -> recognized status = true.
Proof.
  unfold status_after, recognized. destruct status as [name|]; [|congruence].
  destruct (AppointmentStatus_getitem name) as [m|] eqn:E; [|congruence].
  intros _. apply in__members__getitem. eauto.
Qed.

Lemma admin_update_appointment_run (s : Store) (pk : Z) (status : option string)
    (a : Appointment.t) :
  get Appointment.id pk (appointments s) = Some a ->
  handle (admin_update_appointment pk status) s
  = mkOutcome (Redirect "admin_dashboard")
      [("Appointment status updated.", "success")]
      (set_appointments (status_rows pk status (appointments s)) s).
Proof.
  intros Hget. unfold admin_update_appointment. run_view. rewrite Hget.
  rewrite apply_status_run. simpl. rewrite (get_key _ _ _ _ Hget). reflexivity.
Qed.

Lemma update_appointment_status_forbidden (s : Store) (cd pk : Z)
    (status dg pr nt : option string) (a : Appointment.t) :
  get Appointment.id pk (appointments s) = Some a ->
  Appointment.doctor_id a <> cd ->
  handle (update_appointment_status cd pk status dg pr nt) s
  = mkOutcome (HTTPError 403) [] s.
Proof.
  intros Hget Hne. unfold update_appointment_status. run_view. rewrite Hget.
  apply Z.eqb_neq in Hne. rewrite Hne. reflexivity.
Qed.

Lemma update_appointment_status_run (s : Store) (cd pk : Z)
    (status dg pr nt : option string) (a : Appointment.t) :
  get Appointment.id pk (appointments s) = Some a ->
  Appointment.doctor_id a = cd ->
  handle (update_appointment_status cd pk status dg pr nt) s
  = mkOutcome (Redirect "doctor_dashboard") [("Appointment updated.", "success")]
      (set_treatment_notes
         (upsert_note pk (form_get dg "") (form_get pr "") (form_get nt "")
                      (treatment_notes s))
         (set_appointments (status_rows pk status (appointments s)) s)).
Proof.
  intros Hget Hown. unfold update_appointment_status. run_view. rewrite Hget.
  apply Z.eqb_eq in Hown. rewrite Hown. simpl.
  rewrite apply_status_run. simpl. rewrite (get_key _ _ _ _ Hget).
  unfold upsert_note, treatment_note. simpl.
  destruct (first _ (treatment_notes s)) as [n|]; simpl.
  - rewrite !update_update by reflexivity. reflexivity.
  - reflexivity.
Qed.

Lemma first_map_stable {Row : Type} (p : Row -> bool) (g : Row -> Row)
    (rows : list Row) :
  (forall r, p (g r) = p r) ->
  first p (map g rows) = option_map g (first p rows).
Proof.
  intros Hp. unfold first.
  induction rows as [|x rows IH]; simpl; [reflexivity|].
  rewrite Hp. destruct (p x); [reflexivity | exact IH].
Qed.

Lemma first_snoc {Row : Type} (p : Row -> bool) (rows : list Row) (x : Row) :
  first p rows = None -> p x = true -> first p (rows ++ [x]) = Some x.
Proof.
  unfold first. intros Hnone Hx.
  induction rows as [|y rows IH]; simpl in *; [rewrite Hx; reflexivity|].
  destruct (p y); [discriminate | auto].
Qed.

Lemma upsert_note_result (pk : Z) (dg pr nt : string) (rows : list TreatmentNote.t) :
  exists n,
    first (fun r => TreatmentNote.appointment_id r =? pk)
          (upsert_note pk dg pr nt rows) = Some n /\
    TreatmentNote.appointment_id n = pk /\
    TreatmentNote.diagnosis n = dg /\
    TreatmentNote.prescription n = pr /\
    TreatmentNote.notes n = nt /\
    (first (fun r => TreatmentNote.appointment_id r =? pk) rows = None ->
     upsert_note pk dg pr nt rows = rows ++ [n]) /\
    (forall old,
       first (fun r => TreatmentNote.appointment_id r =? pk) rows = Some old ->
       TreatmentNote.id n = TreatmentNote.id old /\
       map TreatmentNote.id (upsert_note pk dg pr nt rows)
       = map TreatmentNote.id rows).
Proof.
  unfold upsert_note.
  destruct (first (fun r => TreatmentNote.appointment_id r =? pk) rows)
    as [old|] eqn:E.
  - exists (TreatmentNote.mk (TreatmentNote.id old)
                             (TreatmentNote.appointment_id old) dg pr nt).
    pose proof (first_Some _ _ _ E) as [_ Hpk]. apply Z.eqb_eq in Hpk.
    unfold update. rewrite first_map_stable.
    + rewrite E. simpl. rewrite Z.eqb_refl. simpl.
      repeat split; auto; try discriminate.
      * congruence.
      * apply (update_keys TreatmentNote.id). reflexivity.
    + intros r.
      destruct (TreatmentNote.id r =? TreatmentNote.id old); reflexivity.
  - eexists. split; [apply first_snoc; [exact E | simpl; apply Z.eqb_refl]|].
    simpl. repeat split; auto; discriminate.
Qed.

(** C9. When the status string sent with the request names no member of
    the status enumeration (or no status is sent at all), the admin
    override and the doctor's clinical update -- the latter for the
    appointment's own doctor -- both complete with their success message,
    and the appointments table, hence the appointment's status, is exactly
    as before; the admin override leaves the whole store as it was. *)
Theorem C9_unrecognized_status_is_ignored
    (s : Store) (pk : Z) (a : Appointment.t) (status : option string) :
  get Appointment.id pk (appointments s) = Some a ->
  recognized status = false ->
  (succeeded "admin_dashboard" "Appointment status updated." "success"
             (handle (admin_update_appointment pk status) s) /\
   store (handle (admin_update_appointment pk status) s) = s)
  /\
  (forall cd dg pr nt,
     Appointment.doctor_id a = cd ->
     succeeded "doctor_dashboard" "Appointment updated." "success"
               (handle (update_appointment_status cd pk status dg pr nt) s) /\
     appointments (store (handle (update_appointment_status cd pk status dg pr nt) s))
     = appointments s /\
     get Appointment.id pk
       (appointments
          (store (handle (update_appointment_status cd pk status dg pr nt) s)))
     = Some a).
Proof.
  intros Hget Hunrec. split.
  - rewrite (admin_update_appointment_run _ _ _ _ Hget).
    rewrite (status_rows_unrecognized _ _ _ Hunrec), set_appointments_same.
    unfold succeeded; simpl. auto.
  - intros cd dg pr nt Hown.
    rewrite (update_appointment_status_run _ _ _ _ _ _ _ _ Hget Hown).
    rewrite (status_rows_unrecognized _ _ _ Hunrec).
    unfold succeeded; simpl. auto.
Qed.

(** C7. For an appointment and a requesting doctor, the clinical update
    answers 403, changing nothing, unless the appointment's doctor is the
    requester.  When it proceeds it succeeds, and
    - the appointment's status becomes the member the status string names
      if it names one and stays as it was otherwise, so that it changes
      only when the string is recognized;
    - afterwards the appointment has a treatment note whose diagnosis,
      prescription and notes are the supplied values (the empty string for
      a field that is missing or empty): appended as a new row when there
      was none, and otherwise the existing row, same id, overwritten in
      place with no row added. *)
Theorem C7_clinical_update
    (s : Store) (cd pk : Z) (a : Appointment.t)
    (status dg pr nt : option string) :
  get Appointment.id pk (appointments s) = Some a ->
  let o := handle (update_appointment_status cd pk status dg pr nt) s in
  (Appointment.doctor_id a <> cd -> ForbiddenError o /\ store o = s)
  /\
  (Appointment.doctor_id a = cd ->
     succeeded "doctor_dashboard" "Appointment updated." "success" o /\
     get Appointment.id pk (appointments (store o))
     = Some (Appointment.set_status
               (status_after status (Appointment.status a)) a) /\
     (status_after status (Appointment.status a) <> Appointment.status a ->
      recognized status = true) /\
     (forall name m, status = Some name ->
        AppointmentStatus_getitem name = Some m ->
        status_after status (Appointment.status a) = m) /\
     exists n,
       treatment_note pk (store o) = Some n /\
       TreatmentNote.diagnosis n = form_get dg "" /\
       TreatmentNote.prescription n = form_get pr "" /\
       TreatmentNote.notes n = form_get nt "" /\
       (treatment_note pk s = None ->
        treatment_notes (store o) = treatment_notes s ++ [n]) /\
       (forall old, treatment_note pk s = Some old ->
          TreatmentNote.id n = TreatmentNote.id old /\
          map TreatmentNote.id (treatment_notes (store o))
          = map TreatmentNote.id (treatment_notes s))).
Proof.
  intros Hget o. subst o. split.
  - intros Hne.
    rewrite (update_appointment_status_forbidden _ _ _ _ _ _ _ _ Hget Hne).
    unfold ForbiddenError; simpl. auto.
  - intros Hown.
    rewrite (update_appointment_status_run _ _ _ _ _ _ _ _ Hget Hown).
    unfold succeeded, treatment_note; simpl.
    split; [auto|]. split; [apply get_status_rows; exact Hget|].
    split; [apply status_after_changed|].
    split; [intros name m -> E; unfold status_after; rewrite E; reflexivity|].
    destruct (upsert_note_result pk (form_get dg "") (form_get pr "")
                (form_get nt "") (treatment_notes s))
      as (n & Hn & _ & Hdg & Hpr & Hnt & Hnew & Hold).
    exists n. auto 10.
Qed.

(* ================================================================= *)
(** ** Toggling a doctor *)

Lemma update_noop {Row : Type} (key : Row -> Z) (pk : Z) (f : Row -> Row)
    (rows : list Row) (r : Row) :
  NoDup (map key rows) ->
  get key pk rows = Some r ->
  f r = r ->
  update key pk f rows = rows.
Proof.
  intros Hnd Hget Hf. apply (get_Some key) in Hget as [Hin Hk].
  unfold update. rewrite <- (map_id rows) at 2. apply map_ext_in.
  intros x Hx. destruct (Z.eqb_spec (key x) pk) as [E | _]; [|reflexivity].
  assert (x = r) by (apply (NoDup_map_eq key rows); congruence).
  subst x. exact Hf.
Qed.

Lemma update_proj {Row B : Type} (key : Row -> Z) (g : Row -> B) (pk : Z)
    (f : Row -> Row) (rows : list Row) :
  (forall r, g (f r) = g r) ->
  map g (update key pk f rows) = map g rows.
Proof.
  intros Hg. unfold update. rewrite map_map. apply map_ext.
  intros r. destruct (key r =? pk); auto.
Qed.

Lemma toggle_doctor_run (s : Store) (pk : Z) (d : Doctor.t) (u : User.t) :
  get Doctor.id pk (doctors s) = Some d ->
  get User.id (Doctor.user_id d) (users s) = Some u ->
  handle (toggle_doctor pk) s
  = mkOutcome (Redirect "admin_dashboard") [("Doctor status updated.", "info")]
      (set_users
         (update User.id (Doctor.user_id d)
                 (User.set_is_active (negb (Doctor.is_active d))) (users s))
         (set_doctors
            (update Doctor.id pk
                    (Doctor.set_is_active (negb (Doctor.is_active d))) (doctors s))
            s)).
Proof.
  intros Hd Hu. unfold toggle_doctor. run_view. rewrite Hd. simpl.
  rewrite Hu. simpl. rewrite (get_key _ _ _ _ Hu). reflexivity.
Qed.

Lemma toggle_doctor_no_user (s : Store) (pk : Z) (d : Doctor.t) :
  get Doctor.id pk (doctors s) = Some d ->
  get User.id (Doctor.user_id d) (users s) = None ->
  handle (toggle_doctor pk) s = mkOutcome (HTTPError 500) [] s.
Proof.
  intros Hd Hu. unfold toggle_doctor. run_view. rewrite Hd. simpl.
  rewrite Hu. reflexivity.
Qed.

Lemma toggle_doctor_not_found (s : Store) (pk : Z) :
  get Doctor.id pk (doctors s) = None ->
  handle (toggle_doctor pk) s = mkOutcome (HTTPError (not_found_code pk)) [] s.
Proof.
  intros Hd. unfold toggle_doctor, not_found_code. run_view. rewrite Hd.
  destruct (sqlite_int pk); reflexivity.
Qed.

Lemma linked_user (s : Store) (d : Doctor.t) :
  directory_ok s -> In d (doctors s) ->
  exists u, get User.id (Doctor.user_id d) (users s) = Some u /\
            User.is_active u = Doctor.is_active d.
Proof.
  intros Hok Hd.
  destruct (doctors_in_sync s Hok d Hd) as (u & Hu & Hid & Hact).
  exists u. split; [|exact Hact].
  rewrite <- Hid. apply get_In; [apply (users_pk s Hok) | exact Hu].
Qed.

Lemma toggle_doctor_twice (s : Store) (pk : Z) (d : Doctor.t) :
  directory_ok s ->
  get Doctor.id pk (doctors s) = Some d ->
  serve (serve s (ToggleDoctor pk)) (ToggleDoctor pk) = s.
Proof.
  intros Hok Hd.
  pose proof (get_Some Doctor.id _ _ _ Hd) as [Hin _].
  destruct (linked_user s d Hok Hin) as (u & Hu & Hsync).
  unfold serve, view_of.
  rewrite (toggle_doctor_run s pk d u Hd Hu). cbn [store].
  rewrite (toggle_doctor_run _ pk
             (Doctor.set_is_active (negb (Doctor.is_active d)) d)
             (User.set_is_active (negb (Doctor.is_active d)) u)).
  - cbn [store]. simpl.
    rewrite !update_update by reflexivity.
    rewrite negb_involutive.
    rewrite (update_noop Doctor.id pk _ (doctors s) d);
      [| apply (doctors_pk s Hok) | exact Hd | destruct d; reflexivity].
    rewrite (update_noop User.id (Doctor.user_id d) _ (users s) u);
      [| apply (users_pk s Hok) | exact Hu
       | rewrite <- Hsync; destruct u; reflexivity].
    destruct s; reflexivity.
  - simpl. apply get_update_same; [reflexivity | exact Hd].
  - simpl. apply get_update_same; [reflexivity | exact Hu].
Qed.

(* ================================================================= *)
(** ** The directory invariant holds in every reachable database *)

(** Row-wise edits that keep keys, links and active flags. *)
Lemma directory_ok_map (s s' : Store)
    (gu : User.t -> User.t) (gd : Doctor.t -> Doctor.t)
    (gp : Patient.t -> Patient.t) :
  users s' = map gu (users s) ->
  doctors s' = map gd (doctors s) ->
  patients s' = map gp (patients s) ->
  (forall u, User.id (gu u) = User.id u /\
             User.is_active (gu u) = User.is_active u) ->
  (forall d, Doctor.id (gd d) = Doctor.id d /\
             Doctor.user_id (gd d) = Doctor.user_id d /\
             Doctor.is_active (gd d) = Doctor.is_active d) ->
  (forall p, Patient.user_id (gp p) = Patient.user_id p) ->
  directory_ok s -> directory_ok s'.
Proof.
  intros Hu Hd Hp Hgu Hgd Hgp [Hupk Hdpk Hduu Hsync Hlink Hsep].
  assert (Huid : map User.id (users s') = map User.id (users s)).
  { rewrite Hu, map_map. apply map_ext. intros u. apply Hgu. }
  constructor.
  - rewrite Huid. exact Hupk.
  - rewrite Hd, map_map. erewrite map_ext; [exact Hdpk|]. intros d. apply Hgd.
  - rewrite Hd, map_map. erewrite map_ext; [exact Hduu|]. intros d. apply Hgd.
  - intros d'. rewrite Hd. intros Hin.
    apply in_map_iff in Hin as (d & <- & Hin).
    destruct (Hsync d Hin) as (u & Hin_u & Hid & Hact).
    exists (gu u). rewrite Hu.
    destruct (Hgu u) as [-> ->]. destruct (Hgd d) as (_ & -> & ->).
    split; [apply in_map; exact Hin_u | auto].
  - intros p'. rewrite Hp, Huid. intros Hin.
    apply in_map_iff in Hin as (p & <- & Hin). rewrite Hgp. auto.
  - intros p' d'. rewrite Hp, Hd. intros Hin_p Hin_d.
    apply in_map_iff in Hin_p as (p & <- & Hin_p).
    apply in_map_iff in Hin_d as (d & <- & Hin_d).
    rewrite Hgp. destruct (Hgd d) as (_ & -> & _). auto.
Qed.

(** Requests that leave the three directory tables alone. *)
Lemma directory_ok_frame (s s' : Store) :
  users s' = users s -> doctors s' = doctors s -> patients s' = patients s ->
  directory_ok s -> directory_ok s'.
Proof.
  intros Hu Hd Hp.
  apply (directory_ok_map s s' (fun u => u) (fun d => d) (fun p => p));
    rewrite ?map_id; auto.
Qed.

Lemma doctor_user_below (s : Store) (d : Doctor.t) :
  directory_ok s -> In d (doctors s) ->
  Doctor.user_id d < next_id User.id (users s).
Proof.
  intros Hok Hin.
  destruct (doctors_in_sync s Hok d Hin) as (u & Hu & <- & _).
  apply next_id_above. exact Hu.
Qed.

Lemma patient_user_below (s : Store) (p : Patient.t) :
  directory_ok s -> In p (patients s) ->
  Patient.user_id p < next_id User.id (users s).
Proof.
  intros Hok Hin.
  pose proof (patients_linked s Hok p Hin) as Hu.
  apply in_map_iff in Hu as (u & <- & Hu).
  apply next_id_above. exact Hu.
Qed.

(** A new user is appended (registration of a patient, or [init_db]),
    possibly with a patient profile linked to it. *)
Lemma directory_ok_new_user (s s' : Store) (u : User.t) (ps : list Patient.t) :
  users s' = users s ++ [u] ->
  doctors s' = doctors s ->
  patients s' = patients s ++ ps ->
  User.id u = next_id User.id (users s) ->
  (forall p, In p ps -> Patient.user_id p = User.id u) ->
  directory_ok s -> directory_ok s'.
Proof.
  intros Hu Hd Hp Hid Hps Hok.
  pose proof Hok as [Hupk Hdpk Hduu Hsync Hlink Hsep].
  constructor.
  - rewrite Hu, map_app. simpl. apply NoDup_snoc; [exact Hupk|].
    rewrite Hid. apply next_id_fresh.
  - rewrite Hd. exact Hdpk.
  - rewrite Hd. exact Hduu.
  - intros d. rewrite Hd, Hu. intros Hin.
    destruct (Hsync d Hin) as (u0 & Hu0 & H1 & H2).
    exists u0. split; [apply in_or_app; auto | auto].
  - intros p. rewrite Hp, Hu, map_app. intros Hin.
    apply in_or_app. apply in_app_or in Hin as [Hin | Hin].
    + left. auto.
    + right. simpl. left. symmetry. auto.
  - intros p d. rewrite Hp, Hd. intros Hin_p Hin_d.
    apply in_app_or in Hin_p as [Hin_p | Hin_p]; [auto|].
    rewrite (Hps p Hin_p), Hid.
    pose proof (doctor_user_below s d Hok Hin_d). lia.
Qed.

(** A new doctor is appended together with its new user, both active. *)
Lemma directory_ok_new_doctor (s s' : Store) (u : User.t) (d : Doctor.t) :
  users s' = users s ++ [u] ->
  doctors s' = doctors s ++ [d] ->
  patients s' = patients s ->
  User.id u = next_id User.id (users s) ->
  Doctor.id d = next_id Doctor.id (doctors s) ->
  Doctor.user_id d = User.id u ->
  User.is_active u = Doctor.is_active d ->
  directory_ok s -> directory_ok s'.
Proof.
  intros Hu Hd Hp Hid Hdid Hlinked Hact Hok.
  pose proof Hok as [Hupk Hdpk Hduu Hsync Hlink Hsep].
  constructor.
  - rewrite Hu, map_app. simpl. apply NoDup_snoc; [exact Hupk|].
    rewrite Hid. apply next_id_fresh.
  - rewrite Hd, map_app. simpl. apply NoDup_snoc; [exact Hdpk|].
    rewrite Hdid. apply next_id_fresh.
  - rewrite Hd, map_app. simpl. apply NoDup_snoc; [exact Hduu|].
    intros Hin. apply in_map_iff in Hin as (d0 & E & Hin).
    pose proof (doctor_user_below s d0 Hok Hin). lia.
  - intros d0. rewrite Hd, Hu. intros Hin.
    apply in_app_or in Hin as [Hin | [<- | []]].
    + destruct (Hsync d0 Hin) as (u0 & Hu0 & H1 & H2).
      exists u0. split; [apply in_or_app; auto | auto].
    + exists u. split; [apply in_or_app; simpl; auto | auto].
  - intros p. rewrite Hp, Hu, map_app. intros Hin.
    apply in_or_app. left. auto.
  - intros p d0. rewrite Hp, Hd. intros Hin_p Hin_d.
    apply in_app_or in Hin_d as [Hin_d | [<- | []]]; [auto|].
    pose proof (patient_user_below s p Hok Hin_p). lia.
Qed.

(** Both flags of a doctor and of the user linked to it are set together. *)
Lemma directory_ok_toggle_doctor (s : Store) (pk : Z) (d : Doctor.t) (b : bool) :
  directory_ok s ->
  get Doctor.id pk (doctors s) = Some d ->
  directory_ok
    (set_users
       (update User.id (Doctor.user_id d) (User.set_is_active b) (users s))
       (set_doctors
          (update Doctor.id pk (Doctor.set_is_active b) (doctors s)) s)).
Proof.
  intros Hok Hget.
  pose proof Hok as [Hupk Hdpk Hduu Hsync Hlink Hsep].
  pose proof (get_Some Doctor.id _ _ _ Hget) as [Hd Hdid].
  constructor; simpl.
  - rewrite update_keys by reflexivity. exact Hupk.
  - rewrite update_keys by reflexivity. exact Hdpk.
  - rewrite update_proj by reflexivity. exact Hduu.
  - intros d' Hin. apply In_update in Hin as (r & Hr & ->).
    destruct (Hsync r Hr) as (u & Hu & Hid & Hact).
    destruct (Z.eqb_spec (Doctor.id r) pk) as [E | N].
    + assert (r = d)
        by (apply (NoDup_map_eq Doctor.id (doctors s)); congruence).
      subst r. exists (User.set_is_active b u). simpl.
      split; [|auto]. apply In_update. exists u.
      rewrite Hid, Z.eqb_refl. auto.
    + assert (Hother : Doctor.user_id r <> Doctor.user_id d).
      { intros E. apply N. rewrite <- Hdid. f_equal.
        apply (NoDup_map_eq Doctor.user_id (doctors s)); assumption. }
      exists u. split; [|auto]. apply In_update. exists u.
      rewrite Hid. apply Z.eqb_neq in Hother. rewrite Hother. auto.
  - intros p Hin. rewrite update_keys by reflexivity. auto.
  - intros p d' Hin_p Hin_d. apply In_update in Hin_d as (r & Hr & ->).
    destruct (Doctor.id r =? pk); simpl; auto.
Qed.

(** The flag of a user linked to a patient changes. *)
Lemma directory_ok_toggle_patient (s : Store) (p : Patient.t) (b : bool) :
  directory_ok s ->
  In p (patients s) ->
  directory_ok
    (set_users
       (update User.id (Patient.user_id p) (User.set_is_active b) (users s)) s).
Proof.
  intros Hok Hp.
  pose proof Hok as [Hupk Hdpk Hduu Hsync Hlink Hsep].
  constructor; simpl; auto.
  - rewrite update_keys by reflexivity. exact Hupk.
  - intros d Hin. destruct (Hsync d Hin) as (u & Hu & Hid & Hact).
    exists u. split; [|auto]. apply In_update. exists u.
    assert (Hne : User.id u <> Patient.user_id p)
      by (rewrite Hid; intros E; apply (Hsep p d Hp Hin); auto).
    apply Z.eqb_neq in Hne. rewrite Hne. auto.
  - intros p' Hin. rewrite update_keys by reflexivity. auto.
Qed.

Lemma directory_ok_empty : directory_ok empty_store.
Proof.
  constructor; simpl; try constructor; intros; contradiction.
Qed.

(** [init_db] writes the departments and the users only, and the users
    table is kept or gains the administrator. *)
Lemma init_db_tables (s : Store) :
  doctors (init_db s) = doctors s /\
  patients (init_db s) = patients s /\
  doctor_availability (init_db s) = doctor_availability s /\
  appointments (init_db s) = appointments s /\
  treatment_notes (init_db s) = treatment_notes s.
Proof.
  unfold init_db.
  destruct (departments s); cbv zeta;
    repeat match goal with
           | |- context [match first ?f ?l with _ => _ end] =>
               destruct (first f l)
           end; repeat split; reflexivity.
Qed.

Lemma init_db_users (s : Store) :
  users (init_db s) =
  match first (fun u => String.eqb (User.role u) (UserRole_value ADMIN))
              (users s),
        first (fun u => String.eqb (User.email u) "admin@hms.local")
              (users s) with
  | None, None =>
      users s ++ [User.mk (next_id User.id (users s)) "Hospital Admin"
                    "admin@hms.local" "0000000000" (UserRole_value ADMIN) true]
  | _, _ => users s
  end.
Proof.
  unfold init_db.
  destruct (departments s); cbv beta iota zeta;
    change (users (set_departments _ s)) with (users s);
    destruct (first (fun u => String.eqb (User.role u) _) (users s));
    try reflexivity;
    destruct (first (fun u => String.eqb (User.email u) _) (users s));
    reflexivity.
Qed.

Lemma directory_ok_ext (s s' : Store) :
  users s' = users s -> doctors s' = doctors s -> patients s' = patients s ->
  directory_ok s -> directory_ok s'.
Proof.
  intros Hu Hd Hp [H1 H2 H3 H4 H5 H6].
  constructor; rewrite ?Hu, ?Hd, ?Hp; assumption.
Qed.

Lemma directory_ok_init_db (s : Store) : directory_ok s -> directory_ok (init_db s).
Proof.
  intros Hok.
  destruct (init_db_tables s) as (Hd & Hp & _).
  pose proof (init_db_users s) as Hu.
  destruct (first (fun u => String.eqb (User.role u) _) (users s));
    [exact (directory_ok_ext s _ Hu Hd Hp Hok)|].
  destruct (first (fun u => String.eqb (User.email u) _) (users s));
    [exact (directory_ok_ext s _ Hu Hd Hp Hok)|].
  apply (directory_ok_ext (set_users (users (init_db s)) s)); try assumption;
    try reflexivity.
  rewrite Hu.
  eapply (directory_ok_new_user s _ _ []); try reflexivity;
    [simpl; symmetry; apply app_nil_r | intros p [] | exact Hok].
Qed.

Lemma directory_ok_register (s : Store) (n e p : string) :
  directory_ok s -> directory_ok (store (handle (register n e p) s)).
Proof.
  intros Hok. unfold register. run_view.
  destruct (first (has_email _) (users s)); simpl; [exact Hok|].
  eapply directory_ok_new_user; try reflexivity; [|exact Hok].
  intros q [<- | []]. reflexivity.
Qed.

Lemma directory_ok_create_doctor (s : Store) (n e p sp : string) (dep : Z)
    (room av : string) :
  directory_ok s ->
  directory_ok (store (handle (create_doctor n e p sp dep room av) s)).
Proof.
  intros Hok. unfold create_doctor. run_view.
  destruct (first (has_email _) (users s)); simpl; [exact Hok|].
  destruct (sqlite_int dep); simpl; [|exact Hok].
  eapply directory_ok_new_doctor; try reflexivity. exact Hok.
Qed.

Lemma directory_ok_serve_toggle_doctor (s : Store) (pk : Z) :
  directory_ok s -> directory_ok (store (handle (toggle_doctor pk) s)).
Proof.
  intros Hok.
  destruct (get Doctor.id pk (doctors s)) as [d|] eqn:Hd.
  - destruct (get User.id (Doctor.user_id d) (users s)) as [u|] eqn:Hu.
    + rewrite (toggle_doctor_run s pk d u Hd Hu). simpl.
      apply directory_ok_toggle_doctor; assumption.
    + rewrite (toggle_doctor_no_user s pk d Hd Hu). exact Hok.
  - rewrite (toggle_doctor_not_found s pk Hd). exact Hok.
Qed.

Lemma directory_ok_serve_toggle_patient (s : Store) (pk : Z) :
  directory_ok s -> directory_ok (store (handle (toggle_patient pk) s)).
Proof.
  intros Hok. unfold toggle_patient. run_view.
  destruct (get Patient.id pk (patients s)) as [p|] eqn:Hp; simpl;
    [|destruct (sqlite_int pk); exact Hok].
  destruct (get User.id (Patient.user_id p) (users s)) as [u|] eqn:Hu; simpl;
    [|exact Hok].
  rewrite (get_key _ _ _ _ Hu).
  apply directory_ok_toggle_patient; [exact Hok|].
  apply (get_Some Patient.id) in Hp. tauto.
Qed.

(** Proves that a store differs from [s] by row-wise edits that keep keys,
    links and flags. *)
Ltac benign_edit Hok :=
  eapply (directory_ok_map _ _ _ _ _);
  [ cbn [users doctors patients set_users set_doctors set_patients];
    unfold update; rewrite ?map_map; reflexivity
  | cbn [users doctors patients set_users set_doctors set_patients];
    unfold update; rewrite ?map_map; try reflexivity;
    symmetry; apply map_id
  | cbn [users doctors patients set_users set_doctors set_patients];
    unfold update; rewrite ?map_map; try reflexivity;
    symmetry; apply map_id
  | intros r; cbn beta; repeat destruct (_ =? _); split; reflexivity
  | intros r; cbn beta; repeat destruct (_ =? _); repeat split; reflexivity
  | intros r; cbn beta; repeat destruct (_ =? _); reflexivity
  | exact Hok ].

Lemma directory_ok_update_doctor (s : Store) (pk : Z)
    (n p sp : option string) (dep : IntField) (room av : option string) :
  directory_ok s ->
  directory_ok (store (handle (update_doctor pk n p sp dep room av) s)).
Proof.
  intros Hok. unfold update_doctor. run_view.
  destruct (get Doctor.id pk (doctors s)) as [d|]; simpl;
    [|try destruct (sqlite_int pk); exact Hok].
  destruct (get User.id (Doctor.user_id d) (users s)) as [u|]; simpl; [|exact Hok].
  destruct dep as [| |z]; simpl; [ | exact Hok | ];
    try (destruct (sqlite_int z); simpl; [|exact Hok]); benign_edit Hok.
Qed.

Lemma directory_ok_admin_update_patient (s : Store) (pk : Z)
    (n ph ad bg : option string) :
  directory_ok s ->
  directory_ok (store (handle (admin_update_patient pk n ph ad bg) s)).
Proof.
  intros Hok. unfold admin_update_patient. run_view.
  destruct (get Patient.id pk (patients s)) as [p|]; simpl;
    [|try destruct (sqlite_int pk); exact Hok].
  destruct (get User.id (Patient.user_id p) (users s)) as [u|]; simpl; [|exact Hok].
  benign_edit Hok.
Qed.

Lemma directory_ok_patient_profile (s : Store) (pk : Z)
    (n ph ad bg ec : option string) :
  directory_ok s ->
  directory_ok (store (handle (patient_profile pk n ph ad bg ec) s)).
Proof.
  intros Hok. unfold patient_profile. run_view.
  destruct (get Patient.id pk (patients s)) as [p|]; simpl;
    [|try destruct (sqlite_int pk); exact Hok].
  destruct (get User.id (Patient.user_id p) (users s)) as [u|]; simpl; [|exact Hok].
  benign_edit Hok.
Qed.

Lemma directory_ok_admin_update_appointment (s : Store) (pk : Z)
    (status : option string) :
  directory_ok s ->
  directory_ok (store (handle (admin_update_appointment pk status) s)).
Proof.
  intros Hok.
  destruct (get Appointment.id pk (appointments s)) as [a|] eqn:Hget.
  - rewrite (admin_update_appointment_run _ _ _ _ Hget).
    apply (directory_ok_frame s); auto.
  - unfold admin_update_appointment. run_view. rewrite Hget.
    destruct (sqlite_int _); exact Hok.
Qed.

Lemma directory_ok_update_appointment_status (s : Store) (cd pk : Z)
    (status dg pr nt : option string) :
  directory_ok s ->
  directory_ok
    (store (handle (update_appointment_status cd pk status dg pr nt) s)).
Proof.
  intros Hok.
  destruct (get Appointment.id pk (appointments s)) as [a|] eqn:Hget.
  - destruct (Z.eq_dec (Appointment.doctor_id a) cd) as [Hown | Hne].
    + rewrite (update_appointment_status_run _ _ _ _ _ _ _ _ Hget Hown).
      apply (directory_ok_frame s); auto.
    + rewrite (update_appointment_status_forbidden _ _ _ _ _ _ _ _ Hget Hne).
      exact Hok.
  - unfold update_appointment_status. run_view. rewrite Hget.
    destruct (sqlite_int _); exact Hok.
Qed.

Lemma directory_ok_update_availability (s : Store) (doc : Z) (today d : date)
    (st en : Time.t) :
  directory_ok s ->
  directory_ok (store (handle (update_availability doc today d st en) s)).
Proof.
  intros Hok.
  destruct (Z_le_dec today d) as [H1 | H1];
    [destruct (Z_le_dec d (today + 7)) as [H2 | H2] |].
  - rewrite update_availability_in_window by (unfold in_window; lia).
    apply (directory_ok_frame s); auto.
  - rewrite update_availability_out_of_window by (unfold in_window; lia).
    exact Hok.
  - rewrite update_availability_out_of_window by (unfold in_window; lia).
    exact Hok.
Qed.

Lemma directory_ok_book_appointment (s : Store) (p doc dep : Z) (d : date)
    (t : Time.t) (reason : option string) :
  directory_ok s ->
  directory_ok (store (handle (book_appointment p doc dep d t reason) s)).
Proof.
  intros Hok.
  destruct (first (at_slot doc d t) (appointments s)) as [a|] eqn:E.
  - rewrite (book_appointment_conflict _ _ _ _ _ _ _ _ E). exact Hok.
  - destruct (sqlite_int doc && sqlite_int dep) eqn:Hrange.
    + apply andb_prop in Hrange as [Hdoc Hdep].
      rewrite (book_appointment_free _ _ _ _ _ _ _ E Hdoc Hdep).
      apply (directory_ok_frame s); auto.
    + rewrite (book_appointment_overflow _ _ _ _ _ _ _ E Hrange). exact Hok.
Qed.

Lemma directory_ok_cancel_appointment (s : Store) (p pk : Z) :
  directory_ok s ->
  directory_ok (store (handle (cancel_appointment p pk) s)).
Proof.
  intros Hok.
  destruct (get Appointment.id pk (appointments s)) as [a|] eqn:Hget.
  - destruct (Z.eq_dec (Appointment.patient_id a) p) as [Hown | Hne].
    + rewrite (cancel_appointment_owner _ _ _ _ Hget Hown).
      apply (directory_ok_frame s); auto.
    + rewrite (cancel_appointment_forbidden _ _ _ _ Hget Hne). exact Hok.
  - unfold cancel_appointment. run_view. rewrite Hget.
    destruct (sqlite_int _); exact Hok.
Qed.

Lemma directory_ok_reschedule_appointment (s : Store) (p pk : Z) (nd : date)
    (nt : Time.t) :
  directory_ok s ->
  directory_ok (store (handle (reschedule_appointment p pk nd nt) s)).
Proof.
  intros Hok.
  destruct (get Appointment.id pk (appointments s)) as [a|] eqn:Hget.
  - destruct (Z.eq_dec (Appointment.patient_id a) p) as [Hown | Hne].
    + destruct (first (at_slot (Appointment.doctor_id a) nd nt) (appointments s))
        as [c|] eqn:E.
      * destruct (Z.eq_dec (Appointment.id c) (Appointment.id a)) as [Hself | Hother].
        -- rewrite (reschedule_appointment_moved _ _ _ _ _ _ Hget Hown)
             by (intros c' Hc'; congruence).
           apply (directory_ok_frame s); auto.
        -- rewrite (reschedule_appointment_blocked _ _ _ _ _ _ c Hget Hown E Hother).
           exact Hok.
      * rewrite (reschedule_appointment_moved _ _ _ _ _ _ Hget Hown)
          by (intros c' Hc'; congruence).
        apply (directory_ok_frame s); auto.
    + rewrite (reschedule_appointment_forbidden _ _ _ _ _ _ Hget Hne). exact Hok.
  - unfold reschedule_appointment. run_view. rewrite Hget.
    destruct (sqlite_int _); exact Hok.
Qed.

Lemma directory_ok_serve (s : Store) (r : Request) :
  directory_ok s -> directory_ok (serve s r).
Proof.
  intros Hok. unfold serve.
  destruct r; cbn [view_of];
    auto using directory_ok_register, directory_ok_create_doctor,
      directory_ok_serve_toggle_doctor, directory_ok_update_doctor,
      directory_ok_admin_update_patient, directory_ok_serve_toggle_patient,
      directory_ok_admin_update_appointment,
      directory_ok_update_appointment_status,
      directory_ok_update_availability, directory_ok_patient_profile,
      directory_ok_book_appointment, directory_ok_cancel_appointment,
      directory_ok_reschedule_appointment.
Qed.

(** Every database the application can produce satisfies the directory
    invariant. *)
Lemma reachable_directory_ok (s : Store) : reachable s -> directory_ok s.
Proof.
  induction 1 as [| s _ IH | s r _ IH].
  - exact directory_ok_empty.
  - apply directory_ok_init_db. exact IH.
  - apply directory_ok_serve. exact IH.
Qed.

(* ================================================================= *)
(** ** The schema's uniqueness constraints hold in every reachable database *)

Lemma schema_ok_frame (s s' : Store) :
  appointments s' = appointments s ->
  doctor_availability s' = doctor_availability s ->
  schema_ok s -> schema_ok s'.
Proof.
  intros Ha Hv [H1 H2 H3 H4].
  constructor;
    unfold uniq_doctor_slot, availability_pk, uniq_doctor_date_availability in *;
    rewrite ?Ha, ?Hv; assumption.
Qed.

Lemma schema_ok_status (s s' : Store) (pk : Z) (f : Appointment.t -> Appointment.t) :
  appointments s' = update Appointment.id pk f (appointments s) ->
  doctor_availability s' = doctor_availability s ->
  (forall a, Appointment.id (f a) = Appointment.id a) ->
  (forall a, slot_of (f a) = slot_of a) ->
  schema_ok s -> schema_ok s'.
Proof.
  intros Ha Hv Hid Hslot [H1 H2 H3 H4].
  constructor;
    unfold uniq_doctor_slot, availability_pk, uniq_doctor_date_availability in *;
    rewrite ?Ha, ?Hv; try assumption.
  - rewrite update_keys by exact Hid. exact H1.
  - rewrite update_proj by exact Hslot. exact H2.
Qed.

Lemma schema_ok_status_rows (s : Store) (pk : Z) (status : option string)
    (s' : Store) :
  appointments s' = status_rows pk status (appointments s) ->
  doctor_availability s' = doctor_availability s ->
  schema_ok s -> schema_ok s'.
Proof.
  unfold status_rows. intros Ha Hv Hok.
  destruct status as [name|]; [|apply (schema_ok_frame s); assumption].
  destruct (AppointmentStatus_getitem name) as [m|];
    [|apply (schema_ok_frame s); assumption].
  apply (schema_ok_status s s' pk (Appointment.set_status m)); auto.
Qed.

Lemma schema_ok_booked (s : Store) (p doc dep : Z) (d : date) (t : Time.t)
    (st : AppointmentStatus) (reason : string) :
  first (at_slot doc d t) (appointments s) = None ->
  schema_ok s ->
  schema_ok
    (set_appointments
       (appointments s ++
          [Appointment.mk (next_id Appointment.id (appointments s)) p doc dep
                          d t st reason]) s).
Proof.
  intros Hfree [H1 H2 H3 H4].
  constructor; unfold uniq_doctor_slot in *; simpl; try assumption.
  - rewrite map_app. simpl. apply NoDup_snoc; [exact H1 | apply next_id_fresh].
  - rewrite map_app. simpl. apply NoDup_snoc; [exact H2|].
    intros Hin. apply in_map_iff in Hin as (b & Hb & Hin).
    assert (Hocc : at_slot doc d t b = true)
      by (apply at_slot_occupies, occupies_slot_of; exact Hb).
    rewrite (first_None _ _ Hfree b Hin) in Hocc. discriminate.
Qed.

Lemma update_split {Row : Type} (key : Row -> Z) (pk : Z) (f : Row -> Row)
    (rows : list Row) (r : Row) :
  NoDup (map key rows) ->
  get key pk rows = Some r ->
  exists l1 l2, rows = l1 ++ r :: l2 /\
                update key pk f rows = l1 ++ f r :: l2.
Proof.
  intros Hnd Hget. pose proof (get_Some key _ _ _ Hget) as [Hin Hk].
  destruct (in_split _ _ Hin) as (l1 & l2 & ->).
  exists l1, l2. split; [reflexivity|].
  rewrite map_app in Hnd. simpl in Hnd.
  pose proof (NoDup_remove_2 _ _ _ Hnd) as Hnot.
  unfold update. rewrite map_app. simpl. rewrite Hk, Z.eqb_refl.
  assert (Hkeep : forall l, (forall x, In x l -> In (key x) (map key l1 ++ map key l2)) ->
            map (fun x => if key x =? pk then f x else x) l = l).
  { intros l Hl. rewrite <- (map_id l) at 2. apply map_ext_in.
    intros x Hx. destruct (Z.eqb_spec (key x) pk) as [E | _]; [|reflexivity].
    exfalso. apply Hnot. rewrite Hk, <- E. apply Hl. exact Hx. }
  rewrite !Hkeep; [reflexivity | |];
    intros x Hx; apply in_or_app; [right | left]; apply in_map; exact Hx.
Qed.

Lemma schema_ok_rescheduled (s : Store) (pk : Z) (nd : date) (nt : Time.t)
    (a : Appointment.t) :
  get Appointment.id pk (appointments s) = Some a ->
  (forall b, In b (appointments s) ->
             occupies (Appointment.doctor_id a) nd nt b ->
             Appointment.id b = Appointment.id a) ->
  schema_ok s ->
  schema_ok
    (set_appointments
       (update Appointment.id pk (rescheduled nd nt) (appointments s)) s).
Proof.
  intros Hget Hfree [H1 H2 H3 H4].
  constructor; unfold uniq_doctor_slot in *; simpl; try assumption.
  - rewrite update_keys by reflexivity. exact H1.
  - destruct (update_split Appointment.id pk (rescheduled nd nt) _ a H1 Hget)
      as (l1 & l2 & Hrows & ->).
    rewrite Hrows in H1, H2, Hfree.
    rewrite map_app in *. simpl in *.
    apply NoDup_remove in H2 as [H2 _].
    pose proof (NoDup_remove_2 _ _ _ H1) as Hfresh.
    rewrite <- map_app in Hfresh, H2.
    assert (Hnew : ~ In (Appointment.doctor_id a, nd, nt) (map slot_of (l1 ++ l2))).
    { intros Hin. apply in_map_iff in Hin as (b & Hb & Hin).
      apply occupies_slot_of in Hb.
      assert (Hin' : In b (l1 ++ a :: l2))
        by (apply in_or_app; apply in_app_or in Hin as [?|?]; simpl; auto).
      apply Hfresh. rewrite <- (Hfree b Hin' Hb). apply in_map. exact Hin. }
    rewrite map_app in Hnew, H2.
    apply NoDup_Add with (a := (Appointment.doctor_id a, nd, nt))
                         (l := map slot_of l1 ++ map slot_of l2).
    + apply Add_app.
    + split; assumption.
Qed.

Lemma schema_ok_availability (s : Store) (doc : Z) (d : date) (st en : Time.t) :
  schema_ok s ->
  schema_ok
    (set_doctor_availability
       (upsert_availability doc d st en (doctor_availability s)) s).
Proof.
  intros [H1 H2 H3 H4].
  destruct (upsert_availability_ok doc d st en s (conj H3 H4)) as [H3' H4'].
  constructor; assumption.
Qed.

(** Settles the views that write neither scheduling table. *)
Ltac directory_view Hok s :=
  run_view;
  repeat match goal with
         | |- context [get ?k ?pk ?rows] => destruct (get k pk rows); simpl
         | |- context [first ?p ?rows] => destruct (first p rows); simpl
         | |- context [sqlite_int ?z] => destruct (sqlite_int z); simpl
         end;
  try exact Hok; apply (schema_ok_frame s); auto; reflexivity.

Lemma schema_ok_serve (s : Store) (r : Request) :
  schema_ok s -> schema_ok (serve s r).
Proof.
  intros Hok. unfold serve. destruct r; cbn [view_of].
  - unfold register. directory_view Hok s.
  - unfold create_doctor. directory_view Hok s.
  - unfold toggle_doctor. directory_view Hok s.
  - unfold update_doctor. destruct department_value; directory_view Hok s.
  - unfold admin_update_patient. directory_view Hok s.
  - unfold toggle_patient. directory_view Hok s.
  - destruct (get Appointment.id appointment_id (appointments s)) as [a|] eqn:Hget.
    + rewrite (admin_update_appointment_run _ _ _ _ Hget).
      apply (schema_ok_status_rows s appointment_id status); auto.
    + unfold admin_update_appointment. run_view. rewrite Hget.
    destruct (sqlite_int _); exact Hok.
  - destruct (get Appointment.id appointment_id (appointments s)) as [a|] eqn:Hget.
    + destruct (Z.eq_dec (Appointment.doctor_id a) current_doctor) as [Hown | Hne].
      * rewrite (update_appointment_status_run _ _ _ _ _ _ _ _ Hget Hown).
        apply (schema_ok_status_rows s appointment_id status); auto.
      * rewrite (update_appointment_status_forbidden _ _ _ _ _ _ _ _ Hget Hne).
        exact Hok.
    + unfold update_appointment_status. run_view. rewrite Hget.
    destruct (sqlite_int _); exact Hok.
  - destruct (Z_le_dec today available_date) as [H1 | H1];
      [destruct (Z_le_dec available_date (today + 7)) as [H2 | H2] |].
    + rewrite update_availability_in_window by (unfold in_window; lia).
      apply schema_ok_availability. exact Hok.
    + rewrite update_availability_out_of_window by (unfold in_window; lia).
      exact Hok.
    + rewrite update_availability_out_of_window by (unfold in_window; lia).
      exact Hok.
  - unfold patient_profile. directory_view Hok s.
  - destruct (first (at_slot doctor_id appointment_date appointment_time)
                    (appointments s)) as [a|] eqn:E.
    + rewrite (book_appointment_conflict _ _ _ _ _ _ _ _ E). exact Hok.
    + destruct (sqlite_int doctor_id && sqlite_int department_id) eqn:Hrange.
      * apply andb_prop in Hrange as [Hdoc Hdep].
        rewrite (book_appointment_free _ _ _ _ _ _ _ E Hdoc Hdep).
        apply schema_ok_booked; assumption.
      * rewrite (book_appointment_overflow _ _ _ _ _ _ _ E Hrange). exact Hok.
  - destruct (get Appointment.id appointment_id (appointments s)) as [a|] eqn:Hget.
    + destruct (Z.eq_dec (Appointment.patient_id a) current_patient) as [Hown | Hne].
      * rewrite (cancel_appointment_owner _ _ _ _ Hget Hown).
        apply (schema_ok_status s _ appointment_id
                 (Appointment.set_status CANCELLED)); auto.
      * rewrite (cancel_appointment_forbidden _ _ _ _ Hget Hne). exact Hok.
    + unfold cancel_appointment. run_view. rewrite Hget.
    destruct (sqlite_int _); exact Hok.
  - destruct (get Appointment.id appointment_id (appointments s)) as [a|] eqn:Hget.
    + destruct (Z.eq_dec (Appointment.patient_id a) current_patient) as [Hown | Hne].
      * assert (Hmoved :
          (forall b, In b (appointments s) ->
                     occupies (Appointment.doctor_id a) new_date new_time b ->
                     Appointment.id b = Appointment.id a) ->
          schema_ok
            (store (handle (reschedule_appointment current_patient appointment_id
                              new_date new_time) s))).
        { intros Hfree.
          rewrite (reschedule_appointment_moved _ _ _ _ _ _ Hget Hown).
          - apply (schema_ok_rescheduled s _ _ _ a); assumption.
          - intros c Hc. apply first_Some in Hc as [Hin Hocc].
            apply Hfree; [exact Hin | apply at_slot_occupies; exact Hocc]. }
        destruct (first (at_slot (Appointment.doctor_id a) new_date new_time)
                        (appointments s)) as [c|] eqn:E.
        -- destruct (Z.eq_dec (Appointment.id c) (Appointment.id a))
             as [Hself | Hother].
           ++ apply Hmoved. intros b Hin Hocc.
              pose proof (first_Some _ _ _ E) as [Hc Hcocc].
              apply at_slot_occupies, occupies_slot_of in Hcocc.
              apply occupies_slot_of in Hocc.
              assert (c = b)
                by (apply (NoDup_map_eq slot_of (appointments s));
                    [apply (slots_unique s Hok) | | | ]; congruence).
              congruence.
           ++ rewrite (reschedule_appointment_blocked _ _ _ _ _ _ c
                         Hget Hown E Hother).
              exact Hok.
        -- apply Hmoved. intros b Hin Hocc. apply at_slot_occupies in Hocc.
           rewrite (first_None _ _ E b Hin) in Hocc. discriminate.
      * rewrite (reschedule_appointment_forbidden _ _ _ _ _ _ Hget Hne).
        exact Hok.
    + unfold reschedule_appointment. run_view. rewrite Hget.
    destruct (sqlite_int _); exact Hok.
Qed.

Lemma schema_ok_init_db (s : Store) : schema_ok s -> schema_ok (init_db s).
Proof.
  intros Hok.
  destruct (init_db_tables s) as (_ & _ & Hav & Happ & _).
  apply (schema_ok_frame s); auto.
Qed.

(** Every database the application can produce satisfies the uniqueness
    constraints of the scheduling tables. *)
Lemma reachable_schema_ok (s : Store) : reachable s -> schema_ok s.
Proof.
  induction 1 as [| s _ IH | s r _ IH].
  - constructor;
      unfold uniq_doctor_slot, availability_pk, uniq_doctor_date_availability;
      simpl; constructor.
  - apply schema_ok_init_db. exact IH.
  - apply schema_ok_serve. exact IH.
Qed.

Lemma reachable_serve_all (rs : list Request) (s : Store) :
  reachable s -> reachable (fold_left serve rs s).
Proof.
  revert s. induction rs as [|r rs IH]; simpl; intros s Hs; [exact Hs|].
  apply IH. apply reachable_serve. exact Hs.
Qed.

(** C8. In every database the application can produce, and for every
    doctor in it, one admin toggle succeeds and sets the doctor's active
    flag and the active flag of the user linked to the doctor to the
    negation of the doctor's previous flag, so that the two are equal
    afterwards; a second toggle brings the doctor's flag and the linked
    user's flag back to what they were, and indeed restores every
    modelled column of the store. *)
Theorem C8_toggle_doctor_twice
    (s : Store) (pk : Z) (d : Doctor.t) :
  reachable s ->
  get Doctor.id pk (doctors s) = Some d ->
  let s1 := serve s (ToggleDoctor pk) in
  let s2 := serve s1 (ToggleDoctor pk) in
  succeeded "admin_dashboard" "Doctor status updated." "info"
            (handle (toggle_doctor pk) s) /\
  doctor_active pk s1 = Some (negb (Doctor.is_active d)) /\
  linked_user_active pk s1 = Some (negb (Doctor.is_active d)) /\
  doctor_active pk s2 = doctor_active pk s /\
  linked_user_active pk s2 = linked_user_active pk s /\
  s2 = s.
Proof.
  intros Hreach Hd s1 s2.
  pose proof (reachable_directory_ok s Hreach) as Hok.
  assert (Hback : s2 = s) by (apply (toggle_doctor_twice s pk d Hok Hd)).
  pose proof (get_Some Doctor.id _ _ _ Hd) as [Hin _].
  destruct (linked_user s d Hok Hin) as (u & Hu & Hsync).
  assert (Hs1 : s1
    = set_users
        (update User.id (Doctor.user_id d)
                (User.set_is_active (negb (Doctor.is_active d))) (users s))
        (set_doctors
           (update Doctor.id pk
                   (Doctor.set_is_active (negb (Doctor.is_active d))) (doctors s))
           s)).
  { unfold s1, serve, view_of. rewrite (toggle_doctor_run s pk d u Hd Hu).
    reflexivity. }
  split; [|split; [|split; [|split; [|split]]]].
  - rewrite (toggle_doctor_run s pk d u Hd Hu). unfold succeeded; simpl. auto.
  - rewrite Hs1. unfold doctor_active. simpl.
    rewrite (get_update_same Doctor.id pk _ _ d) by (reflexivity || exact Hd).
    reflexivity.
  - rewrite Hs1. unfold linked_user_active. simpl.
    rewrite (get_update_same Doctor.id pk _ _ d) by (reflexivity || exact Hd).
    simpl.
    rewrite (get_update_same User.id _ _ _ u) by (reflexivity || exact Hu).
    reflexivity.
  - rewrite Hback. reflexivity.
  - rewrite Hback. reflexivity.
  - exact Hback.
Qed.

(** Outside the reachable databases the second half of the toggle law can
    fail: when the flags start out different, two toggles leave the linked
    user with the doctor's flag, not with its own original one. *)
Remark toggle_twice_needs_sync :
  linked_user_active 1 out_of_sync_store = Some false /\
  linked_user_active 1
    (serve (serve out_of_sync_store (ToggleDoctor 1)) (ToggleDoctor 1))
  = Some true /\
  ~ reachable out_of_sync_store.
Proof.
  split; [reflexivity|]. split; [reflexivity|].
  intros Hreach. apply reachable_directory_ok in Hreach.
  destruct (doctors_in_sync _ Hreach (Doctor.mk 1 1 1 "Cardiology" "R1" "Mon-Fri" true))
    as (u & Hu & _ & Hact); [simpl; auto|].
  destruct Hu as [<- | []]. discriminate Hact.
Qed.

(* ================================================================= *)
(** ** The properties on the sample database *)

Lemma sample_store_reachable : reachable sample_store.
Proof.
  unfold sample_store. apply reachable_serve_all.
  apply reachable_init_db, reachable_empty.
Defined.

(** Booking the slot of the cancelled appointment is refused. *)
Lemma C1_book_cancelled_slot_witness :
  slot_taken 1 738004 t1100 sample_store /\
  Appointment.status sample_cancelled = CANCELLED /\
  ConflictError_book
    (handle (book_appointment 1 1 1 738004 t1100 (Some "again")) sample_store) /\
  store (handle (book_appointment 1 1 1 738004 t1100 (Some "again")) sample_store)
  = sample_store.
Proof.
  assert (Htaken : slot_taken 1 738004 t1100 sample_store).
  { exists sample_cancelled. split.
    - vm_compute. right. left. reflexivity.
    - repeat split. }
  split; [exact Htaken|]. split; [reflexivity|].
  exact (proj1 (C1_book_conflict_or_created sample_store 1 1 1 738004 t1100
                  (Some "again")) Htaken).
Defined.

(** C1 as stated fails on a doctor id SQLite cannot bind: no appointment
    occupies the slot, yet the request ends with a 500 and no appointment
    is created. *)
Lemma C1_doctor_id_overflow_counterexample :
  first (at_slot 9223372036854775808 738002 t1000) (appointments sample_store)
  = None /\
  handle (book_appointment 1 9223372036854775808 1 738002 t1000 None)
         sample_store
  = mkOutcome (HTTPError 500) [] sample_store.
Proof. split; reflexivity. Qed.

(** The eighth day from today is outside the window. *)
Lemma C2_eighth_day_witness :
  OutOfWindowError
    (handle (update_availability 1 sample_today 738008 t0900 t1200) sample_store) /\
  store (handle (update_availability 1 sample_today 738008 t0900 t1200) sample_store)
  = sample_store.
Proof.
  pose proof (C2_availability_window sample_store 1 sample_today 738008
                t0900 t1200) as [Hiff Hsame].
  assert (Hout : OutOfWindowError
    (handle (update_availability 1 sample_today 738008 t0900 t1200) sample_store))
    by (apply Hiff; unfold sample_today; lia).
  split; [exact Hout | exact (Hsame Hout)].
Defined.

Lemma sample_availability_pk : availability_pk sample_store.
Proof. vm_compute. repeat constructor; simpl; intuition congruence. Defined.

Lemma sample_availability_unique : uniq_doctor_date_availability sample_store.
Proof. vm_compute. repeat constructor; simpl; intuition congruence. Defined.

(** Tomorrow 09:00-12:00, then tomorrow 13:00-17:00: one record, with the
    second call's times. *)
Lemma C3_second_call_overwrites_witness :
  exists r,
    availability_on 1 738001 (set_availability_all sample_calls sample_store) = [r] /\
    DoctorAvailability.start_time r = t1300 /\
    DoctorAvailability.end_time r = t1700.
Proof.
  destruct (C3_availability_upsert sample_store sample_calls
              sample_availability_pk sample_availability_unique)
    as (_ & _ & Hlast).
  apply (Hlast 1 738001 [mkCall 1 sample_today 738001 t0900 t1200]
               (mkCall 1 sample_today 738001 t1300 t1700) []).
  - reflexivity.
  - unfold sets, in_window, sample_today; simpl. lia.
  - intros c' [].
Defined.

Lemma sample_uniq_doctor_slot : uniq_doctor_slot sample_store.
Proof. vm_compute. repeat constructor; simpl; intuition congruence. Defined.

Lemma sample_get_completed :
  get Appointment.id 1 (appointments sample_store) = Some sample_completed.
Proof. vm_compute. reflexivity. Defined.

Lemma sample_get_cancelled :
  get Appointment.id 2 (appointments sample_store) = Some sample_cancelled.
Proof. vm_compute. reflexivity. Defined.

(** Appointment 1 can be rescheduled to its own slot, and not to the slot
    of appointment 2. *)
Lemma C4_self_reschedule_witness :
  succeeded "patient_dashboard" "Appointment rescheduled." "success"
    (handle (reschedule_appointment 1 1 738003 t1000) sample_store) /\
  ConflictError_reschedule
    (handle (reschedule_appointment 1 1 738004 t1100) sample_store).
Proof.
  split.
  - exact (proj2 (proj2
      (C4_reschedule_conflict_iff_other_appointment sample_store 1 1 738003 t1000
         sample_completed sample_uniq_doctor_slot sample_get_completed eq_refl))
      eq_refl eq_refl).
  - apply (proj1
      (C4_reschedule_conflict_iff_other_appointment sample_store 1 1 738004 t1100
         sample_completed sample_uniq_doctor_slot sample_get_completed eq_refl)).
    exists sample_cancelled. split; [vm_compute; auto|].
    split; [discriminate | repeat split].
Defined.

(** Rescheduling the cancelled appointment 2 to a free slot makes it
    Booked again. *)
Lemma C5_reactivation_witness :
  Appointment.status sample_cancelled = CANCELLED /\
  get Appointment.id 2
    (appointments
       (store (handle (reschedule_appointment 2 2 738005 t1300) sample_store)))
  = Some (Appointment.mk 2 2 1 1 738005 t1300 BOOKED "").
Proof.
  split; [reflexivity|].
  refine (proj1 (proj2
    (C5_reschedule_moves_and_rebooks sample_store 2 2 738005 t1300
       sample_cancelled sample_get_cancelled eq_refl _))).
  intros b Hin (_ & Hdate & _). vm_compute in Hin.
  destruct Hin as [<- | [<- | []]]; [discriminate Hdate | reflexivity].
Defined.

(** Patient 1 cancels the completed appointment 1; patient 2 may not. *)
Lemma C6_cancel_completed_witness :
  get Appointment.id 1
    (appointments (store (handle (cancel_appointment 1 1) sample_store)))
  = Some (Appointment.mk 1 1 1 1 738003 t1000 CANCELLED "checkup") /\
  handle (cancel_appointment 1 1)
         (store (handle (cancel_appointment 1 1) sample_store))
  = handle (cancel_appointment 1 1) sample_store /\
  ForbiddenError (handle (cancel_appointment 2 1) sample_store).
Proof.
  pose proof (C6_cancel_owner_only_idempotent sample_store 1 1 sample_completed
                sample_get_completed) as (_ & _ & Hown).
  destruct (Hown eq_refl) as (_ & Hget & _ & Hidem).
  split; [exact Hget|]. split; [exact Hidem|].
  apply (proj1 (C6_cancel_owner_only_idempotent sample_store 2 1 sample_completed
                  sample_get_completed)).
  simpl. discriminate.
Defined.

(** Doctor 1 rewrites the note of appointment 1 with empty fields and no
    recognized status; doctor 2 is refused. *)
Lemma C7_overwrite_with_empty_witness :
  treatment_note 1 sample_store = Some (TreatmentNote.mk 1 1 "Flu" "Rest" "") /\
  (exists n,
     treatment_note 1
       (store (handle (update_appointment_status 1 1 (Some "Completed")
                         (Some "") None (Some "")) sample_store)) = Some n /\
     TreatmentNote.id n = 1 /\
     TreatmentNote.diagnosis n = "" /\
     TreatmentNote.prescription n = "" /\
     TreatmentNote.notes n = "") /\
  ForbiddenError
    (handle (update_appointment_status 2 1 (Some "CANCELLED") None None None)
            sample_store).
Proof.
  split; [reflexivity|]. split.
  - destruct (proj2 (C7_clinical_update sample_store 1 1 sample_completed
                       (Some "Completed") (Some "") None (Some "")
                       sample_get_completed) eq_refl)
      as (_ & _ & _ & _ & n & Hn & Hdg & Hpr & Hnt & _ & Hold).
    exists n. destruct (Hold _ eq_refl) as [Hid _]. auto.
  - apply (proj1 (C7_clinical_update sample_store 2 1 sample_completed
                    (Some "CANCELLED") None None None sample_get_completed)).
    simpl. discriminate.
Defined.

Lemma sample_get_doctor :
  get Doctor.id 1 (doctors sample_store)
  = Some (Doctor.mk 1 2 1 "Cardiology" "R1" "Mon-Fri" true).
Proof. vm_compute. reflexivity. Defined.

(** Toggling doctor 1 deactivates the doctor and the linked user; a
    second toggle restores the store. *)
Lemma C8_toggle_witness :
  doctor_active 1 (serve sample_store (ToggleDoctor 1)) = Some false /\
  linked_user_active 1 (serve sample_store (ToggleDoctor 1)) = Some false /\
  serve (serve sample_store (ToggleDoctor 1)) (ToggleDoctor 1) = sample_store.
Proof.
  destruct (C8_toggle_doctor_twice sample_store 1 _ sample_store_reachable
              sample_get_doctor)
    as (_ & H1 & H2 & _ & _ & H3).
  split; [exact H1|]. split; [exact H2 | exact H3].
Defined.

(** The stored value "Completed" is not a member name: both operations
    report success and the appointment stays Cancelled. *)
Lemma C9_value_string_witness :
  recognized (Some "Completed") = false /\
  succeeded "admin_dashboard" "Appointment status updated." "success"
    (handle (admin_update_appointment 2 (Some "Completed")) sample_store) /\
  store (handle (admin_update_appointment 2 (Some "Completed")) sample_store)
  = sample_store /\
  get Appointment.id 2
    (appointments
       (store (handle (update_appointment_status 1 2 (Some "Completed")
                         None None None) sample_store)))
  = Some sample_cancelled.
Proof.
  destruct (C9_unrecognized_status_is_ignored sample_store 2 sample_cancelled
              (Some "Completed") sample_get_cancelled eq_refl)
    as [[Hok Hsame] Hdoctor].
  split; [reflexivity|]. split; [exact Hok|]. split; [exact Hsame|].
  destruct (Hdoctor 1 None None None eq_refl) as (_ & _ & Hget). exact Hget.
Defined.

(** Doctor 2 is deactivated and has declared no availability, and no
    doctor has id 99: both can be booked on a free slot. *)
Lemma C10_deactivated_doctor_witness :
  doctor_active 2 sample_store = Some false /\
  availability_on 2 738002 sample_store = [] /\
  doctor_active 99 sample_store = None /\
  succeeded "patient_dashboard" "Appointment booked successfully." "success"
    (handle (book_appointment 1 2 2 738002 t1000 None) sample_store) /\
  succeeded "patient_dashboard" "Appointment booked successfully." "success"
    (handle (book_appointment 1 99 2 738002 t1000 None) sample_store).
Proof.
  assert (Hfree : forall doc, doc <> 1 -> ~ slot_taken doc 738002 t1000 sample_store).
  { intros doc Hne (a & Hin & Hdoc & _). vm_compute in Hin.
    destruct Hin as [<- | [<- | []]]; simpl in Hdoc; congruence. }
  split; [reflexivity|]. split; [reflexivity|]. split; [reflexivity|]. split.
  - exact (proj1 (C10_book_ignores_availability_and_active_flag sample_store
                    1 2 2 738002 t1000 None (doctors sample_store)
                    (doctor_availability sample_store) (Hfree 2 ltac:(lia))
                    eq_refl eq_refl)).
  - exact (proj1 (C10_book_ignores_availability_and_active_flag sample_store
                    1 99 2 738002 t1000 None (doctors sample_store)
                    (doctor_availability sample_store) (Hfree 99 ltac:(lia))
                    eq_refl eq_refl)).
Defined.

(** C10 as stated fails for a doctor id SQLite cannot bind: the slot has
    no appointment, the booking does not succeed and the appointments
    table is as it was. *)
Lemma C10_any_doctor_id_counterexample :
  existsb (at_slot 18446744073709551616 738005 t0900) (appointments sample_store)
  = false /\
  response (handle (book_appointment 2 18446744073709551616 2 738005 t0900
                      (Some "checkup")) sample_store)
  = HTTPError 500 /\
  appointments
    (store (handle (book_appointment 2 18446744073709551616 2 738005 t0900
                      (Some "checkup")) sample_store))
  = appointments sample_store.
Proof. repeat split; reflexivity. Qed.

(* ================================================================= *)
(** ** Every request, case by case *)

(** Reduces the session bookkeeping of a view that has been run. *)
Ltac step_view :=
  cbv beta iota zeta delta [db session flashes response flashed store].

(** Runs the view of a request and splits on every query and test it
    branches on, leaving the committed store of each branch. *)
Ltac split_view :=
  cbv [serve view_of register create_doctor toggle_doctor update_doctor
       admin_update_patient toggle_patient admin_update_appointment
       update_appointment_status update_availability patient_profile
       book_appointment cancel_appointment reschedule_appointment];
  run_view; step_view;
  repeat (first
    [ rewrite apply_status_run
    | match goal with
      | |- context [get ?k ?pk ?rows] => destruct (get k pk rows) eqn:?
      | |- context [first ?p ?rows] => destruct (first p rows) eqn:?
      | |- context [negb (?a =? ?b)] => destruct (a =? b) eqn:?
      | |- context [negb ((?a <=? ?b) && (?c <=? ?d))] =>
          destruct ((a <=? b) && (c <=? d)) eqn:?
      | |- context [match ?d with Absent => _ | Unparsable => _ | Parsed _ => _ end] =>
          destruct d
      | |- context [treatment_note ?pk ?st] => destruct (treatment_note pk st) eqn:?
      | |- context [sqlite_int ?z] => destruct (sqlite_int z) eqn:?
      end ]; cbn [negb]; step_view).

Lemma evolves_refl {Row : Type} (same : Row -> Row -> Prop) (rows : list Row) :
  (forall r, same r r) -> evolves same rows rows.
Proof.
  intros Hrefl. exists (fun r => r), []. rewrite map_id, app_nil_r. auto.
Qed.

Lemma evolves_snoc {Row : Type} (same : Row -> Row -> Prop) (rows : list Row)
    (x : Row) :
  (forall r, same r r) -> evolves same rows (rows ++ [x]).
Proof.
  intros Hrefl. exists (fun r => r), [x]. rewrite map_id. auto.
Qed.

Lemma evolves_map {Row : Type} (same : Row -> Row -> Prop) (rows : list Row)
    (g : Row -> Row) :
  (forall r, same r (g r)) -> evolves same rows (map g rows).
Proof.
  intros Hg. exists g, []. rewrite app_nil_r. auto.
Qed.

(** Closes a goal [evolves same rows rows'] once [rows'] is explicit. *)
Ltac solve_evolves :=
  unfold status_rows;
  repeat match goal with
         | |- context [match ?x with Some _ => _ | None => _ end] => destruct x
         end;
  unfold update; rewrite ?map_map;
  first
    [ apply evolves_refl; intros r; repeat split
    | apply evolves_snoc; intros r; repeat split
    | apply evolves_map; intros r; cbn beta;
      repeat destruct (_ =? _); repeat split ].

(** What a request can do to each table: rows stay where they are, keep
    the columns listed in [same_user] ... [same_note], and new rows go to
    the end. *)
Lemma serve_evolves (s : Store) (r : Request) :
  evolves same_user (users s) (users (serve s r)) /\
  evolves same_doctor (doctors s) (doctors (serve s r)) /\
  evolves same_patient (patients s) (patients (serve s r)) /\
  evolves same_availability (doctor_availability s)
          (doctor_availability (serve s r)) /\
  evolves same_appointment (appointments s) (appointments (serve s r)) /\
  evolves same_note (treatment_notes s) (treatment_notes (serve s r)).
Proof.
  destruct r; split_view;
    cbn [users doctors patients doctor_availability appointments treatment_notes
         set_users set_doctors set_patients set_doctor_availability
         set_appointments set_treatment_notes];
    repeat split; solve_evolves.
Qed.

Lemma evolves_trans {Row : Type} (same : Row -> Row -> Prop)
    (rows rows' rows'' : list Row) :
  (forall a b c, same a b -> same b c -> same a c) ->
  evolves same rows rows' -> evolves same rows' rows'' ->
  evolves same rows rows''.
Proof.
  intros Htrans (g1 & e1 & -> & H1) (g2 & e2 & -> & H2).
  exists (fun r => g2 (g1 r)), (map g2 e1 ++ e2).
  rewrite map_app, map_map, app_assoc. split; [reflexivity|].
  intros r. apply (Htrans _ (g1 r)); auto.
Qed.

Lemma evolves_In {Row : Type} (same : Row -> Row -> Prop) (rows rows' : list Row)
    (r : Row) :
  evolves same rows rows' -> In r rows ->
  exists r', In r' rows' /\ same r r'.
Proof.
  intros (g & extra & -> & Hg) Hin. exists (g r). split; [|apply Hg].
  apply in_or_app. left. apply in_map. exact Hin.
Qed.

(** The same, for any sequence of requests. *)
Lemma serve_all_evolves (rs : list Request) (s : Store) :
  evolves same_user (users s) (users (fold_left serve rs s)) /\
  evolves same_doctor (doctors s) (doctors (fold_left serve rs s)) /\
  evolves same_patient (patients s) (patients (fold_left serve rs s)) /\
  evolves same_availability (doctor_availability s)
          (doctor_availability (fold_left serve rs s)) /\
  evolves same_appointment (appointments s)
          (appointments (fold_left serve rs s)) /\
  evolves same_note (treatment_notes s) (treatment_notes (fold_left serve rs s)).
Proof.
  revert s. induction rs as [|r rs IH]; intros s; simpl.
  - repeat split; apply evolves_refl; intros x; repeat split.
  - destruct (serve_evolves s r) as (H1 & H2 & H3 & H4 & H5 & H6).
    destruct (IH (serve s r)) as (K1 & K2 & K3 & K4 & K5 & K6).
    repeat split;
      match goal with
      | |- evolves ?same _ _ =>
          eapply (evolves_trans same); [| eassumption | eassumption]
      end;
      unfold same_user, same_doctor, same_patient, same_availability,
        same_appointment, same_note;
      intros a b c Hab Hbc; intuition congruence.
Qed.

(** X1. Over any sequence of requests the appointments table only grows:
    the appointments present at the start are still there, in the same
    positions and before every appointment booked since, each with the id,
    patient, doctor, department and reason it had.  No appointment is ever
    deleted or handed to another patient or doctor. *)
Theorem X1_appointments_are_kept (rs : list Request) (s : Store) :
  (exists g extra,
     appointments (fold_left serve rs s) = map g (appointments s) ++ extra /\
     forall a,
       Appointment.id (g a) = Appointment.id a /\
       Appointment.patient_id (g a) = Appointment.patient_id a /\
       Appointment.doctor_id (g a) = Appointment.doctor_id a /\
       Appointment.department_id (g a) = Appointment.department_id a /\
       Appointment.reason (g a) = Appointment.reason a)
  /\
  (forall a, In a (appointments s) ->
     exists a', In a' (appointments (fold_left serve rs s)) /\
                same_appointment a a').
Proof.
  destruct (serve_all_evolves rs s) as (_ & _ & _ & _ & H & _).
  split; [exact H|].
  intros a Hin. exact (evolves_In _ _ _ a H Hin).
Qed.

(** X2. Over any sequence of requests no user, doctor, patient,
    availability record or treatment note is deleted or reordered, a user
    keeps its id, email and role, a doctor or patient profile stays linked
    to the same user, an availability record stays with its doctor and
    date, and a note stays with its appointment. *)
Theorem X2_rows_are_kept (rs : list Request) (s : Store) :
  evolves same_user (users s) (users (fold_left serve rs s)) /\
  evolves same_doctor (doctors s) (doctors (fold_left serve rs s)) /\
  evolves same_patient (patients s) (patients (fold_left serve rs s)) /\
  evolves same_availability (doctor_availability s)
          (doctor_availability (fold_left serve rs s)) /\
  evolves same_note (treatment_notes s) (treatment_notes (fold_left serve rs s)).
Proof.
  destruct (serve_all_evolves rs s) as (H1 & H2 & H3 & H4 & _ & H6).
  auto.
Qed.

(** The tables a request's view leaves untouched. *)
Lemma serve_footprint (s : Store) (r : Request) :
  (~ In Users (footprint r) -> users (serve s r) = users s) /\
  (~ In Doctors (footprint r) -> doctors (serve s r) = doctors s) /\
  (~ In Patients (footprint r) -> patients (serve s r) = patients s) /\
  (~ In Availability (footprint r) ->
   doctor_availability (serve s r) = doctor_availability s) /\
  (~ In Appointments (footprint r) -> appointments (serve s r) = appointments s) /\
  (~ In Notes (footprint r) -> treatment_notes (serve s r) = treatment_notes s).
Proof.
  destruct r; split_view;
    cbn [users doctors patients doctor_availability appointments treatment_notes
         set_users set_doctors set_patients set_doctor_availability
         set_appointments set_treatment_notes footprint];
    repeat split; intros Hout; try reflexivity;
    exfalso; apply Hout; simpl; auto 10.
Qed.

(** X3. A request writes only the tables of its footprint: registration
    and the profile views write users and patients, the doctor directory
    views write users and doctors, the patient toggle writes users, the
    availability view writes the availability table and nothing else (no
    appointment is touched), booking, cancelling, rescheduling and the
    admin override write appointments only, and the clinical update
    writes appointments and notes. *)
Theorem X3_request_footprint (s : Store) (r : Request) :
  (~ In Users (footprint r) -> users (serve s r) = users s) /\
  (~ In Doctors (footprint r) -> doctors (serve s r) = doctors s) /\
  (~ In Patients (footprint r) -> patients (serve s r) = patients s) /\
  (~ In Availability (footprint r) ->
   doctor_availability (serve s r) = doctor_availability s) /\
  (~ In Appointments (footprint r) -> appointments (serve s r) = appointments s) /\
  (~ In Notes (footprint r) -> treatment_notes (serve s r) = treatment_notes s).
Proof. exact (serve_footprint s r). Qed.

(* ================================================================= *)
(** ** Missing rows *)

(** X4. Every view that loads its target by primary key, asked for a
    key no row has, stores nothing and flashes nothing, whoever asks and
    whatever the form holds.  It answers 404 when the key is an integer
    SQLite can hold; a key outside the signed 64-bit range cannot be bound
    to the lookup and the request ends with a 500. *)
Theorem X4_missing_row_is_404 (s : Store) (pk : Z) :
  not_found_code pk = (if sqlite_int pk then 404 else 500) /\
  (get Doctor.id pk (doctors s) = None ->
     handle (toggle_doctor pk) s
     = mkOutcome (HTTPError (not_found_code pk)) [] s /\
     forall n p sp dep room av,
       handle (update_doctor pk n p sp dep room av) s
       = mkOutcome (HTTPError (not_found_code pk)) [] s)
  /\
  (get Patient.id pk (patients s) = None ->
     handle (toggle_patient pk) s
     = mkOutcome (HTTPError (not_found_code pk)) [] s /\
     forall n ph ad bg,
       handle (admin_update_patient pk n ph ad bg) s
       = mkOutcome (HTTPError (not_found_code pk)) [] s)
  /\
  (get Appointment.id pk (appointments s) = None ->
     (forall status,
        handle (admin_update_appointment pk status) s
        = mkOutcome (HTTPError (not_found_code pk)) [] s) /\
     (forall cd status dg pr nt,
        handle (update_appointment_status cd pk status dg pr nt) s
        = mkOutcome (HTTPError (not_found_code pk)) [] s) /\
     (forall p,
        handle (cancel_appointment p pk) s
        = mkOutcome (HTTPError (not_found_code pk)) [] s) /\
     (forall p nd nt,
        handle (reschedule_appointment p pk nd nt) s
        = mkOutcome (HTTPError (not_found_code pk)) [] s)).
Proof.
  split; [reflexivity|].
  split; [|split]; intros Hnone.
  - split; [apply toggle_doctor_not_found; exact Hnone|].
    intros. unfold update_doctor, not_found_code. run_view. rewrite Hnone.
    destruct (sqlite_int pk); reflexivity.
  - split; [|intros]; [unfold toggle_patient | unfold admin_update_patient];
      unfold not_found_code; run_view; rewrite Hnone;
      destruct (sqlite_int pk); reflexivity.
  - repeat split; intros;
      [ unfold admin_update_appointment | unfold update_appointment_status
      | unfold cancel_appointment | unfold reschedule_appointment ];
      unfold not_found_code; run_view; rewrite Hnone;
      destruct (sqlite_int pk); reflexivity.
Qed.

(* ================================================================= *)
(** ** Accounts *)

Lemma has_email_first (e : string) (rows : list User.t) :
  (exists u, In u rows /\ User.email u = e) <->
  exists u, first (has_email e) rows = Some u.
Proof.
  split.
  - intros (u & Hin & He).
    destruct (first (has_email e) rows) as [v|] eqn:E; [eauto|].
    pose proof (first_None _ _ E u Hin) as Hf. unfold has_email in Hf.
    rewrite He, String.eqb_refl in Hf. discriminate.
  - intros (u & E). apply first_Some in E as [Hin He].
    exists u. split; [exact Hin | apply String.eqb_eq; exact He].
Qed.

Lemma email_free_first (e : string) (rows : list User.t) :
  ~ In e (map User.email rows) -> first (has_email e) rows = None.
Proof.
  intros Hfree. destruct (first (has_email e) rows) as [u|] eqn:E; [|reflexivity].
  exfalso. apply Hfree. apply first_Some in E as [Hin He].
  apply String.eqb_eq in He. rewrite <- He. apply in_map. exact Hin.
Qed.

Lemma email_taken_first (e : string) (rows : list User.t) :
  In e (map User.email rows) -> exists u, first (has_email e) rows = Some u.
Proof.
  intros Hin. apply has_email_first. apply in_map_iff in Hin as (u & He & Hin).
  eauto.
Qed.

(** X5. [register] trims the submitted name and trims and lower-cases
    the submitted email before it uses them.  When some user already has
    that normalised email the view flashes the warning and changes
    nothing.  Otherwise it commits exactly one user -- role patient,
    active, with the trimmed name, the normalised email and the phone as
    submitted -- and one patient profile linked to that user, both under
    fresh ids. *)
Theorem X5_register (s : Store) (n e p : string) :
  (In (lower (strip e)) (map User.email (users s)) ->
     handle (register n e p) s
     = mkOutcome (Redirect "register") [("Email already registered.", "warning")] s)
  /\
  (~ In (lower (strip e)) (map User.email (users s)) ->
     handle (register n e p) s
     = mkOutcome (Redirect "login")
         [("Registration successful. Please login.", "success")]
         (set_patients
            (patients s ++
               [Patient.mk (next_id Patient.id (patients s))
                           (next_id User.id (users s)) None None None])
            (set_users
               (users s ++
                  [User.mk (next_id User.id (users s)) (strip n)
                           (lower (strip e)) p "patient" true])
               s)) /\
     ~ In (next_id User.id (users s)) (map User.id (users s)) /\
     ~ In (next_id Patient.id (patients s)) (map Patient.id (patients s))).
Proof.
  split.
  - intros Htaken. apply email_taken_first in Htaken as (u & E).
    unfold register. run_view. rewrite E. reflexivity.
  - intros Hfree. apply email_free_first in Hfree.
    split; [|split; apply next_id_fresh].
    unfold register. run_view. rewrite Hfree. reflexivity.
Qed.

(** X6. [create_doctor] trims the submitted name and specialization and
    trims and lower-cases the submitted email.  When some user already
    has that normalised email the view flashes the warning and changes
    nothing.  Otherwise, with a department id SQLite can hold, it commits
    one user with role doctor and one doctor profile linked to it, both
    active, with the normalised fields, under fresh ids; with a
    department id outside that range the commit raises, the answer is 500
    and nothing is stored. *)
Theorem X6_create_doctor (s : Store) (n e p sp : string) (dep : Z)
    (room av : string) :
  (In (lower (strip e)) (map User.email (users s)) ->
     handle (create_doctor n e p sp dep room av) s
     = mkOutcome (Redirect "admin_dashboard")
                 [("Doctor email already exists.", "warning")] s)
  /\
  (~ In (lower (strip e)) (map User.email (users s)) ->
   sqlite_int dep = true ->
     handle (create_doctor n e p sp dep room av) s
     = mkOutcome (Redirect "admin_dashboard")
         [("Doctor profile created.", "success")]
         (set_doctors
            (doctors s ++
               [Doctor.mk (next_id Doctor.id (doctors s))
                          (next_id User.id (users s)) dep (strip sp) room av
                          true])
            (set_users
               (users s ++
                  [User.mk (next_id User.id (users s)) (strip n)
                           (lower (strip e)) p "doctor" true])
               s)) /\
     ~ In (next_id User.id (users s)) (map User.id (users s)) /\
     ~ In (next_id Doctor.id (doctors s)) (map Doctor.id (doctors s)))
  /\
  (~ In (lower (strip e)) (map User.email (users s)) ->
   sqlite_int dep = false ->
     handle (create_doctor n e p sp dep room av) s
     = mkOutcome (HTTPError 500) [] s).
Proof.
  split; [|split].
  - intros Htaken. apply email_taken_first in Htaken as (u & E).
    unfold create_doctor. run_view. rewrite E. reflexivity.
  - intros Hfree Hdep. apply email_free_first in Hfree.
    split; [|split; apply next_id_fresh].
    unfold create_doctor. run_view. rewrite Hfree, Hdep. reflexivity.
  - intros Hfree Hdep. apply email_free_first in Hfree.
    unfold create_doctor. run_view. rewrite Hfree, Hdep. reflexivity.
Qed.

(* ================================================================= *)
(** ** Start-up, the administrator and email uniqueness *)

Lemma has_admin_first (s : Store) :
  has_admin s <->
  exists u, first (fun u => String.eqb (User.role u) (UserRole_value ADMIN))
                  (users s) = Some u.
Proof.
  split.
  - intros (u & Hin & Hrole).
    destruct (first _ (users s)) as [v|] eqn:E; [eauto|].
    pose proof (first_None _ _ E u Hin) as Hf. simpl in Hf.
    rewrite Hrole, String.eqb_refl in Hf. discriminate.
  - intros (u & E). apply first_Some in E as [Hin Hrole].
    apply String.eqb_eq in Hrole. exists u. auto.
Qed.

(** With an administrator in the users table [init_db] touches the
    departments only, and only when there are none. *)
Lemma init_db_with_admin (s : Store) :
  has_admin s -> departments s <> [] -> init_db s = s.
Proof.
  intros Hadmin Hdep. apply has_admin_first in Hadmin as (u & E).
  unfold init_db.
  destruct (departments s) as [|d ds]; [congruence|].
  cbv beta iota zeta. rewrite E. reflexivity.
Qed.

Lemma init_db_departments (s : Store) : departments (init_db s) <> [].
Proof.
  unfold init_db.
  destruct (departments s) as [|d ds] eqn:Hd; cbv zeta;
    repeat match goal with
           | |- context [match first ?f ?l with _ => _ end] =>
               destruct (first f l)
           end; simpl; try rewrite Hd; discriminate.
Qed.

Lemma has_admin_users (s s' : Store) :
  users s' = users s -> has_admin s -> has_admin s'.
Proof. unfold has_admin. intros ->. auto. Qed.

(** [init_db] raises exactly when [init_db_raises] says so; otherwise it
    leaves an administrator behind. *)
Lemma init_db_has_admin (s : Store) :
  init_db_raises s = false -> has_admin (init_db s).
Proof.
  unfold init_db_raises. intros Hraises.
  pose proof (init_db_users s) as Hu.
  destruct (first (fun u => String.eqb (User.role u) (UserRole_value ADMIN))
                  (users s)) as [v|] eqn:E.
  - apply (has_admin_users s); [exact Hu|]. apply has_admin_first. eauto.
  - destruct (first (fun u => String.eqb (User.email u) "admin@hms.local")
                    (users s)) as [w|] eqn:E'; [discriminate|].
    exists (User.mk (next_id User.id (users s)) "Hospital Admin"
                    "admin@hms.local" "0000000000" (UserRole_value ADMIN) true).
    split; [rewrite Hu; apply in_or_app; right; left; reflexivity|].
    reflexivity.
Qed.

Lemma init_db_raised (s : Store) :
  init_db_raises s = true ->
  users (init_db s) = users s /\ ~ has_admin (init_db s).
Proof.
  unfold init_db_raises. intros Hraises.
  pose proof (init_db_users s) as Hu.
  destruct (first (fun u => String.eqb (User.role u) (UserRole_value ADMIN))
                  (users s)) as [v|] eqn:E; [discriminate|].
  destruct (first (fun u => String.eqb (User.email u) "admin@hms.local")
                  (users s)) as [w|] eqn:E'; [|discriminate].
  split; [exact Hu|]. intros Hadmin.
  apply has_admin_first in Hadmin as (u & Hu'). rewrite Hu in Hu'. congruence.
Qed.

Lemma serve_has_admin (s : Store) (r : Request) :
  has_admin s -> has_admin (serve s r).
Proof.
  intros (u & Hin & Hrole).
  destruct (serve_evolves s r) as (Hu & _).
  destruct (evolves_In _ _ _ u Hu Hin) as (u' & Hin' & _ & _ & Hrole').
  exists u'. split; [exact Hin' | congruence].
Qed.

Lemma serve_departments (s : Store) (r : Request) :
  departments (serve s r) = departments s.
Proof. destruct r; split_view; reflexivity. Qed.

Lemma init_db_empty_store_has_admin : has_admin (init_db empty_store).
Proof. apply init_db_has_admin. reflexivity. Qed.

(** A running application has an administrator and its departments, so
    that a restart finds nothing to add. *)
Lemma started_seeded (s : Store) :
  started s -> has_admin s /\ departments s <> [].
Proof.
  induction 1 as [| s _ [IHa IHd] | s r _ [IHa IHd]].
  - split; [apply init_db_empty_store_has_admin | apply init_db_departments].
  - rewrite (init_db_with_admin s IHa IHd). auto.
  - split; [apply serve_has_admin; exact IHa|].
    rewrite serve_departments. exact IHd.
Qed.

Lemma started_has_admin (s : Store) : started s -> has_admin s.
Proof. intros Hs. apply (started_seeded s Hs). Qed.

Lemma started_init_db (s : Store) : started s -> init_db s = s.
Proof.
  intros Hs. destruct (started_seeded s Hs) as [Ha Hd].
  apply init_db_with_admin; assumption.
Qed.

Lemma serve_uniq_email (s : Store) (r : Request) :
  uniq_email s -> uniq_email (serve s r).
Proof.
  unfold uniq_email. intros Hok.
  destruct r; split_view;
    cbn [users set_users set_doctors set_patients set_doctor_availability
         set_appointments set_treatment_notes];
    first
      [ exact Hok
      | rewrite !update_proj by reflexivity; exact Hok
      | rewrite map_app; apply NoDup_snoc; [exact Hok|];
        cbn; intros Hin; apply email_taken_first in Hin as [u E]; congruence ].
Qed.

Lemma started_uniq_email (s : Store) : started s -> uniq_email s.
Proof.
  induction 1 as [| s Hs IH | s r _ IH].
  - unfold uniq_email. simpl. repeat constructor. intros [].
  - rewrite (started_init_db s Hs). exact IH.
  - apply serve_uniq_email. exact IH.
Qed.

Lemma started_serve_all (rs : list Request) (s : Store) :
  started s -> started (fold_left serve rs s).
Proof.
  revert s. induction rs as [|r rs IH]; simpl; intros s Hs; [exact Hs|].
  apply IH. apply started_serve. exact Hs.
Qed.

Lemma started_reachable (s : Store) : started s -> reachable s.
Proof.
  induction 1 as [| s _ IH | s r _ IH].
  - apply reachable_init_db, reachable_empty.
  - apply reachable_init_db. exact IH.
  - apply reachable_serve. exact IH.
Qed.

(** Every doctor id stored with an appointment went through [bind_int],
    so that a booking request for a doctor id SQLite cannot bind never
    meets an occupied slot: testing the range where the lookup has come
    back empty is testing it before the lookup. *)
Lemma serve_doctor_ids_bound (s : Store) (r : Request) :
  Forall (fun z => sqlite_int z = true)
         (map Appointment.doctor_id (appointments s)) ->
  Forall (fun z => sqlite_int z = true)
         (map Appointment.doctor_id (appointments (serve s r))).
Proof.
  intros Hok.
  destruct r;
    try (split_view;
         cbn [appointments set_users set_doctors set_patients
              set_doctor_availability set_appointments set_treatment_notes];
         first [ exact Hok
               | unfold status_rows; destruct status as [name|];
                 [destruct (AppointmentStatus_getitem name)|];
                 rewrite ?update_proj by reflexivity; exact Hok
               | rewrite !update_proj by reflexivity; exact Hok ]).
  unfold serve, view_of.
  destruct (first (at_slot doctor_id appointment_date appointment_time)
                  (appointments s)) as [a|] eqn:E.
  - rewrite (book_appointment_conflict _ _ _ _ _ _ _ _ E). exact Hok.
  - destruct (sqlite_int doctor_id && sqlite_int department_id) eqn:Hrange.
    + apply andb_prop in Hrange as [Hdoc Hdep].
      rewrite (book_appointment_free _ _ _ _ _ _ _ E Hdoc Hdep). simpl.
      rewrite map_app. apply Forall_app. split; [exact Hok|].
      repeat constructor. exact Hdoc.
    + rewrite (book_appointment_overflow _ _ _ _ _ _ _ E Hrange). exact Hok.
Qed.

Lemma reachable_doctor_ids_bound (s : Store) :
  reachable s ->
  Forall (fun z => sqlite_int z = true)
         (map Appointment.doctor_id (appointments s)).
Proof.
  induction 1 as [| s _ IH | s r _ IH].
  - constructor.
  - destruct (init_db_tables s) as (_ & _ & _ & Ha & _). rewrite Ha. exact IH.
  - apply serve_doctor_ids_bound. exact IH.
Qed.

Lemma taken_slot_is_bound (s : Store) (doc : Z) (d : date) (t : Time.t) :
  reachable s -> slot_taken doc d t s -> sqlite_int doc = true.
Proof.
  intros Hs (a & Hin & Hdoc & _).
  pose proof (reachable_doctor_ids_bound s Hs) as Hok.
  rewrite Forall_forall in Hok. rewrite <- Hdoc. apply Hok.
  apply in_map. exact Hin.
Qed.

Lemma init_db_idempotent (s : Store) : init_db (init_db s) = init_db s.
Proof.
  destruct (init_db_raises s) eqn:Hraises.
  - destruct (init_db_raised s Hraises) as [Hu Hno].
    unfold init_db_raises in Hraises.
    destruct (first (fun u => String.eqb (User.role u) (UserRole_value ADMIN))
                    (users s)) as [v|] eqn:E; [discriminate|].
    destruct (first (fun u => String.eqb (User.email u) "admin@hms.local")
                    (users s)) as [w|] eqn:E'; [|discriminate].
    pose proof (init_db_departments s) as Hd.
    unfold init_db at 1.
    destruct (departments (init_db s)) as [|d ds]; [congruence|].
    cbv beta iota zeta. rewrite Hu, E, E'. reflexivity.
  - apply init_db_with_admin;
      [apply init_db_has_admin; exact Hraises | apply init_db_departments].
Qed.

(** X7. [init_db] seeds the five default departments when the table is
    empty and adds the administrator account when no user has the admin
    role.  The insert of the account violates the unique constraint on
    [users.email], and start-up fails with the users table as it was,
    exactly when no user has the admin role and some user already has the
    email admin@hms.local.  Otherwise [init_db] leaves a user with the
    admin role behind.  Run twice it leaves the database the first run
    left.  No view deletes a user, changes a role or writes a department,
    so once the application has started an administrator exists in every
    database, [init_db] never raises there, and a restart changes
    nothing. *)
Theorem X7_init_db_runs_once :
  departments (init_db empty_store)
  = [ Department.mk 1 "Cardiology"
        "Heart and vascular care including diagnostics.";
      Department.mk 2 "Orthopedics" "Bone, joint and muscle treatments.";
      Department.mk 3 "Pediatrics" "Child and adolescent wellness.";
      Department.mk 4 "Dermatology" "Skin conditions and cosmetic care.";
      Department.mk 5 "General Medicine" "Primary and preventive care." ] /\
  (forall s, departments s <> [] -> departments (init_db s) = departments s) /\
  (forall s, init_db_raises s = true <->
             ~ has_admin s /\ In "admin@hms.local" (map User.email (users s))) /\
  (forall s, init_db_raises s = true ->
             users (init_db s) = users s /\ ~ has_admin (init_db s)) /\
  (forall s, init_db_raises s = false -> has_admin (init_db s)) /\
  (forall s, init_db (init_db s) = init_db s) /\
  (forall s, started s ->
             has_admin s /\ init_db_raises s = false /\ init_db s = s).
Proof.
  split; [reflexivity|]. split; [|split; [|split; [|split; [|split]]]].
  - intros s Hd. unfold init_db.
    destruct (departments s) as [|d ds] eqn:E; [congruence|].
    cbv beta iota zeta.
    repeat match goal with
           | |- context [match first ?f ?l with _ => _ end] =>
               destruct (first f l)
           end; simpl; rewrite ?E; reflexivity.
  - intros s. unfold init_db_raises. split.
    + intros Hraises.
      destruct (first (fun u => String.eqb (User.role u) (UserRole_value ADMIN))
                      (users s)) as [v|] eqn:E; [discriminate|].
      destruct (first (fun u => String.eqb (User.email u) "admin@hms.local")
                      (users s)) as [w|] eqn:E'; [|discriminate].
      split.
      * intros Hadmin. apply has_admin_first in Hadmin as (u & Hu). congruence.
      * apply first_Some in E' as [Hin Hmail]. apply String.eqb_eq in Hmail.
        apply in_map_iff. eauto.
    + intros [Hno Hin].
      destruct (first (fun u => String.eqb (User.role u) (UserRole_value ADMIN))
                      (users s)) as [v|] eqn:E.
      * exfalso. apply Hno. apply has_admin_first. eauto.
      * apply email_taken_first in Hin as (u & Hu).
        unfold has_email in Hu.
        destruct (first (fun u => String.eqb (User.email u) "admin@hms.local")
                        (users s)) as [w|] eqn:E'; [reflexivity|discriminate].
  - apply init_db_raised.
  - apply init_db_has_admin.
  - apply init_db_idempotent.
  - intros s Hs. destruct (started_seeded s Hs) as [Ha Hd].
    split; [exact Ha|]. split; [|apply init_db_with_admin; assumption].
    unfold init_db_raises. apply has_admin_first in Ha as (u & E).
    rewrite E. reflexivity.
Qed.

(** X8. In every database of a running application no two users have the
    same email: registration and doctor creation look the email up before
    they insert, no view edits an email, and after the first start
    [init_db] adds nothing.  The unique constraint on [users.email] is
    therefore never violated by a commit. *)
Theorem X8_emails_are_unique (s : Store) :
  started s ->
  NoDup (map User.email (users s)) /\
  forall u v, In u (users s) -> In v (users s) ->
              User.email u = User.email v -> u = v.
Proof.
  intros Hs. pose proof (started_uniq_email s Hs) as Hok.
  split; [exact Hok|].
  intros u v Hu Hv He. exact (NoDup_map_eq User.email (users s) u v Hok Hu Hv He).
Qed.

Lemma sample_store_started : started sample_store.
Proof.
  unfold sample_store. apply started_serve_all. apply started_first.
Defined.

(** On the sample database. *)
Lemma X8_sample_emails_witness :
  NoDup (map User.email (users sample_store)).
Proof. exact (proj1 (X8_emails_are_unique sample_store sample_store_started)). Defined.

(* ================================================================= *)
(** ** Treatment notes and appointments across requests *)

Lemma upsert_note_ids (pk : Z) (dg pr nt : string) (rows : list TreatmentNote.t) :
  NoDup (map TreatmentNote.id rows) ->
  NoDup (map TreatmentNote.appointment_id rows) ->
  NoDup (map TreatmentNote.id (upsert_note pk dg pr nt rows)) /\
  NoDup (map TreatmentNote.appointment_id (upsert_note pk dg pr nt rows)) /\
  forall k, In k (map TreatmentNote.appointment_id (upsert_note pk dg pr nt rows)) ->
            k = pk \/ In k (map TreatmentNote.appointment_id rows).
Proof.
  intros Hpk Huniq. unfold upsert_note.
  destruct (first (fun n => TreatmentNote.appointment_id n =? pk) rows)
    as [n|] eqn:E.
  - rewrite update_keys, update_proj by reflexivity. auto.
  - rewrite !map_app. simpl. split; [|split].
    + apply NoDup_snoc; [exact Hpk | apply next_id_fresh].
    + apply NoDup_snoc; [exact Huniq|].
      intros Hin. apply in_map_iff in Hin as (n & Hn & Hin).
      pose proof (first_None _ _ E n Hin) as Hf. simpl in Hf.
      rewrite Hn, Z.eqb_refl in Hf. discriminate.
    + intros k Hin. apply in_app_or in Hin as [Hin | [<- | []]]; auto.
Qed.

Lemma status_rows_ids (pk : Z) (status : option string) (rows : list Appointment.t) :
  map Appointment.id (status_rows pk status rows) = map Appointment.id rows.
Proof.
  unfold status_rows. destruct status as [name|]; [|reflexivity].
  destruct (AppointmentStatus_getitem name); [|reflexivity].
  apply update_keys. reflexivity.
Qed.

Lemma evolves_ids {Row : Type} (key : Row -> Z) (same : Row -> Row -> Prop)
    (rows rows' : list Row) (pk : Z) :
  (forall a b, same a b -> key b = key a) ->
  evolves same rows rows' ->
  In pk (map key rows) -> In pk (map key rows').
Proof.
  intros Hkey Hev Hin. apply in_map_iff in Hin as (r & <- & Hin).
  destruct (evolves_In _ _ _ r Hev Hin) as (r' & Hin' & Hsame).
  rewrite <- (Hkey _ _ Hsame). apply in_map. exact Hin'.
Qed.

(** The notes table: its key, the unique link to an appointment, and the
    existence of the appointment a note is linked to. *)
Lemma serve_notes_ok (s : Store) (r : Request) :
  notes_pk s /\ uniq_note_appointment s /\
  (forall n, In n (treatment_notes s) ->
             In (TreatmentNote.appointment_id n)
                (map Appointment.id (appointments s))) ->
  notes_pk (serve s r) /\ uniq_note_appointment (serve s r) /\
  (forall n, In n (treatment_notes (serve s r)) ->
             In (TreatmentNote.appointment_id n)
                (map Appointment.id (appointments (serve s r)))).
Proof.
  unfold notes_pk, uniq_note_appointment. intros (Hpk & Huniq & Href).
  assert (Hkeep : forall pk, In pk (map Appointment.id (appointments s)) ->
                             In pk (map Appointment.id (appointments (serve s r)))).
  { intros pk. destruct (serve_evolves s r) as (_ & _ & _ & _ & Hev & _).
    apply (evolves_ids Appointment.id same_appointment _ _ pk); [|exact Hev].
    intros a b Hab. apply Hab. }
  destruct (in_dec (fun x y : Table =>
              ltac:(decide equality) : {x = y} + {x <> y}) Notes (footprint r))
    as [Hin | Hout].
  - destruct r; simpl in Hin;
      try (exfalso; intuition discriminate).
    unfold serve in *. cbn [view_of] in *.
    destruct (get Appointment.id appointment_id (appointments s)) as [a|] eqn:Hget.
    + destruct (Z.eq_dec (Appointment.doctor_id a) current_doctor) as [Hown | Hne].
      * rewrite (update_appointment_status_run _ _ _ _ _ _ _ _ Hget Hown) in *.
        cbn [store treatment_notes appointments set_treatment_notes
             set_appointments] in *.
        destruct (upsert_note_ids appointment_id (form_get diagnosis "")
                    (form_get prescription "") (form_get notes "")
                    (treatment_notes s) Hpk Huniq) as (H1 & H2 & H3).
        split; [exact H1|]. split; [exact H2|].
        intros n Hn. rewrite status_rows_ids.
        destruct (H3 _ (in_map TreatmentNote.appointment_id _ _ Hn))
          as [-> | Hold].
        -- apply (get_Some Appointment.id) in Hget as [Ha <-].
           apply in_map. exact Ha.
        -- apply in_map_iff in Hold as (n0 & <- & Hn0). auto.
      * rewrite (update_appointment_status_forbidden _ _ _ _ _ _ _ _ Hget Hne).
        auto.
    + assert (Hstore : store (handle (update_appointment_status current_doctor
                appointment_id status diagnosis prescription notes) s) = s)
        by (unfold update_appointment_status; run_view; rewrite Hget;
            destruct (sqlite_int _); reflexivity).
      rewrite Hstore. auto.
  - destruct (serve_footprint s r) as (_ & _ & _ & _ & _ & Hnotes).
    rewrite (Hnotes Hout). split; [exact Hpk|]. split; [exact Huniq|].
    intros n Hn. apply Hkeep. auto.
Qed.

Lemma reachable_notes_ok (s : Store) :
  reachable s ->
  notes_pk s /\ uniq_note_appointment s /\
  (forall n, In n (treatment_notes s) ->
             In (TreatmentNote.appointment_id n)
                (map Appointment.id (appointments s))).
Proof.
  induction 1 as [| s _ IH | s r _ IH].
  - unfold notes_pk, uniq_note_appointment. simpl.
    repeat split; try constructor. intros n [].
  - destruct (init_db_tables s) as (_ & _ & _ & Ha & Hn).
    unfold notes_pk, uniq_note_appointment in *. rewrite Hn, Ha. exact IH.
  - apply serve_notes_ok. exact IH.
Qed.

(** X9. In every database the application can produce, each appointment
    has at most one treatment note, note ids are unique, and every note is
    attached to an appointment that exists: the clinical update looks the
    note up before it adds one, and appointments are never deleted.  The
    unique constraint on [treatment_notes.appointment_id] is never
    violated by a commit. *)
Theorem X9_one_note_per_appointment (s : Store) :
  reachable s ->
  NoDup (map TreatmentNote.id (treatment_notes s)) /\
  (forall n m, In n (treatment_notes s) -> In m (treatment_notes s) ->
               TreatmentNote.appointment_id n = TreatmentNote.appointment_id m ->
               n = m) /\
  (forall n, In n (treatment_notes s) ->
     exists a, In a (appointments s) /\
               Appointment.id a = TreatmentNote.appointment_id n).
Proof.
  intros Hs. destruct (reachable_notes_ok s Hs) as (Hpk & Huniq & Href).
  split; [exact Hpk|]. split.
  - intros n m Hn Hm E.
    exact (NoDup_map_eq TreatmentNote.appointment_id _ n m Huniq Hn Hm E).
  - intros n Hn. specialize (Href n Hn).
    apply in_map_iff in Href as (a & Ha & Hin). eauto.
Qed.

(** On the sample database. *)
Lemma X9_sample_notes_witness :
  NoDup (map TreatmentNote.id (treatment_notes sample_store)).
Proof.
  exact (proj1 (X9_one_note_per_appointment sample_store sample_store_reachable)).
Defined.

(** X10. In every database the application can produce no two
    appointments have the same id and no two appointments -- whatever
    their status -- occupy the same (doctor, date, time) slot: booking and
    rescheduling check the slot before they write, and the other views
    never move an appointment.  The unique constraint [uniq_doctor_slot]
    is never violated by a commit. *)
Theorem X10_one_appointment_per_slot (s : Store) :
  reachable s ->
  NoDup (map Appointment.id (appointments s)) /\
  (forall a b, In a (appointments s) -> In b (appointments s) ->
     Appointment.doctor_id a = Appointment.doctor_id b ->
     Appointment.appointment_date a = Appointment.appointment_date b ->
     Appointment.appointment_time a = Appointment.appointment_time b ->
     a = b).
Proof.
  intros Hs. destruct (reachable_schema_ok s Hs) as [Hpk Hslot _ _].
  split; [exact Hpk|].
  intros a b Ha Hb Hd Hdate Htime.
  apply (NoDup_map_eq slot_of (appointments s) a b Hslot Ha Hb).
  unfold slot_of. congruence.
Qed.

(** On the sample database. *)
Lemma X10_sample_slots_witness :
  NoDup (map Appointment.id (appointments sample_store)).
Proof.
  exact (proj1 (X10_one_appointment_per_slot sample_store sample_store_reachable)).
Defined.

(* ================================================================= *)
(** ** The admin override *)

Lemma every_member_has_a_name (m : AppointmentStatus) :
  exists name, AppointmentStatus_getitem name = Some m.
Proof.
  destruct m; [exists "BOOKED" | exists "COMPLETED" | exists "CANCELLED"];
    reflexivity.
Qed.

(** X11. The admin override asks for no ownership and looks at no prior
    status: for any existing appointment and any member name it succeeds
    and sets the status to the named member (so Completed or Cancelled
    appointments can be put back to Booked), and since every member has a
    name every status can be forced.  Nothing else changes: the other
    columns of the appointment, the other appointments and the other
    tables stay as they were. *)
Theorem X11_admin_override_is_unconditional
    (s : Store) (pk : Z) (a : Appointment.t) (name : string)
    (m : AppointmentStatus) :
  get Appointment.id pk (appointments s) = Some a ->
  AppointmentStatus_getitem name = Some m ->
  let o := handle (admin_update_appointment pk (Some name)) s in
  succeeded "admin_dashboard" "Appointment status updated." "success" o /\
  get Appointment.id pk (appointments (store o))
  = Some (Appointment.mk (Appointment.id a) (Appointment.patient_id a)
            (Appointment.doctor_id a) (Appointment.department_id a)
            (Appointment.appointment_date a) (Appointment.appointment_time a)
            m (Appointment.reason a)) /\
  (forall pk', pk' <> pk ->
     get Appointment.id pk' (appointments (store o))
     = get Appointment.id pk' (appointments s)) /\
  store o = set_appointments (appointments (store o)) s /\
  (forall m', exists name', AppointmentStatus_getitem name' = Some m').
Proof.
  intros Hget Hname o. subst o.
  rewrite (admin_update_appointment_run _ _ _ _ Hget).
  unfold status_rows. rewrite Hname.
  unfold succeeded; simpl. split; [auto|]. split; [|split; [|split]].
  - apply (get_update_same Appointment.id pk (Appointment.set_status m));
      [reflexivity | exact Hget].
  - intros pk' Hne. apply get_update_other; [reflexivity | exact Hne].
  - reflexivity.
  - apply every_member_has_a_name.
Qed.

(** The cancelled appointment of the sample database is put back to
    Booked. *)
Lemma X11_reopen_cancelled_witness :
  get Appointment.id 2
    (appointments
       (store (handle (admin_update_appointment 2 (Some "BOOKED")) sample_store)))
  = Some (Appointment.mk 2 2 1 1 738004 t1100 BOOKED "").
Proof.
  exact (proj1 (proj2
    (X11_admin_override_is_unconditional sample_store 2 sample_cancelled
       "BOOKED" BOOKED sample_get_cancelled eq_refl))).
Defined.

(* ================================================================= *)
(** ** Editing a doctor *)

Lemma update_doctor_run (s : Store) (pk : Z) (n p sp : option string)
    (dep : IntField) (room av : option string) (d : Doctor.t) (u : User.t) :
  get Doctor.id pk (doctors s) = Some d ->
  get User.id (Doctor.user_id d) (users s) = Some u ->
  storable dep = true ->
  handle (update_doctor pk n p sp dep room av) s
  = mkOutcome (Redirect "admin_dashboard") [("Doctor profile updated.", "success")]
      (set_doctors
         (update Doctor.id pk
            (fun r =>
               Doctor.mk (Doctor.id r) (Doctor.user_id r)
                 (match dep with Parsed z => z | _ => Doctor.department_id r end)
                 (form_get sp (Doctor.specialization d))
                 (form_get room (Doctor.room d))
                 (form_get av (Doctor.availability_summary d))
                 (Doctor.is_active r))
            (doctors s))
         (set_users
            (update User.id (Doctor.user_id d)
               (fun r =>
                  User.mk (User.id r) (form_get n (User.full_name u))
                    (User.email r) (form_get p (User.phone u))
                    (User.role r) (User.is_active r))
               (users s))
            s)).
Proof.
  intros Hd Hu Hdep. unfold update_doctor. run_view. rewrite Hd. simpl.
  rewrite Hu. simpl. rewrite (get_key _ _ _ _ Hu).
  destruct dep as [| | z]; [| discriminate |]; simpl in *;
    rewrite ?Hdep; simpl;
    rewrite !update_update by reflexivity; reflexivity.
Qed.

Lemma update_doctor_unstorable (s : Store) (pk : Z) (n p sp : option string)
    (dep : IntField) (room av : option string) (d : Doctor.t) :
  get Doctor.id pk (doctors s) = Some d ->
  storable dep = false ->
  handle (update_doctor pk n p sp dep room av) s
  = mkOutcome (HTTPError 500) [] s.
Proof.
  intros Hd Hdep. unfold update_doctor. run_view. rewrite Hd. simpl.
  destruct (get User.id (Doctor.user_id d) (users s)) as [u|]; [|reflexivity].
  destruct dep as [| | z]; [discriminate | reflexivity |]; simpl in *.
  rewrite Hdep. reflexivity.
Qed.

(** X12. Editing a doctor is a partial update that is committed as a
    whole or not at all.  A submitted field replaces the stored one and a
    missing field keeps it; the department changes only when a number is
    submitted; the ids, the link to the user, the user's email and role
    and both active flags are never touched.  When the department field
    is not a number, or is a number outside the signed 64-bit range of
    SQLite, the request ends with a 500 and nothing is stored, not even
    the name, phone and specialization assigned before the failure. *)
Theorem X12_update_doctor_partial_and_atomic
    (s : Store) (pk : Z) (n p sp : option string) (dep : IntField)
    (room av : option string) (d : Doctor.t) (u : User.t) :
  get Doctor.id pk (doctors s) = Some d ->
  get User.id (Doctor.user_id d) (users s) = Some u ->
  let o := handle (update_doctor pk n p sp dep room av) s in
  (storable dep = false ->
     response o = HTTPError 500 /\ flashed o = [] /\ store o = s)
  /\
  (storable dep = true ->
     succeeded "admin_dashboard" "Doctor profile updated." "success" o /\
     get Doctor.id pk (doctors (store o))
     = Some (Doctor.mk (Doctor.id d) (Doctor.user_id d)
               (match dep with Parsed z => z | _ => Doctor.department_id d end)
               (form_get sp (Doctor.specialization d))
               (form_get room (Doctor.room d))
               (form_get av (Doctor.availability_summary d))
               (Doctor.is_active d)) /\
     get User.id (Doctor.user_id d) (users (store o))
     = Some (User.mk (User.id u) (form_get n (User.full_name u)) (User.email u)
               (form_get p (User.phone u)) (User.role u) (User.is_active u)) /\
     (forall pk', pk' <> pk ->
        get Doctor.id pk' (doctors (store o)) = get Doctor.id pk' (doctors s)) /\
     (forall uid, uid <> Doctor.user_id d ->
        get User.id uid (users (store o)) = get User.id uid (users s)))
  /\
  (storable dep = false <->
     dep = Unparsable \/
     exists z, dep = Parsed z /\
               (z < -9223372036854775808 \/ 9223372036854775808 <= z)).
Proof.
  intros Hd Hu o. subst o. split; [|split].
  - intros Hdep. rewrite (update_doctor_unstorable _ _ _ _ _ _ _ _ d Hd Hdep).
    simpl. auto.
  - intros Hdep. rewrite (update_doctor_run _ _ _ _ _ _ _ _ d u Hd Hu Hdep).
    unfold succeeded; simpl. split; [auto|]. split; [|split; [|split]].
    + rewrite (get_update_same Doctor.id pk _ _ d) by (reflexivity || exact Hd).
      reflexivity.
    + rewrite (get_update_same User.id _ _ _ u) by (reflexivity || exact Hu).
      reflexivity.
    + intros pk' Hne. apply get_update_other; [reflexivity | exact Hne].
    + intros uid Hne. apply get_update_other; [reflexivity | exact Hne].
  - destruct dep as [| | z]; simpl; unfold sqlite_int.
    + split; [discriminate | intros [H | (z & H & _)]; discriminate].
    + split; auto.
    + split.
      * intros H. right. exists z. split; [reflexivity|].
        apply andb_false_iff in H as [H | H];
          [apply Z.leb_gt in H | apply Z.ltb_ge in H]; lia.
      * intros [H | (z' & H & Hz)]; [discriminate|]. injection H as <-.
        apply andb_false_iff.
        destruct Hz; [left; apply Z.leb_gt | right; apply Z.ltb_ge]; lia.
Qed.

(** Doctor 1 of the sample database gets a new room only; a department
    that is not a number, or one that SQLite cannot hold, stores
    nothing. *)
Lemma X12_room_only_witness :
  get Doctor.id 1
    (doctors
       (store (handle (update_doctor 1 None None None Absent (Some "R9") None)
                      sample_store)))
  = Some (Doctor.mk 1 2 1 "Cardiology" "R9" "Mon-Fri" true) /\
  store (handle (update_doctor 1 (Some "New Name") None None Unparsable None None)
                sample_store)
  = sample_store /\
  store (handle (update_doctor 1 (Some "New Name") None None
                   (Parsed 9223372036854775808) None None)
                sample_store)
  = sample_store.
Proof.
  assert (Hu : get User.id 2 (users sample_store)
               = Some (User.mk 2 "Asha Rao" "asha@hms.local" "100" "doctor" true))
    by (vm_compute; reflexivity).
  split; [|split].
  - exact (proj1 (proj2 (proj1 (proj2
      (X12_update_doctor_partial_and_atomic sample_store 1 None None None Absent
         (Some "R9") None _ _ sample_get_doctor Hu)) eq_refl))).
  - exact (proj2 (proj2 (proj1
      (X12_update_doctor_partial_and_atomic sample_store 1 (Some "New Name")
         None None Unparsable None None _ _ sample_get_doctor Hu) eq_refl))).
  - exact (proj2 (proj2 (proj1
      (X12_update_doctor_partial_and_atomic sample_store 1 (Some "New Name")
         None None (Parsed 9223372036854775808) None None _ _
         sample_get_doctor Hu) eq_refl))).
Defined.

(* ================================================================= *)
(** ** Toggling a patient *)

Lemma toggle_patient_run (s : Store) (pk : Z) (p : Patient.t) (u : User.t) :
  get Patient.id pk (patients s) = Some p ->
  get User.id (Patient.user_id p) (users s) = Some u ->
  handle (toggle_patient pk) s
  = mkOutcome (Redirect "admin_dashboard") [("Patient status updated.", "info")]
      (set_users
         (update User.id (Patient.user_id p)
                 (User.set_is_active (negb (User.is_active u))) (users s)) s).
Proof.
  intros Hp Hu. unfold toggle_patient. run_view. rewrite Hp. simpl.
  rewrite Hu. simpl. rewrite (get_key _ _ _ _ Hu). reflexivity.
Qed.

Lemma patient_user (s : Store) (p : Patient.t) :
  directory_ok s -> In p (patients s) ->
  exists u, get User.id (Patient.user_id p) (users s) = Some u.
Proof.
  intros Hok Hp. pose proof (patients_linked s Hok p Hp) as Hin.
  destruct (get User.id (Patient.user_id p) (users s)) as [u|] eqn:E; [eauto|].
  exfalso. exact (get_None User.id _ _ E Hin).
Qed.

(** X13. In every database the application can produce, toggling a
    patient succeeds and flips the active flag of the user linked to the
    patient, and of nothing else: the doctors table is untouched, no
    doctor's linked user changes its flag, and the scheduling tables stay
    as they were.  A second toggle restores the store. *)
Theorem X13_toggle_patient_is_independent
    (s : Store) (pk : Z) (p : Patient.t) :
  reachable s ->
  get Patient.id pk (patients s) = Some p ->
  let s1 := serve s (TogglePatient pk) in
  (exists u,
     get User.id (Patient.user_id p) (users s) = Some u /\
     get User.id (Patient.user_id p) (users s1)
     = Some (User.set_is_active (negb (User.is_active u)) u)) /\
  succeeded "admin_dashboard" "Patient status updated." "info"
            (handle (toggle_patient pk) s) /\
  (forall uid, uid <> Patient.user_id p ->
     get User.id uid (users s1) = get User.id uid (users s)) /\
  (forall d, doctor_active d s1 = doctor_active d s /\
             linked_user_active d s1 = linked_user_active d s) /\
  s1 = set_users (users s1) s /\
  serve s1 (TogglePatient pk) = s.
Proof.
  intros Hreach Hp s1.
  pose proof (reachable_directory_ok s Hreach) as Hok.
  pose proof (get_Some Patient.id _ _ _ Hp) as [Hin _].
  destruct (patient_user s p Hok Hin) as (u & Hu).
  assert (Hs1 : s1
    = set_users
        (update User.id (Patient.user_id p)
                (User.set_is_active (negb (User.is_active u))) (users s)) s).
  { unfold s1, serve, view_of. rewrite (toggle_patient_run s pk p u Hp Hu).
    reflexivity. }
  assert (Hu1 : get User.id (Patient.user_id p) (users s1)
                = Some (User.set_is_active (negb (User.is_active u)) u)).
  { rewrite Hs1. simpl. apply get_update_same; [reflexivity | exact Hu]. }
  assert (Hother : forall uid, uid <> Patient.user_id p ->
            get User.id uid (users s1) = get User.id uid (users s)).
  { intros uid Hne. rewrite Hs1. simpl.
    apply get_update_other; [reflexivity | exact Hne]. }
  split; [exists u; auto|]. split; [|split; [exact Hother|split; [|split]]].
  - rewrite (toggle_patient_run s pk p u Hp Hu). unfold succeeded; simpl. auto.
  - intros d. unfold doctor_active, linked_user_active.
    assert (Hdocs : doctors s1 = doctors s) by (rewrite Hs1; reflexivity).
    rewrite Hdocs. split; [reflexivity|].
    destruct (get Doctor.id d (doctors s)) as [dr|] eqn:Hd; [|reflexivity].
    rewrite Hother; [reflexivity|].
    apply (get_Some Doctor.id) in Hd as [Hdr _].
    intros E. apply (patients_not_doctors s Hok p dr Hin Hdr). auto.
  - rewrite Hs1. reflexivity.
  - unfold serve, view_of.
    rewrite (toggle_patient_run s1 pk p
               (User.set_is_active (negb (User.is_active u)) u)).
    + rewrite Hs1. simpl. rewrite update_update by reflexivity.
      rewrite negb_involutive.
      rewrite (update_noop User.id (Patient.user_id p) _ (users s) u);
        [| apply (users_pk s Hok) | exact Hu | destruct u; reflexivity].
      destruct s; reflexivity.
    + rewrite Hs1. exact Hp.
    + exact Hu1.
Qed.

Lemma sample_get_patient :
  get Patient.id 1 (patients sample_store) = Some (Patient.mk 1 4 None None None).
Proof. vm_compute. reflexivity. Defined.

(** Patient 1 of the sample database is deactivated and reactivated. *)
Lemma X13_toggle_patient_witness :
  serve (serve sample_store (TogglePatient 1)) (TogglePatient 1) = sample_store.
Proof.
  exact (proj2 (proj2 (proj2 (proj2 (proj2
    (X13_toggle_patient_is_independent sample_store 1 _ sample_store_reachable
       sample_get_patient)))))).
Defined.

(* ================================================================= *)
(** ** Cancelling and rescheduling, followed by a booking *)

(** X14. Cancelling does not free the slot.  After the owner has
    cancelled an appointment, a booking request by any patient for the
    same doctor, date and time is still answered with the conflict
    response and stores nothing. *)
Theorem X14_cancelled_slot_stays_taken
    (s : Store) (p pk : Z) (a : Appointment.t) :
  get Appointment.id pk (appointments s) = Some a ->
  Appointment.patient_id a = p ->
  let s1 := serve s (CancelAppointment p pk) in
  get Appointment.id pk (appointments s1)
  = Some (Appointment.set_status CANCELLED a) /\
  forall p' dep reason,
    ConflictError_book
      (handle (book_appointment p' (Appointment.doctor_id a) dep
                 (Appointment.appointment_date a)
                 (Appointment.appointment_time a) reason) s1) /\
    store (handle (book_appointment p' (Appointment.doctor_id a) dep
                     (Appointment.appointment_date a)
                     (Appointment.appointment_time a) reason) s1) = s1.
Proof.
  intros Hget Hown s1.
  assert (Hget1 : get Appointment.id pk (appointments s1)
                  = Some (Appointment.set_status CANCELLED a)).
  { unfold s1, serve, view_of.
    rewrite (cancel_appointment_owner _ _ _ _ Hget Hown). simpl.
    apply get_update_same; [reflexivity | exact Hget]. }
  split; [exact Hget1|].
  intros p' dep reason.
  assert (Htaken : slot_taken (Appointment.doctor_id a)
                     (Appointment.appointment_date a)
                     (Appointment.appointment_time a) s1).
  { exists (Appointment.set_status CANCELLED a).
    apply (get_Some Appointment.id) in Hget1 as [Hin _].
    split; [exact Hin | repeat split]. }
  apply slot_taken_first in Htaken as (b & E).
  rewrite (book_appointment_conflict _ _ _ _ _ _ _ _ E).
  unfold ConflictError_book; simpl. auto.
Qed.

(** Patient 1 cancels appointment 1 of the sample database; patient 2
    cannot take the slot. *)
Lemma X14_cancelled_slot_witness :
  ConflictError_book
    (handle (book_appointment 2 1 1 738003 t1000 None)
            (serve sample_store (CancelAppointment 1 1))).
Proof.
  exact (proj1 (proj2
    (X14_cancelled_slot_stays_taken sample_store 1 1 sample_completed
       sample_get_completed eq_refl) 2 1 None)).
Defined.

(** X15. Rescheduling frees the old slot and takes the new one.  On a
    store that satisfies the appointment key and slot constraints, once
    the owner has moved an appointment to a different date or time that no
    other appointment of the doctor occupies, a booking by any patient for
    the doctor's old slot succeeds -- provided the doctor id of the
    appointment and the submitted department id are integers SQLite can
    hold -- and a booking for the new slot is answered with the conflict
    response. *)
Theorem X15_reschedule_frees_the_old_slot
    (s : Store) (p pk : Z) (nd : date) (nt : Time.t) (a : Appointment.t) :
  NoDup (map Appointment.id (appointments s)) ->
  uniq_doctor_slot s ->
  get Appointment.id pk (appointments s) = Some a ->
  Appointment.patient_id a = p ->
  (nd, nt) <> (Appointment.appointment_date a, Appointment.appointment_time a) ->
  (forall b, In b (appointments s) ->
             occupies (Appointment.doctor_id a) nd nt b ->
             Appointment.id b = Appointment.id a) ->
  let s1 := serve s (RescheduleAppointment p pk nd nt) in
  forall p' dep reason,
    (sqlite_int (Appointment.doctor_id a) = true ->
     sqlite_int dep = true ->
     succeeded "patient_dashboard" "Appointment booked successfully." "success"
       (handle (book_appointment p' (Appointment.doctor_id a) dep
                  (Appointment.appointment_date a)
                  (Appointment.appointment_time a) reason) s1)) /\
    ConflictError_book
      (handle (book_appointment p' (Appointment.doctor_id a) dep nd nt reason) s1).
Proof.
  intros Hpk Hslot Hget Hown Hmove Hfree s1 p' dep reason.
  assert (Hs1 : appointments s1
                = update Appointment.id pk (rescheduled nd nt) (appointments s)).
  { unfold s1, serve, view_of.
    rewrite (reschedule_appointment_moved _ _ _ _ _ _ Hget Hown); [reflexivity|].
    intros c Hc. apply first_Some in Hc as [Hin Hocc].
    apply Hfree; [exact Hin | apply at_slot_occupies; exact Hocc]. }
  pose proof (get_Some Appointment.id _ _ _ Hget) as [Ha Hid].
  split.
  - assert (Hold : ~ slot_taken (Appointment.doctor_id a)
                     (Appointment.appointment_date a)
                     (Appointment.appointment_time a) s1).
    { intros (b & Hin & Hd & Hdate & Htime). rewrite Hs1 in Hin.
      apply In_update in Hin as (r & Hr & ->).
      destruct (Z.eqb_spec (Appointment.id r) pk) as [E | N].
      - simpl in Hdate, Htime. apply Hmove. congruence.
      - apply N. rewrite <- Hid. f_equal.
        apply (NoDup_map_eq slot_of (appointments s) r a Hslot Hr Ha).
        unfold slot_of. congruence. }
    intros Hdoc Hdep. apply slot_free_first in Hold.
    rewrite (book_appointment_free _ _ _ _ _ _ _ Hold Hdoc Hdep).
    unfold succeeded; simpl. auto.
  - assert (Hnew : slot_taken (Appointment.doctor_id a) nd nt s1).
    { exists (rescheduled nd nt a). split; [|repeat split].
      rewrite Hs1. apply In_update. exists a. rewrite Hid, Z.eqb_refl. auto. }
    apply slot_taken_first in Hnew as (b & E).
    rewrite (book_appointment_conflict _ _ _ _ _ _ _ _ E).
    unfold ConflictError_book; simpl. auto.
Qed.

Lemma sample_appointments_pk :
  NoDup (map Appointment.id (appointments sample_store)).
Proof. vm_compute. repeat constructor; simpl; intuition congruence. Defined.

(** Appointment 1 of the sample database moves two days later; its old
    slot can be booked again. *)
Lemma X15_moved_away_witness :
  succeeded "patient_dashboard" "Appointment booked successfully." "success"
    (handle (book_appointment 2 1 1 738003 t1000 None)
            (serve sample_store (RescheduleAppointment 1 1 738005 t1000))).
Proof.
  refine (proj1
    (X15_reschedule_frees_the_old_slot sample_store 1 1 738005 t1000
       sample_completed sample_appointments_pk sample_uniq_doctor_slot
       sample_get_completed eq_refl _ _ 2 1 None) eq_refl eq_refl).
  - discriminate.
  - intros b Hin (_ & Hdate & _). vm_compute in Hin.
    destruct Hin as [<- | [<- | []]]; discriminate Hdate.
Defined.

(* ================================================================= *)
(** ** Ordering *)

Section OrderBy.
Context {Row : Type} (column : Row -> Z).

Lemma insert_by_perm (leb : Row -> Row -> bool) (x : Row) (rows : list Row) :
  Permutation (insert_by leb x rows) (x :: rows).
Proof.
  induction rows as [|y rows IH]; simpl; [reflexivity|].
  destruct (leb x y); [reflexivity|].
  rewrite IH. apply perm_swap.
Qed.

Lemma order_by_perm (leb : Row -> Row -> bool) (rows : list Row) :
  Permutation (order_by leb rows) rows.
Proof.
  induction rows as [|x rows IH]; simpl; [reflexivity|].
  rewrite insert_by_perm. apply perm_skip. exact IH.
Qed.

Lemma order_by_In (leb : Row -> Row -> bool) (rows : list Row) (r : Row) :
  In r (order_by leb rows) <-> In r rows.
Proof.
  split; apply Permutation_in;
    [apply order_by_perm | symmetry; apply order_by_perm].
Qed.

Lemma insert_by_asc (x : Row) (rows : list Row) :
  StronglySorted (fun a b => column a <= column b) rows ->
  StronglySorted (fun a b => column a <= column b) (insert_by (asc column) x rows).
Proof.
  induction 1 as [|y rows Hs IH Hy]; simpl.
  - repeat constructor.
  - unfold asc at 1. destruct (Z.leb_spec (column x) (column y)) as [Hle | Hgt].
    + constructor; [constructor; assumption|].
      constructor; [exact Hle|].
      rewrite Forall_forall in *. intros z Hz. specialize (Hy z Hz). lia.
    + constructor; [exact IH|].
      rewrite Forall_forall in *. intros z Hz.
      apply (Permutation_in _ (insert_by_perm _ x rows)) in Hz.
      destruct Hz as [<- | Hz]; [lia | auto].
Qed.

Lemma order_by_asc (rows : list Row) :
  StronglySorted (fun a b => column a <= column b) (order_by (asc column) rows).
Proof.
  induction rows as [|x rows IH]; simpl; [constructor|].
  apply insert_by_asc. exact IH.
Qed.

Lemma insert_by_desc (x : Row) (rows : list Row) :
  StronglySorted (fun a b => column b <= column a) rows ->
  StronglySorted (fun a b => column b <= column a) (insert_by (desc column) x rows).
Proof.
  induction 1 as [|y rows Hs IH Hy]; simpl.
  - repeat constructor.
  - unfold desc at 1. destruct (Z.leb_spec (column y) (column x)) as [Hle | Hgt].
    + constructor; [constructor; assumption|].
      constructor; [exact Hle|].
      rewrite Forall_forall in *. intros z Hz. specialize (Hy z Hz). lia.
    + constructor; [exact IH|].
      rewrite Forall_forall in *. intros z Hz.
      apply (Permutation_in _ (insert_by_perm _ x rows)) in Hz.
      destruct Hz as [<- | Hz]; [lia | auto].
Qed.

Lemma order_by_desc (rows : list Row) :
  StronglySorted (fun a b => column b <= column a) (order_by (desc column) rows).
Proof.
  induction rows as [|x rows IH]; simpl; [constructor|].
  apply insert_by_desc. exact IH.
Qed.
End OrderBy.

(* ================================================================= *)
(** ** A doctor's view of a patient's history *)

Lemma between_them_spec (p d : Z) (a : Appointment.t) :
  between_them p d a = true <->
  Appointment.patient_id a = p /\ Appointment.doctor_id a = d.
Proof. unfold between_them. rewrite andb_true_iff, !Z.eqb_eq. tauto. Qed.

Lemma filter_nonempty {Row : Type} (p : Row -> bool) (rows : list Row) :
  Nat.ltb 0 (List.length (filter p rows)) = true <->
  exists r, In r rows /\ p r = true.
Proof.
  split.
  - destruct (filter p rows) as [|r l] eqn:E; simpl; [discriminate|].
    intros _. exists r. apply filter_In. rewrite E. left. reflexivity.
  - intros (r & Hin & Hp).
    assert (Hr : In r (filter p rows)) by (apply filter_In; auto).
    destruct (filter p rows); [contradiction | reflexivity].
Qed.

Lemma doctor_patient_history_run (s : Store) (cd pid : Z) :
  render (doctor_patient_history cd pid) s
  = match get Patient.id pid (patients s) with
    | None => inr (not_found_code pid)
    | Some p =>
        if Nat.ltb 0 (List.length (filter (between_them pid cd) (appointments s)))
        then inl (p, order_by (desc Appointment.appointment_date)
                       (filter (between_them pid cd) (appointments s)))
        else inr 403
    end.
Proof.
  unfold render, doctor_patient_history, not_found_code. run_view.
  destruct (get Patient.id pid (patients s)) as [p|] eqn:Hp; simpl;
    [|destruct (sqlite_int pid); reflexivity].
  rewrite (get_key _ _ _ _ Hp).
  destruct (Nat.ltb 0 _); reflexivity.
Qed.

(** X16. A doctor opening the history of a patient that does not exist
    gets 404 when the patient id is an integer SQLite can hold, and 500
    otherwise (the lookup raises); the doctor gets 403 when the patient
    exists and no appointment, of any status, links that patient to the
    doctor.  Otherwise the page receives the patient and exactly the
    appointments between the two, each once, latest date first. *)
Theorem X16_history_gate_and_content (s : Store) (cd pid : Z) :
  (get Patient.id pid (patients s) = None ->
   render (doctor_patient_history cd pid) s
   = inr (if sqlite_int pid then 404 else 500))
  /\
  (forall p, get Patient.id pid (patients s) = Some p ->
     ((~ exists a, In a (appointments s) /\ Appointment.patient_id a = pid /\
                   Appointment.doctor_id a = cd) ->
      render (doctor_patient_history cd pid) s = inr 403)
     /\
     ((exists a, In a (appointments s) /\ Appointment.patient_id a = pid /\
                 Appointment.doctor_id a = cd) ->
      exists history,
        render (doctor_patient_history cd pid) s = inl (p, history) /\
        Permutation history (filter (between_them pid cd) (appointments s)) /\
        StronglySorted
          (fun a b => Appointment.appointment_date b
                      <= Appointment.appointment_date a) history /\
        (forall a, In a history <->
                   In a (appointments s) /\ Appointment.patient_id a = pid /\
                   Appointment.doctor_id a = cd))).
Proof.
  rewrite doctor_patient_history_run. split.
  - intros ->. reflexivity.
  - intros p ->.
    destruct (Nat.ltb 0 (List.length (filter (between_them pid cd) (appointments s))))
      eqn:E.
    + split.
      * intros Hnone. exfalso. apply Hnone.
        apply filter_nonempty in E as (a & Hin & Ha).
        apply between_them_spec in Ha. eauto.
      * intros _. eexists. split; [reflexivity|].
        split; [apply order_by_perm|]. split; [apply order_by_desc|].
        intros a. rewrite order_by_In, filter_In, between_them_spec. tauto.
    + split; [reflexivity|].
      intros (a & Hin & Hp & Hd).
      assert (Nat.ltb 0 (List.length (filter (between_them pid cd) (appointments s)))
              = true).
      { apply filter_nonempty. exists a. split; [exact Hin|].
        apply between_them_spec. auto. }
      congruence.
Qed.

Lemma history_granted_iff (s : Store) (cd pid : Z) :
  (exists v, render (doctor_patient_history cd pid) s = inl v) <->
  In pid (map Patient.id (patients s)) /\
  exists a, In a (appointments s) /\ Appointment.patient_id a = pid /\
            Appointment.doctor_id a = cd.
Proof.
  rewrite doctor_patient_history_run. split.
  - intros (v & Hv).
    destruct (get Patient.id pid (patients s)) as [p|] eqn:Hp; [|discriminate].
    destruct (Nat.ltb 0 _) eqn:E; [|discriminate].
    split.
    + apply (get_Some Patient.id) in Hp as [Hin <-]. apply in_map. exact Hin.
    + apply filter_nonempty in E as (a & Hin & Ha).
      apply between_them_spec in Ha. eauto.
  - intros (Hp & a & Hin & Hpa & Hda).
    destruct (get Patient.id pid (patients s)) as [p|] eqn:E;
      [| exfalso; exact (get_None Patient.id _ _ E Hp)].
    assert (Hcount : Nat.ltb 0 (List.length
              (filter (between_them pid cd) (appointments s))) = true).
    { apply filter_nonempty. exists a. split; [exact Hin|].
      apply between_them_spec. auto. }
    rewrite Hcount. eauto.
Qed.

(** X17. The relationship test of the history view, once passed, stays
    passed.  When the body of [doctor_patient_history] renders the page
    for a doctor and a patient, it renders it after any further sequence
    of requests (no view deletes the patient or the appointment, or hands
    the appointment to someone else); and as soon as an existing patient
    has booked a free slot with a doctor -- doctor id and department id
    being integers SQLite can hold -- the body renders that patient's
    history for the doctor.  The page itself can still be lost: in front
    of the body, [role_required] answers a doctor whose account has been
    deactivated with [login_manager.unauthorized()]. *)
Theorem X17_history_access_is_monotone (s : Store) (cd pid : Z) :
  (forall rs,
     (exists v, render (doctor_patient_history cd pid) s = inl v) ->
     exists v', render (doctor_patient_history cd pid) (fold_left serve rs s)
                = inl v')
  /\
  (forall dep d t reason,
     In pid (map Patient.id (patients s)) ->
     ~ slot_taken cd d t s ->
     sqlite_int cd = true ->
     sqlite_int dep = true ->
     exists v, render (doctor_patient_history cd pid)
                      (serve s (BookAppointment pid cd dep d t reason)) = inl v)
  /\
  (forall unauthorized u,
     User.is_active u = false ->
     role_required unauthorized [DOCTOR] (Some u)
       (doctor_patient_history cd pid)
     = unauthorized).
Proof.
  split; [|split].
  - intros rs Hgranted. apply history_granted_iff in Hgranted as (Hp & a & Hin & Hpa & Hda).
    apply history_granted_iff.
    destruct (serve_all_evolves rs s) as (_ & _ & Hpat & _ & Happ & _).
    split.
    + apply (evolves_ids Patient.id same_patient (patients s) _ pid);
        [|exact Hpat|exact Hp].
      intros x y Hxy. apply Hxy.
    + destruct (evolves_In _ _ _ a Happ Hin) as (a' & Hin' & _ & H1 & H2 & _).
      exists a'. split; [exact Hin'|]. split; congruence.
  - intros dep d t reason Hp Hfree Hcd Hdep. apply history_granted_iff.
    apply slot_free_first in Hfree.
    unfold serve, view_of.
    rewrite (book_appointment_free _ _ _ _ _ _ _ Hfree Hcd Hdep).
    simpl. split; [exact Hp|].
    eexists. split; [apply in_or_app; right; left; reflexivity|].
    simpl. auto.
  - intros unauthorized u Hu. unfold role_required. rewrite Hu. reflexivity.
Qed.

(* ================================================================= *)
(** ** The dashboards *)

Lemma doctor_dashboard_run (s : Store) (cd : Z) (today : date) :
  render (doctor_dashboard cd today) s
  = inl (order_by (asc Appointment.appointment_date)
           (filter (fun a =>
                      (Appointment.doctor_id a =? cd)
                      && (today <=? Appointment.appointment_date a)
                      && (Appointment.appointment_date a <=? today + 7))
                   (appointments s)),
         filter (fun p =>
                   existsb (fun a =>
                              (Appointment.patient_id a =? Patient.id p)
                              && (Appointment.doctor_id a =? cd))
                           (appointments s))
                (patients s)).
Proof. reflexivity. Qed.

(** X18. On the doctor dashboard the upcoming list holds
    exactly the doctor's appointments dated from today to today + 7 (both
    included, any status), each once, earliest date first.  Its roster
    holds exactly the patients with at least one appointment with the
    doctor, and these are the patients whose history page the doctor is
    served. *)
Theorem X18_doctor_dashboard (s : Store) (cd : Z) (today : date) :
  exists upcoming roster,
    render (doctor_dashboard cd today) s = inl (upcoming, roster) /\
    (forall a, In a upcoming <->
               In a (appointments s) /\ Appointment.doctor_id a = cd /\
               today <= Appointment.appointment_date a <= today + 7) /\
    Permutation upcoming
      (filter (fun a =>
                 (Appointment.doctor_id a =? cd)
                 && (today <=? Appointment.appointment_date a)
                 && (Appointment.appointment_date a <=? today + 7))
              (appointments s)) /\
    StronglySorted
      (fun a b => Appointment.appointment_date a <= Appointment.appointment_date b)
      upcoming /\
    (forall p, In p roster <->
               In p (patients s) /\
               exists a, In a (appointments s) /\
                         Appointment.patient_id a = Patient.id p /\
                         Appointment.doctor_id a = cd) /\
    (forall p, In p roster <->
               In p (patients s) /\
               exists v, render (doctor_patient_history cd (Patient.id p)) s
                         = inl v).
Proof.
  rewrite doctor_dashboard_run. eexists. eexists. split; [reflexivity|].
  assert (Hroster : forall p,
    In p (filter (fun p =>
                    existsb (fun a =>
                               (Appointment.patient_id a =? Patient.id p)
                               && (Appointment.doctor_id a =? cd))
                            (appointments s)) (patients s)) <->
    In p (patients s) /\
    exists a, In a (appointments s) /\
              Appointment.patient_id a = Patient.id p /\
              Appointment.doctor_id a = cd).
  { intros p. rewrite filter_In, existsb_exists.
    split; intros (Hp & a & Hin & Ha); (split; [exact Hp|]); exists a;
      (split; [exact Hin|]).
    - apply andb_true_iff in Ha. rewrite !Z.eqb_eq in Ha. exact Ha.
    - apply andb_true_iff. rewrite !Z.eqb_eq. exact Ha. }
  split; [|split; [|split; [|split]]].
  - intros a. rewrite order_by_In, filter_In, !andb_true_iff, Z.eqb_eq, !Z.leb_le.
    tauto.
  - apply order_by_perm.
  - apply order_by_asc.
  - exact Hroster.
  - intros p. rewrite Hroster, history_granted_iff.
    split; [intros (Hp & Ha) | intros (Hp & _ & Ha)]; repeat split; auto.
    apply in_map. exact Hp.
Qed.

Lemma filter_partition {Row : Type} (p c : Row -> bool) (rows : list Row) :
  Permutation
    (filter (fun r => p r && c r) rows ++ filter (fun r => p r && negb (c r)) rows)
    (filter p rows).
Proof.
  induction rows as [|x rows IH]; simpl; [reflexivity|].
  destruct (p x), (c x); simpl; try exact IH.
  - apply perm_skip. exact IH.
  - rewrite <- Permutation_middle. apply perm_skip. exact IH.
Qed.

Lemma patient_dashboard_run (s : Store) (cp : Z) (today : date) :
  render (patient_dashboard cp today) s
  = inl (order_by (asc Appointment.appointment_date)
           (filter (fun a =>
                      (Appointment.patient_id a =? cp)
                      && (today <=? Appointment.appointment_date a))
                   (appointments s)),
         order_by (desc Appointment.appointment_date)
           (filter (fun a =>
                      (Appointment.patient_id a =? cp)
                      && (Appointment.appointment_date a <? today))
                   (appointments s)),
         order_by (asc DoctorAvailability.available_date)
           (filter (listed_availability today s) (doctor_availability s))).
Proof. reflexivity. Qed.

(** X19. On the patient dashboard every appointment of the patient, of
    any status, appears exactly once, in the upcoming list when its date
    is today or later and in the past list when it is before today; the
    upcoming list is ordered earliest first and the past list latest
    first.  The availability list shows exactly the availability records
    dated from today to today + 7 whose doctor exists, is linked to a
    user and is active, earliest first: records of a deactivated doctor
    are not shown. *)
Theorem X19_patient_dashboard (s : Store) (cp : Z) (today : date) :
  exists upcoming past listed,
    render (patient_dashboard cp today) s = inl (upcoming, past, listed) /\
    Permutation (upcoming ++ past)
      (filter (fun a => Appointment.patient_id a =? cp) (appointments s)) /\
    (forall a, In a upcoming -> today <= Appointment.appointment_date a) /\
    (forall a, In a past -> Appointment.appointment_date a < today) /\
    StronglySorted
      (fun a b => Appointment.appointment_date a <= Appointment.appointment_date b)
      upcoming /\
    StronglySorted
      (fun a b => Appointment.appointment_date b <= Appointment.appointment_date a)
      past /\
    (forall v, In v listed <->
       In v (doctor_availability s) /\
       today <= DoctorAvailability.available_date v <= today + 7 /\
       exists d u,
         get Doctor.id (DoctorAvailability.doctor_id v) (doctors s) = Some d /\
         get User.id (Doctor.user_id d) (users s) = Some u /\
         Doctor.is_active d = true) /\
    StronglySorted
      (fun v w => DoctorAvailability.available_date v
                  <= DoctorAvailability.available_date w) listed.
Proof.
  rewrite patient_dashboard_run. do 3 eexists. split; [reflexivity|].
  split; [|split; [|split; [|split; [|split; [|split]]]]].
  - rewrite !order_by_perm.
    rewrite <- (filter_partition (fun a => Appointment.patient_id a =? cp)
                  (fun a => today <=? Appointment.appointment_date a)).
    apply Permutation_app; [reflexivity|].
    erewrite filter_ext; [reflexivity|].
    intros a. cbn beta. rewrite Z.ltb_antisym. reflexivity.
  - intros a. rewrite order_by_In, filter_In, andb_true_iff, Z.leb_le. tauto.
  - intros a. rewrite order_by_In, filter_In, andb_true_iff, Z.ltb_lt. tauto.
  - apply order_by_asc.
  - apply order_by_desc.
  - intros v. rewrite order_by_In, filter_In. unfold listed_availability.
    destruct (get Doctor.id (DoctorAvailability.doctor_id v) (doctors s))
      as [d|] eqn:Hd.
    + destruct (get User.id (Doctor.user_id d) (users s)) as [u|] eqn:Hu.
      * rewrite !andb_true_iff, !Z.leb_le. split.
        -- intros (Hv & (Hact & H1) & H2).
           split; [exact Hv|]. split; [split; assumption|].
           exists d, u. auto.
        -- intros (Hv & (H1 & H2) & d' & u' & [= <-] & _ & Hact). auto.
      * split; [intros [_ H]; discriminate|].
        intros (_ & _ & d' & u' & [= <-] & Hu' & _). congruence.
    + split; [intros [_ H]; discriminate|].
      intros (_ & _ & d' & u' & Hd' & _). discriminate.
  - apply order_by_asc.
Qed.

(* ================================================================= *)
(** ** Searching and listing doctors *)

Lemma In_doctors_with_user (s : Store) (d : Doctor.t) (u : User.t) :
  In (d, u) (doctors_with_user s) <->
  In d (doctors s) /\ get User.id (Doctor.user_id d) (users s) = Some u.
Proof.
  unfold doctors_with_user. rewrite in_flat_map. split.
  - intros (d0 & Hin & Hdu).
    destruct (get User.id (Doctor.user_id d0) (users s)) as [u0|] eqn:E;
      [|contradiction].
    destruct Hdu as [[= <- <-] | []]. auto.
  - intros (Hin & Hu). exists d. rewrite Hu. simpl. auto.
Qed.

Lemma search_doctors_run (ilike : string -> string -> bool) (sp name : string)
    (s : Store) :
  render (search_doctors ilike sp name) s
  = inl (map fst
           (filter (fun du =>
                      Doctor.is_active (fst du)
                      && (if String.eqb sp "" then true
                          else ilike (Doctor.specialization (fst du))
                                     ("%" ++ sp ++ "%")%string)
                      && (if String.eqb name "" then true
                          else ilike (User.full_name (snd du))
                                     ("%" ++ name ++ "%")%string))
                   (doctors_with_user s))).
Proof. reflexivity. Qed.

Lemma joined_doctors (s : Store) (P : Doctor.t -> bool) :
  directory_ok s ->
  map fst (filter (fun du => P (fst du)) (doctors_with_user s))
  = filter P (doctors s).
Proof.
  intros Hok. unfold doctors_with_user.
  assert (Hall : forall d, In d (doctors s) ->
            exists u, get User.id (Doctor.user_id d) (users s) = Some u).
  { intros d Hd. destruct (linked_user s d Hok Hd) as (u & Hu & _). eauto. }
  induction (doctors s) as [|d ds IH]; simpl; [reflexivity|].
  destruct (Hall d (or_introl eq_refl)) as (u & ->). simpl.
  destruct (P d); simpl; rewrite IH; auto; intros d' Hd'; apply Hall; right; auto.
Qed.

(** X20. Whatever the two filters and whatever [ilike] decides, the
    doctor search returns only active doctors that have a user row, and a
    doctor is returned exactly when it is active, its specialization
    matches the specialization filter (if one is given) and its user's
    name matches the name filter (if one is given).  With both filters
    empty, on any database the application can produce, the result is the
    list of active doctors, the same list the booking form offers. *)
Theorem X20_search_doctors (ilike : string -> string -> bool) (sp name : string)
    (s : Store) :
  exists found,
    render (search_doctors ilike sp name) s = inl found /\
    (forall d, In d found <->
       In d (doctors s) /\ Doctor.is_active d = true /\
       exists u,
         get User.id (Doctor.user_id d) (users s) = Some u /\
         (sp <> "" ->
          ilike (Doctor.specialization d) ("%" ++ sp ++ "%")%string = true) /\
         (name <> "" ->
          ilike (User.full_name u) ("%" ++ name ++ "%")%string = true)) /\
    (reachable s ->
     render (search_doctors ilike "" "") s = inl (bookable_doctors s)).
Proof.
  rewrite search_doctors_run. eexists. split; [reflexivity|]. split.
  - intros d. rewrite in_map_iff. split.
    + intros ([d0 u] & <- & Hin). apply filter_In in Hin as [Hin Hc].
      apply In_doctors_with_user in Hin as [Hd Hu]. simpl in *.
      apply andb_true_iff in Hc as [Hc Hname].
      apply andb_true_iff in Hc as [Hact Hsp].
      split; [exact Hd|]. split; [exact Hact|]. exists u.
      split; [exact Hu|]. split.
      * intros Hne. apply String.eqb_neq in Hne. rewrite Hne in Hsp. exact Hsp.
      * intros Hne. apply String.eqb_neq in Hne. rewrite Hne in Hname. exact Hname.
    + intros (Hd & Hact & u & Hu & Hsp & Hname). exists (d, u).
      split; [reflexivity|]. apply filter_In.
      split; [apply In_doctors_with_user; auto|]. simpl.
      rewrite Hact. simpl. apply andb_true_iff. split.
      * destruct (String.eqb_spec sp ""); auto.
      * destruct (String.eqb_spec name ""); auto.
  - intros Hs. rewrite search_doctors_run. unfold bookable_doctors.
    rewrite <- (joined_doctors s Doctor.is_active (reachable_directory_ok s Hs)).
    do 2 f_equal. apply filter_ext. intros du. cbn [String.eqb].
    rewrite !andb_true_r. reflexivity.
Qed.

(** X21. Deactivating a doctor hides it.  In every database the
    application can produce, after the admin has toggled an active doctor,
    no row with that doctor's id appears in any search result or on the
    booking form, and none of the doctor's availability records is listed
    on a patient dashboard. *)
Theorem X21_deactivated_doctor_is_hidden
    (s : Store) (pk : Z) (d : Doctor.t) :
  reachable s ->
  get Doctor.id pk (doctors s) = Some d ->
  Doctor.is_active d = true ->
  let s1 := serve s (ToggleDoctor pk) in
  (forall ilike sp name found,
     render (search_doctors ilike sp name) s1 = inl found ->
     forall d', In d' found -> Doctor.id d' <> pk) /\
  (forall d', In d' (bookable_doctors s1) -> Doctor.id d' <> pk) /\
  (forall cp today upcoming past listed,
     render (patient_dashboard cp today) s1 = inl (upcoming, past, listed) ->
     forall v, In v listed -> DoctorAvailability.doctor_id v <> pk).
Proof.
  intros Hreach Hd Hact s1.
  pose proof (reachable_directory_ok s Hreach) as Hok.
  pose proof (get_Some Doctor.id _ _ _ Hd) as [Hin _].
  destruct (linked_user s d Hok Hin) as (u & Hu & _).
  assert (Hdocs : doctors s1
                  = update Doctor.id pk (Doctor.set_is_active false) (doctors s)).
  { unfold s1, serve, view_of. rewrite (toggle_doctor_run s pk d u Hd Hu).
    rewrite Hact. reflexivity. }
  assert (Hoff : forall d', In d' (doctors s1) -> Doctor.is_active d' = true ->
                            Doctor.id d' <> pk).
  { intros d' Hd' Hon E. rewrite Hdocs in Hd'.
    apply In_update in Hd' as (r & Hr & ->).
    destruct (Z.eqb_spec (Doctor.id r) pk) as [_ | N];
      [discriminate Hon | contradiction]. }
  split; [|split].
  - intros ilike sp name found Hfound d' Hd'.
    rewrite search_doctors_run in Hfound. injection Hfound as <-.
    apply in_map_iff in Hd' as ([d0 u0] & <- & Hdu).
    apply filter_In in Hdu as [Hdu Hc].
    apply In_doctors_with_user in Hdu as [Hd0 _]. simpl in *.
    apply andb_true_iff in Hc as [Hc _]. apply andb_true_iff in Hc as [Hon _].
    apply Hoff; assumption.
  - intros d' Hd'. apply filter_In in Hd' as [Hd' Hon]. apply Hoff; assumption.
  - intros cp today upcoming past listed Hrender v Hv E.
    rewrite patient_dashboard_run in Hrender. injection Hrender as _ _ <-.
    apply order_by_In, filter_In in Hv as [_ Hv].
    unfold listed_availability in Hv. rewrite E in Hv.
    destruct (get Doctor.id pk (doctors s1)) as [d1|] eqn:Hd1; [|discriminate].
    destruct (get User.id (Doctor.user_id d1) (users s1)); [|discriminate].
    apply andb_true_iff in Hv as [Hv _]. apply andb_true_iff in Hv as [Hon _].
    apply (get_Some Doctor.id) in Hd1 as [Hd1 Hid].
    exact (Hoff d1 Hd1 Hon Hid).
Qed.

(** Doctor 1 of the sample database is deactivated and disappears from the
    booking form. *)
Lemma X21_hidden_witness :
  Forall (fun d' => Doctor.id d' <> 1)
         (bookable_doctors (serve sample_store (ToggleDoctor 1))).
Proof.
  apply Forall_forall.
  exact (proj1 (proj2
    (X21_deactivated_doctor_is_hidden sample_store 1 _ sample_store_reachable
       sample_get_doctor eq_refl))).
Defined.

(* ================================================================= *)
(** ** Logging in *)

Lemma lower_char_space (c : Ascii.ascii) : is_space (lower_char c) = is_space c.
Proof. destruct c as [[] [] [] [] [] [] [] []]; reflexivity. Qed.

Lemma lower_char_idem (c : Ascii.ascii) : lower_char (lower_char c) = lower_char c.
Proof. destruct c as [[] [] [] [] [] [] [] []]; reflexivity. Qed.

Lemma lower_idem (s : string) : lower (lower s) = lower s.
Proof.
  induction s as [|c r IH]; simpl; [reflexivity|].
  rewrite lower_char_idem, IH. reflexivity.
Qed.

Lemma lower_lstrip (s : string) : lower (lstrip s) = lstrip (lower s).
Proof.
  induction s as [|c r IH]; simpl; [reflexivity|].
  rewrite lower_char_space. destruct (is_space c); [exact IH | reflexivity].
Qed.

Lemma lower_rstrip (s : string) : lower (rstrip s) = rstrip (lower s).
Proof.
  induction s as [|c r IH]; simpl; [reflexivity|].
  rewrite <- IH, lower_char_space.
  destruct (rstrip r); simpl; [destruct (is_space c)|]; reflexivity.
Qed.

Lemma lstrip_idem (s : string) : lstrip (lstrip s) = lstrip s.
Proof.
  induction s as [|c r IH]; simpl; [reflexivity|].
  destruct (is_space c) eqn:Hc; [exact IH | simpl; rewrite Hc; reflexivity].
Qed.

Lemma rstrip_cons (c : Ascii.ascii) (r : string) :
  rstrip (String c r)
  = match rstrip r with
    | EmptyString => if is_space c then EmptyString else String c EmptyString
    | String c' r' => String c (String c' r')
    end.
Proof. reflexivity. Qed.

Lemma rstrip_idem (s : string) : rstrip (rstrip s) = rstrip s.
Proof.
  induction s as [|c r IH]; [reflexivity|].
  rewrite rstrip_cons. destruct (rstrip r) as [|c' r'] eqn:E.
  - destruct (is_space c) eqn:Hc; [reflexivity|].
    rewrite rstrip_cons. simpl. rewrite Hc. reflexivity.
  - rewrite rstrip_cons, IH. reflexivity.
Qed.

Lemma lstrip_rstrip (s : string) : lstrip (rstrip s) = rstrip (lstrip s).
Proof.
  induction s as [|c r IH]; [reflexivity|].
  rewrite rstrip_cons. simpl lstrip at 2.
  destruct (is_space c) eqn:Hc.
  - rewrite <- IH. destruct (rstrip r); simpl; [|rewrite Hc]; reflexivity.
  - rewrite rstrip_cons.
    destruct (rstrip r); rewrite ?Hc; simpl; rewrite Hc; reflexivity.
Qed.

Lemma strip_idem (s : string) : strip (strip s) = strip s.
Proof.
  unfold strip. rewrite lstrip_rstrip, lstrip_idem, rstrip_idem. reflexivity.
Qed.

Lemma strip_lower (s : string) : strip (lower s) = lower (strip s).
Proof. unfold strip. rewrite <- lower_lstrip, <- lower_rstrip. reflexivity. Qed.

(** An email that has been trimmed and lower-cased stays as it is when it
    is trimmed and lower-cased again. *)
Lemma normalised_email (e : string) : normalised (lower (strip e)).
Proof.
  unfold normalised. rewrite strip_lower, lower_idem, strip_idem. reflexivity.
Qed.

Lemma serve_normalised_emails (s : Store) (r : Request) :
  Forall normalised (map User.email (users s)) ->
  Forall normalised (map User.email (users (serve s r))).
Proof.
  intros Hok.
  destruct r; split_view;
    cbn [users set_users set_doctors set_patients set_doctor_availability
         set_appointments set_treatment_notes];
    first
      [ exact Hok
      | rewrite !update_proj by reflexivity; exact Hok
      | rewrite map_app; apply Forall_app; split; [exact Hok|];
        repeat constructor; apply normalised_email ].
Qed.

(** Every email stored by a running application is trimmed and in lower
    case. *)
Lemma started_normalised_emails (s : Store) :
  started s -> Forall normalised (map User.email (users s)).
Proof.
  induction 1 as [| s Hs IH | s r _ IH].
  - repeat constructor.
  - rewrite (started_init_db s Hs). exact IH.
  - apply serve_normalised_emails. exact IH.
Qed.

Lemma started_email (s : Store) (u : User.t) :
  started s -> In u (users s) -> lower (strip (User.email u)) = User.email u.
Proof.
  intros Hs Hin. pose proof (started_normalised_emails s Hs) as Hok.
  rewrite Forall_forall in Hok. apply Hok. apply in_map. exact Hin.
Qed.

Lemma login_run (check : Z -> string -> bool) (e pw : string) (s : Store) :
  render (login check e pw) s
  = inl match first (has_email (lower (strip e))) (users s) with
        | Some u => if User.is_active u && check (User.id u) pw then Some u
                    else None
        | None => None
        end.
Proof.
  unfold render, login. run_view.
  destruct (first (has_email _) (users s)) as [u|]; [|reflexivity].
  destruct (User.is_active u && check (User.id u) pw); reflexivity.
Qed.

(** X22. [login] trims and lower-cases the submitted email before it
    looks the account up.  Whatever the password check decides, a login
    is accepted only for a user of the store whose email is that
    normalised email, who is active and who passes the check; when no
    user has the normalised email the login is refused.  In the database
    of a running application, where emails are unique, the account with
    that email is logged in exactly when it is active and passes the
    check. *)
Theorem X22_login_requires_an_active_account
    (check : Z -> string -> bool) (e pw : string) (s : Store) :
  (forall u, render (login check e pw) s = inl (Some u) ->
     In u (users s) /\ User.email u = lower (strip e) /\
     User.is_active u = true /\ check (User.id u) pw = true)
  /\
  (~ In (lower (strip e)) (map User.email (users s)) ->
   render (login check e pw) s = inl None)
  /\
  (started s ->
   forall u, In u (users s) -> User.email u = lower (strip e) ->
     render (login check e pw) s
     = inl (if User.is_active u && check (User.id u) pw then Some u else None)).
Proof.
  rewrite login_run. split; [|split].
  - intros u Hu.
    destruct (first (has_email _) (users s)) as [v|] eqn:E; [|discriminate].
    destruct (User.is_active v && check (User.id v) pw) eqn:C; [|discriminate].
    injection Hu as ->. apply first_Some in E as [Hin He].
    apply String.eqb_eq in He. apply andb_true_iff in C as [Hact Hc]. auto.
  - intros Hfree. rewrite (email_free_first _ (users s) Hfree). reflexivity.
  - intros Hs u Hin He.
    destruct (first (has_email _) (users s)) as [v|] eqn:E.
    + apply first_Some in E as [Hv Hve]. apply String.eqb_eq in Hve.
      assert (v = u)
        by (apply (NoDup_map_eq User.email (users s));
            [apply (started_uniq_email s Hs) | | | ]; congruence).
      subst v. reflexivity.
    + pose proof (first_None _ _ E u Hin) as Hf. unfold has_email in Hf.
      rewrite He, String.eqb_refl in Hf. discriminate.
Qed.

Lemma login_after_deactivation (check : Z -> string -> bool) (pw : string)
    (s : Store) (u : User.t) :
  uniq_email s ->
  In u (users s) ->
  lower (strip (User.email u)) = User.email u ->
  render (login check (User.email u) pw)
    (set_users (update User.id (User.id u) (User.set_is_active false) (users s)) s)
  = inl None.
Proof.
  intros Huniq Hin Hnorm. rewrite login_run, Hnorm. simpl. unfold update.
  rewrite first_map_stable
    by (intros r; unfold has_email; destruct (User.id r =? User.id u); reflexivity).
  destruct (first (has_email (User.email u)) (users s)) as [v|] eqn:E.
  - apply first_Some in E as [Hv Hve]. apply String.eqb_eq in Hve.
    assert (v = u) by (apply (NoDup_map_eq User.email (users s)); auto).
    subst v. simpl. rewrite Z.eqb_refl. reflexivity.
  - reflexivity.
Qed.

(** X23. Deactivation locks the account.  In the database of a running
    application, once the admin has toggled an active doctor, or a patient
    whose user is active, a login with that account's email is refused
    whatever the password and whatever the password check decides. *)
Theorem X23_deactivated_account_cannot_log_in
    (check : Z -> string -> bool) (pw : string) (s : Store) (pk : Z) (u : User.t) :
  started s ->
  (forall d,
     get Doctor.id pk (doctors s) = Some d ->
     get User.id (Doctor.user_id d) (users s) = Some u ->
     Doctor.is_active d = true ->
     render (login check (User.email u) pw) (serve s (ToggleDoctor pk)) = inl None)
  /\
  (forall p,
     get Patient.id pk (patients s) = Some p ->
     get User.id (Patient.user_id p) (users s) = Some u ->
     User.is_active u = true ->
     render (login check (User.email u) pw) (serve s (TogglePatient pk)) = inl None).
Proof.
  intros Hs. pose proof (started_uniq_email s Hs) as Huniq. split.
  - intros d Hd Hu Hact.
    unfold serve, view_of. rewrite (toggle_doctor_run s pk d u Hd Hu).
    rewrite Hact. cbn [store negb].
    pose proof (get_Some User.id _ _ _ Hu) as [Hin Hid].
    rewrite login_run. cbn [users set_users set_doctors].
    pose proof (login_after_deactivation check pw s u Huniq Hin
                  (started_email s u Hs Hin)) as Hlogin.
    rewrite login_run in Hlogin. cbn [users set_users] in Hlogin.
    rewrite Hid in Hlogin. exact Hlogin.
  - intros p Hp Hu Hact.
    unfold serve, view_of. rewrite (toggle_patient_run s pk p u Hp Hu).
    rewrite Hact. cbn [store negb].
    pose proof (get_Some User.id _ _ _ Hu) as [Hin Hid].
    rewrite <- Hid. apply login_after_deactivation;
      [assumption | assumption | apply (started_email s u Hs Hin)].
Qed.

(** Doctor 1 of the sample database is deactivated; a check that accepts
    every password does not let the account in. *)
Lemma X23_locked_out_witness :
  render (login (fun _ _ => true) "asha@hms.local" "secret")
         (serve sample_store (ToggleDoctor 1)) = inl None.
Proof.
  exact (proj1
    (X23_deactivated_account_cannot_log_in (fun _ _ => true) "secret"
       sample_store 1 (User.mk 2 "Asha Rao" "asha@hms.local" "100" "doctor" true)
       sample_store_started)
    _ sample_get_doctor eq_refl eq_refl).
Defined.

(* ================================================================= *)
(** ** The role gate *)

Lemma allowed_role_spec (role : string) (roles : list UserRole) :
  existsb (String.eqb role) (map UserRole_value roles) = true <->
  In role (map UserRole_value roles).
Proof.
  rewrite existsb_exists. split.
  - intros (x & Hin & E). apply String.eqb_eq in E. subst x. exact Hin.
  - intros Hin. exists role. split; [exact Hin | apply String.eqb_refl].
Qed.

Lemma role_required_refuses (unauthorized view : M Response)
    (roles : list UserRole) (u : User.t) (s : Store) :
  User.is_active u = true ->
  ~ In (User.role u) (map UserRole_value roles) ->
  handle (role_required unauthorized roles (Some u) view) s
  = mkOutcome (HTTPError 403) [] s.
Proof.
  intros Hact Hout. unfold role_required. rewrite Hact.
  destruct (existsb (String.eqb (User.role u)) (map UserRole_value roles)) eqn:E.
  - apply allowed_role_spec in E. contradiction.
  - reflexivity.
Qed.

Lemma role_required_admits (unauthorized view : M Response)
    (roles : list UserRole) (u : User.t) :
  User.is_active u = true ->
  In (User.role u) (map UserRole_value roles) ->
  role_required unauthorized roles (Some u) view = view.
Proof.
  intros Hact Hin. unfold role_required. rewrite Hact.
  apply allowed_role_spec in Hin. rewrite Hin. reflexivity.
Qed.

Lemma role_required_inactive (unauthorized view : M Response)
    (roles : list UserRole) (u : User.t) :
  User.is_active u = false ->
  role_required unauthorized roles (Some u) view = unauthorized.
Proof. intros Hact. unfold role_required. rewrite Hact. reflexivity. Qed.

(** What a logged-in user's request does to the store: nothing, or what
    the view does. *)
Lemma guarded_store (unauthorized : M Response) (u : User.t) (r : Request)
    (s : Store) :
  store (handle unauthorized s) = s ->
  store (handle (guarded unauthorized (Some u) r) s) = s \/
  (store (handle (guarded unauthorized (Some u) r) s) = serve s r /\
   forall roles, required_roles r = Some roles ->
                 In (User.role u) (map UserRole_value roles)).
Proof.
  intros Hun. unfold guarded.
  destruct (required_roles r) as [roles|] eqn:Hr.
  - destruct (User.is_active u) eqn:Hact.
    + destruct (in_dec string_dec (User.role u) (map UserRole_value roles))
        as [Hin | Hout].
      * right. rewrite (role_required_admits _ _ _ _ Hact Hin).
        split; [reflexivity|]. intros roles' [= <-]. exact Hin.
      * left. rewrite (role_required_refuses _ _ _ _ _ Hact Hout). reflexivity.
    + left. rewrite (role_required_inactive _ _ _ _ Hact). exact Hun.
  - right. split; [reflexivity|]. intros roles' [=].
Qed.

(** The requests that are not the admin's leave the doctors table and
    every existing account's active flag alone. *)
Lemma serve_not_admin (s : Store) (r : Request) :
  required_roles r <> Some [ADMIN] ->
  doctors (serve s r) = doctors s /\
  evolves same_account (users s) (users (serve s r)).
Proof.
  intros Hnot. unfold same_account, same_user.
  destruct r; try (exfalso; apply Hnot; reflexivity); split_view;
    cbn [users doctors set_users set_doctors set_patients
         set_doctor_availability set_appointments set_treatment_notes];
    (split; [reflexivity | solve_evolves]).
Qed.

(** X24. The role gate, in front of every view but [register].  A
    visitor who is not logged in, and a logged-in user whose account is
    not active (the [is_authenticated] of Flask-Login's [UserMixin] is
    the [is_active] column), are answered by
    [login_manager.unauthorized()] and the view does not run.  An active
    user whose role is not the one the view requires gets 403, with no
    message flashed and nothing stored; an active user with the required
    role has the request handled by the view itself.  Hence, as
    [login_manager.unauthorized()] does not write to the database, only a
    user with the admin role can change the doctors table or the active
    flag of an existing account, and only a user with the doctor role can
    change the availability and treatment-note tables. *)
Theorem X24_role_gate (unauthorized : M Response) (u : User.t) (r : Request)
    (s : Store) :
  store (handle unauthorized s) = s ->
  (forall roles, required_roles r = Some roles ->
     guarded unauthorized None r = unauthorized)
  /\
  (forall roles, required_roles r = Some roles ->
     User.is_active u = false ->
     guarded unauthorized (Some u) r = unauthorized)
  /\
  (forall roles, required_roles r = Some roles ->
     User.is_active u = true ->
     ~ In (User.role u) (map UserRole_value roles) ->
     handle (guarded unauthorized (Some u) r) s = mkOutcome (HTTPError 403) [] s)
  /\
  (forall roles, required_roles r = Some roles ->
     User.is_active u = true ->
     In (User.role u) (map UserRole_value roles) ->
     guarded unauthorized (Some u) r = view_of r)
  /\
  (User.role u <> "admin" ->
     doctors (store (handle (guarded unauthorized (Some u) r) s)) = doctors s /\
     evolves same_account (users s)
             (users (store (handle (guarded unauthorized (Some u) r) s))))
  /\
  (User.role u <> "doctor" ->
     doctor_availability (store (handle (guarded unauthorized (Some u) r) s))
     = doctor_availability s /\
     treatment_notes (store (handle (guarded unauthorized (Some u) r) s))
     = treatment_notes s).
Proof.
  intros Hun. split; [|split; [|split; [|split; [|split]]]].
  - intros roles Hr. unfold guarded. rewrite Hr. reflexivity.
  - intros roles Hr Hact. unfold guarded. rewrite Hr.
    apply role_required_inactive. exact Hact.
  - intros roles Hr Hact Hout. unfold guarded. rewrite Hr.
    apply role_required_refuses; assumption.
  - intros roles Hr Hact Hin. unfold guarded. rewrite Hr.
    apply role_required_admits; assumption.
  - intros Hrole.
    destruct (guarded_store unauthorized u r s Hun) as [-> | [-> Hroles]].
    + split; [reflexivity|]. apply evolves_refl. intros x.
      unfold same_account, same_user. auto.
    + apply serve_not_admin. intros Hr.
      destruct (Hroles _ Hr) as [E | []]. apply Hrole. symmetry. exact E.
  - intros Hrole.
    destruct (guarded_store unauthorized u r s Hun) as [-> | [-> Hroles]];
      [split; reflexivity|].
    destruct (serve_footprint s r) as (_ & _ & _ & Hav & _ & Hnotes).
    assert (Hnot : required_roles r <> Some [DOCTOR]).
    { intros Hr. destruct (Hroles _ Hr) as [E | []]. apply Hrole.
      symmetry. exact E. }
    split; [apply Hav | apply Hnotes];
      destruct r; simpl; intuition (try discriminate);
      exfalso; apply Hnot; reflexivity.
Qed.

(** Doctor 1 of the sample database, deactivated but still holding a
    session, asks to save availability and is sent to the login page;
    nothing is stored. *)
Lemma X24_deactivated_session_witness :
  handle (guarded (redirect "login")
            (Some (User.mk 2 "Asha Rao" "asha@hms.local" "100" "doctor" false))
            (UpdateAvailability 1 sample_today 738003 t0900 t1200))
         (serve sample_store (ToggleDoctor 1))
  = mkOutcome (Redirect "login") [] (serve sample_store (ToggleDoctor 1)).
Proof.
  rewrite (proj1 (proj2
    (X24_role_gate (redirect "login")
       (User.mk 2 "Asha Rao" "asha@hms.local" "100" "doctor" false)
       (UpdateAvailability 1 sample_today 738003 t0900 t1200)
       (serve sample_store (ToggleDoctor 1)) eq_refl)) [DOCTOR] eq_refl eq_refl).
  reflexivity.
Defined.
